(** * Notes editor: the note store, the autosave coordinator and the
      rule-based response matcher

    A shallow embedding of [store/useNotesStore.ts], of the autosave part of
    [components/Note.tsx] and of [generateIntelligentResponse] in
    [components/Chat.tsx], followed by the properties the specification
    states about them.  After these come the handlers of the sidebar, the
    chat panel, the keyboard shortcuts and the Markdown view of the note, and
    further properties of all of them.

    Conventions of the embedding.
    - A JavaScript string is a [string]: a sequence of 8-bit code units, read
      as the code points U+0000..U+00FF.  Case mapping and white space are the
      ones JavaScript defines on that range.
    - [string | null], and an optional argument or field, is an [option].
    - [Math.random()] and [Date.now()] are inputs of the operation that calls
      them: the identifier [generateId()] returns and the clock readings are
      explicit arguments.
    - zustand's [get()] and [set(recipe)] are the two primitives of a state
      monad over [NotesState]; an immer recipe that mutates its draft is the
      function from the old state to the new one. *)

From Stdlib Require Import ZArith String Ascii Bool Lia.
From stdpp Require Import base tactics option list strings.

Local Open Scope string_scope.
Local Open Scope list_scope.

(** ** JavaScript string primitives used by the sources *)

Module JsString.

Definition code (c : ascii) : nat := nat_of_ascii c.

Definition between (lo hi n : nat) : bool := (lo <=? n)%nat && (n <=? hi)%nat.

(** The code units below 256 that [toLowerCase] changes: A-Z, and the
    Latin-1 capitals U+00C0..U+00DE except the multiplication sign U+00D7. *)
Definition isUpper (c : ascii) : bool :=
  between 65 90 (code c) || between 192 214 (code c) || between 216 222 (code c).

Definition toLowerChar (c : ascii) : ascii :=
  if isUpper c then ascii_of_nat (code c + 32) else c.

(** [s.toLowerCase()] *)
Fixpoint toLowerCase (s : string) : string :=
  match s with
  | EmptyString => EmptyString
  | String c r => String (toLowerChar c) (toLowerCase r)
  end.

(** [s.startsWith(p)] *)
Fixpoint startsWith (s p : string) {struct p} : bool :=
  match p, s with
  | EmptyString, _ => true
  | String _ _, EmptyString => false
  | String a p', String b s' => if Ascii.eqb a b then startsWith s' p' else false
  end.

(** [s.includes(sub)] *)
Fixpoint includes (s sub : string) : bool :=
  startsWith s sub ||
  match s with
  | EmptyString => false
  | String _ r => includes r sub
  end.

(** White space of [String.prototype.trim] below U+0100: TAB, LF, VT, FF,
    CR, SPACE and NO-BREAK SPACE. *)
Definition isWhiteSpace (c : ascii) : bool :=
  between 9 13 (code c) || (code c =? 32)%nat || (code c =? 160)%nat.

Fixpoint trimStart (s : string) : string :=
  match s with
  | EmptyString => EmptyString
  | String c r => if isWhiteSpace c then trimStart r else s
  end.

Definition trimEnd (s : string) : string :=
  String.rev (trimStart (String.rev s)).

(** [s.trim()] *)
Definition trim (s : string) : string := trimEnd (trimStart s).

(** A string is falsy exactly when it is empty. *)
Definition truthy (s : string) : bool :=
  match s with EmptyString => false | String _ _ => true end.

Definition hasChar (c : ascii) (s : string) : bool :=
  includes s (String c EmptyString).

(** [s.replace(/<[^>]*>/g, "")].  Outside a tag, a "<" opens a match only
    when some ">" follows (the match then runs to the first one, since
    [[^>]*] cannot cross it); otherwise the "<" is an ordinary character.
    [inTag] records that the scan is inside a match. *)
Fixpoint stripFrom (inTag : bool) (s : string) : string :=
  match s with
  | EmptyString => EmptyString
  | String c r =>
      if inTag then
        (if Ascii.eqb c ">" then stripFrom false r else stripFrom true r)
      else if Ascii.eqb c "<" && hasChar ">" r then stripFrom true r
      else String c (stripFrom false r)
  end.

Definition stripTags (s : string) : string := stripFrom false s.

(** [s.substring(0, n)] *)
Definition substring0 (n : nat) (s : string) : string := String.substring 0 n s.

(** [a.join(sep)] *)
Fixpoint join (sep : string) (l : list string) : string :=
  match l with
  | [] => ""
  | [x] => x
  | x :: r => x +:+ sep +:+ join sep r
  end.

End JsString.

(** ** The note store ([store/useNotesStore.ts]) *)

Module Message.
Inductive Sender : Type := user | ai.

Record t : Type := mk {
  id : string;
  content : string;
  sender : Sender;
  timestamp : Z
}.

(** [Omit<Message, "id" | "timestamp">] *)
Record draft : Type := mkDraft {
  draft_content : string;
  draft_sender : Sender
}.
End Message.

Module Note.
Record t : Type := mk {
  id : string;
  title : string;
  content : string;
  chatHistory : list Message.t;
  lastUpdated : Z
}.

(** [Partial<Omit<Note, "id">>]: every field may be absent ([None]).  A
    field that is present holds a value; a field written out as [undefined]
    is not modelled. *)
Record partial : Type := mkPartial {
  p_title : option string;
  p_content : option string;
  p_chatHistory : option (list Message.t);
  p_lastUpdated : option Z
}.

(** The object spread [{ ...note, ...data, lastUpdated: now }]. *)
Definition spread (note : t) (data : partial) (now : Z) : t :=
  {| id := id note;
     title := default (title note) (p_title data);
     content := default (content note) (p_content data);
     chatHistory := default (chatHistory note) (p_chatHistory data);
     lastUpdated := now |}.

(** The object literal [{ title, content }]. *)
Definition titleAndContent (title content : string) : partial :=
  {| p_title := Some title; p_content := Some content;
     p_chatHistory := None; p_lastUpdated := None |}.
End Note.

Module Store.

Record NotesState : Type := mkState {
  notes : list Note.t;
  activeNoteId : option string
}.

Definition with_notes (l : list Note.t) (state : NotesState) : NotesState :=
  {| notes := l; activeNoteId := activeNoteId state |}.

Definition with_activeNoteId (a : option string) (state : NotesState) : NotesState :=
  {| notes := notes state; activeNoteId := a |}.

(** *** The store monad: [get()] and [set(recipe)] *)

Definition M (A : Type) : Type := NotesState -> A * NotesState.

Definition ret {A} (a : A) : M A := fun s => (a, s).

Definition bind {A B} (m : M A) (k : A -> M B) : M B :=
  fun s => let (a, s') := m s in k a s'.

Definition get : M NotesState := fun s => (s, s).

Definition set (recipe : NotesState -> NotesState) : M unit :=
  fun s => (tt, recipe s).

Notation "'let!' x ':=' m 'in' k" := (bind m (fun x => k))
  (at level 10, x name, m at level 100, k at level 200).
Notation "'do!' m 'in' k" := (bind m (fun _ => k))
  (at level 10, m at level 100, k at level 200).

Definition result {A} (m : M A) (s : NotesState) : A := fst (m s).
Definition exec {A} (m : M A) (s : NotesState) : NotesState := snd (m s).

(** *** Array helpers *)

(** [l.find(p)]; [None] is [undefined]. *)
Definition find {A} (P : A -> Prop) `{!forall x, Decision (P x)} (l : list A) : option A :=
  snd <$> list_find P l.

(** [l.findIndex(p)]; [None] is [-1]. *)
Definition findIndex {A} (P : A -> Prop) `{!forall x, Decision (P x)} (l : list A) : option nat :=
  fst <$> list_find P l.

(** [title || "Untitled Note"] *)
Definition orDefault (o : option string) (d : string) : string :=
  match o with
  | Some s => if JsString.truthy s then s else d
  | None => d
  end.

(** *** Seed *)

Definition createDefaultNotes (id1 id2 : string) (now1 now2 : Z) : list Note.t :=
  [ {| Note.id := id1;
       Note.title := "Welcome to Notes Editor";
       Note.content := "<h1>Welcome to the Notes Editor</h1><p>This is your first note. You can edit it or create a new one.</p><ul><li>Click the edit button to start editing</li><li>Use the AI button to chat with AI</li></ul>";
       Note.chatHistory := [];
       Note.lastUpdated := now1 |};
    {| Note.id := id2;
       Note.title := "Getting Started with TipTap";
       Note.content := "<h1>TipTap Editor</h1><p>This editor supports rich text formatting:</p><h2>Headings</h2><h3>Subheadings</h3><ul><li>Bullet lists</li><li>With multiple items</li></ul><ol><li>Numbered lists</li><li>Work too!</li></ol>";
       Note.chatHistory := [];
       Note.lastUpdated := (now2 - 1000 * 60 * 5)%Z |} ].

(** The readings of [generateId()] and [Date.now()] made while the store
    object is built, in evaluation order: [notes: createDefaultNotes()]
    draws [id1 id2], then [activeNoteId: createDefaultNotes()[0].id] calls
    [createDefaultNotes] a second time and draws [id3 id4]. *)
Record Seed : Type := mkSeed {
  id1 : string; id2 : string; id3 : string; id4 : string;
  now1 : Z; now2 : Z; now3 : Z; now4 : Z
}.

Definition initialState (r : Seed) : NotesState :=
  {| notes := createDefaultNotes (id1 r) (id2 r) (now1 r) (now2 r);
     activeNoteId :=
       Note.id <$> (createDefaultNotes (id3 r) (id4 r) (now3 r) (now4 r) !! 0%nat) |}.

(** *** Selectors *)

Definition getActiveNote : M (option Note.t) :=
  let! s := get in
  ret (find (fun note => Some (Note.id note) = activeNoteId s) (notes s)).

Definition getNoteById (id : string) : M (option Note.t) :=
  let! s := get in
  ret (find (fun note => Note.id note = id) (notes s)).

(** The predicate of [notes.filter] in [getFilteredNotes]. *)
Definition matchesSearch (lowerCaseSearchTerm : string) (note : Note.t) : bool :=
  JsString.includes (JsString.toLowerCase (Note.title note)) lowerCaseSearchTerm
  || JsString.includes
       (JsString.toLowerCase (JsString.stripTags (Note.content note)))
       lowerCaseSearchTerm.

Definition getFilteredNotes (searchTerm : string) : M (list Note.t) :=
  let! s := get in
  if negb (JsString.truthy (JsString.trim searchTerm)) then ret (notes s)
  else
    let lowerCaseSearchTerm := JsString.toLowerCase searchTerm in
    ret (List.filter (matchesSearch lowerCaseSearchTerm) (notes s)).

Definition getTotalNoteCount : M nat :=
  let! s := get in
  ret (length (notes s)).

(** *** Actions *)

Definition addNote (title : option string) (generatedId : string) (now : Z) : M string :=
  let newNote :=
    {| Note.id := generatedId;
       Note.title := orDefault title "Untitled Note";
       Note.content := "<p></p>";
       Note.chatHistory := [];
       Note.lastUpdated := now |} in
  do! set (fun state =>
         let state := with_notes (notes state ++ [newNote]) state in
         with_activeNoteId (Some (Note.id newNote)) state)
  in
  ret (Note.id newNote).

(** The guard of [updateNote]:
    [(data.title && data.title !== note.title) ||
     (data.content && data.content !== note.content) || data.chatHistory]. *)
Definition differs (provided : option string) (current : string) : bool :=
  match provided with
  | Some v => JsString.truthy v && negb (String.eqb v current)
  | None => false
  end.

Definition hasChanged (data : Note.partial) (note : Note.t) : bool :=
  differs (Note.p_title data) (Note.title note)
  || differs (Note.p_content data) (Note.content note)
  || bool_decide (is_Some (Note.p_chatHistory data)).

Definition updateNote (id : string) (data : Note.partial) (now : Z) : M unit :=
  set (fun state =>
         match findIndex (fun note => Note.id note = id) (notes state) with
         | Some noteIndex =>
             match notes state !! noteIndex with
             | Some note =>
                 if hasChanged data note
                 then with_notes (<[noteIndex := Note.spread note data now]> (notes state)) state
                 else state
             | None => state
             end
         | None => state
         end).

Definition deleteNote (id : string) : M unit :=
  let! s := get in
  let activeNoteId0 := activeNoteId s in
  set (fun state =>
         let state :=
           with_notes (List.filter (fun note => negb (String.eqb (Note.id note) id)) (notes state))
                      state in
         if bool_decide (activeNoteId0 = Some id) && (0 <? length (notes state))%nat
         then with_activeNoteId (Note.id <$> (notes state !! 0%nat)) state
         else if (length (notes state) =? 0)%nat
              then with_activeNoteId None state
              else state).

Definition setActiveNote (id : string) : M unit :=
  set (fun state => with_activeNoteId (Some id) state).

Definition addMessage (noteId : string) (message : Message.draft)
    (generatedId : string) (now newNow : Z) : M unit :=
  let newMessage :=
    {| Message.id := generatedId;
       Message.content := Message.draft_content message;
       Message.sender := Message.draft_sender message;
       Message.timestamp := now |} in
  set (fun state =>
         match findIndex (fun note => Note.id note = noteId) (notes state) with
         | Some noteIndex =>
             with_notes
               (alter (fun note =>
                         {| Note.id := Note.id note;
                            Note.title := Note.title note;
                            Note.content := Note.content note;
                            Note.chatHistory := Note.chatHistory note ++ [newMessage];
                            Note.lastUpdated := newNow |})
                      noteIndex (notes state))
               state
         | None => state
         end).

(** *** Runs of the two list-changing actions *)

Inductive Call : Type :=
| CallAddNote (title : option string) (generatedId : string) (now : Z)
| CallDeleteNote (id : string).

Definition call (state : NotesState) (c : Call) : NotesState :=
  match c with
  | CallAddNote title generatedId now => exec (addNote title generatedId now) state
  | CallDeleteNote id => exec (deleteNote id) state
  end.

Definition calls (cs : list Call) (state : NotesState) : NotesState :=
  fold_left call cs state.

(** The invariant the specification puts on [activeNoteId]: null exactly
    when there is no note, and otherwise the id of a note of [notes]. *)
Definition activeValid (state : NotesState) : Prop :=
  match activeNoteId state with
  | None => notes state = []
  | Some a => exists note, note ∈ notes state /\ Note.id note = a
  end.

Definition activeValidb (state : NotesState) : bool :=
  match activeNoteId state with
  | None => bool_decide (length (notes state) = 0%nat)
  | Some a => existsb (fun note => String.eqb (Note.id note) a) (notes state)
  end.

End Store.

(** ** The response matcher ([generateIntelligentResponse] in [components/Chat.tsx]) *)

Module Chat.
Import JsString.

(** The line feed written [\n] in the source's string literals. *)
Definition nl : string := String (ascii_of_nat 10) EmptyString.

(** One reading of [Math.random()]: a rational [num / den] of [[0, 1)].
    The product with the length is taken exactly, where the code rounds it
    to a double before it takes the floor: for a reading within half a unit
    in the last place below a multiple of [1 / n] the code draws the next
    index.  The index is below the length either way and every index is
    drawn by some reading; nothing below depends on which reading draws
    which index. *)
Record Random : Type := mkRandom {
  num : nat;
  den : nat;
  in_range : (num <? den)%nat = true
}.

(** [Math.floor(Math.random() * n)] *)
Definition randomIndex (rnd : Random) (n : nat) : nat := (num rnd * n) / den rnd.

(** [arr.includes(x)] on an array of strings *)
Definition arrayIncludes (arr : list string) (x : string) : bool :=
  bool_decide (x ∈ arr).

Definition NOTE_TOPICS : list string :=
  [ "formatting";
    "headings";
    "bold";
    "italic";
    "lists";
    "bullet points";
    "markdown";
    "save";
    "autosave";
    "keyboard shortcuts";
    "dark mode";
    "images";
    "links";
    "organize";
    "delete" ].

Definition WRITING_TIPS : list string :=
  [ "Use headings to create a clear structure in your notes";
    "Break down complex ideas into bullet points for easier comprehension";
    "Highlight key concepts or terms using bold or italic formatting";
    "Use numbered lists for step-by-step processes or sequences";
    "Keep paragraphs short and focused on a single idea";
    "Add links to external resources for deeper research";
    "Use consistent formatting for similar types of information";
    "Include images or diagrams to visualize complex concepts";
    "Use markdown for code snippets or technical content";
    "Review and reorganize your notes periodically for better clarity" ].

Record Technique : Type := mkTechnique { name : string; description : string }.

Definition PRODUCTIVITY_TECHNIQUES : list Technique :=
  [ {| name := "Pomodoro Technique";
       description := "Work for 25 minutes, then take a 5-minute break. After 4 cycles, take a longer 15-30 minute break." |};
    {| name := "Cornell Note-Taking Method";
       description := "Divide your page into sections: notes, cues, and summary. Take notes during class, add cues later, and write a summary at the bottom." |};
    {| name := "Mind Mapping";
       description := "Create visual diagrams to connect related concepts. Start with a central idea and branch out with related thoughts." |};
    {| name := "Spaced Repetition";
       description := "Review material at increasing intervals to enhance long-term retention." |};
    {| name := "Feynman Technique";
       description := "Explain a concept in simple terms as if teaching it to someone else. This helps identify gaps in your understanding." |} ].

(** [arr[Math.floor(Math.random() * arr.length)]]; the index is below
    [arr.length] for every reading of [Math.random()], so the default is
    never returned on a non-empty array. *)
Definition randomEntry {A} (rnd : Random) (arr : list A) (d : A) : A :=
  List.nth (randomIndex rnd (length arr)) arr d.

(** *** The fixed replies

    The bullet character of some replies lies outside the code units the
    strings are read as; it is kept as the bytes of the source file.  No
    rule looks into a reply. *)

Definition markdownNotice : string :=
  "I noticed you mentioned markdown. This editor supports Markdown view which you can toggle with Ctrl+M. Would you like to know more about using markdown in your notes?".

Definition shortcutsNotice : string :=
  "I noticed you mentioned keyboard shortcuts. This editor supports various shortcuts like Ctrl+B for bold, Ctrl+I for italic, and Ctrl+M for markdown view. Would you like to know more?".

Definition greetingReply : string :=
  "Hello! How can I assist you with your notes today?".

Definition gratitudeReply : string :=
  "You're welcome! I'm happy to help. Is there anything else you'd like to know?".

Definition formattingAnswer : string :=
  "You can format text using the toolbar above the editor. For bold text, select the text and click the B button or use Ctrl+B. For italic, use the I button or Ctrl+I. For underline, use the U button or Ctrl+U.".

Definition headingsAnswer : string :=
  "To add headings, click on H1, H2, or H3 in the toolbar depending on the heading level you need. H1 is the largest heading, while H3 is the smallest.".

Definition listsAnswer : string :=
  "You can create lists using the toolbar. Click the bullet list icon for unordered lists or the numbered list icon for ordered lists. You can also start a line with '- ' or '1. ' to automatically create a list.".

Definition savingAnswer : string :=
  "All your notes are automatically saved as you type. You don't need to manually save anything! If you want to force a save, you can use the Ctrl+S keyboard shortcut.".

Definition shortcutsAnswer : string :=
  "Here are some useful keyboard shortcuts:" +:+ nl +:+ "• Ctrl+S: Force save the current note" +:+ nl +:+ "• Ctrl+M: Toggle Markdown view" +:+ nl +:+ "• Ctrl+/: Toggle this AI chat assistant" +:+ nl +:+ "• Ctrl+B: Bold text" +:+ nl +:+ "• Ctrl+I: Italic text" +:+ nl +:+ "• Ctrl+U: Underline text".

Definition themeAnswer : string :=
  "You can toggle between dark and light mode by clicking the theme toggle button in the top-right corner of the editor. Your preference will be saved for future sessions.".

Definition linksAnswer : string :=
  "To add a link, select the text you want to link and click the link icon in the toolbar, then enter the URL. To add an image, click the image icon and enter the image URL.".

Definition markdownAnswer : string :=
  "This editor supports Markdown view. You can toggle between rich text and Markdown view by clicking the 'View as Markdown' button in the top bar or using the Ctrl+M keyboard shortcut.".

Definition featuresAnswer : string :=
  "This notes app offers rich text editing with formatting, headings, lists, links, and images. Features include:" +:+ nl +:+ "• Dark/light mode" +:+ nl +:+ "• Markdown support" +:+ nl +:+ "• Auto-saving" +:+ nl +:+ "• AI assistant (that's me!)" +:+ nl +:+ "• Keyboard shortcuts" +:+ nl +:+ nl +:+ "What specific feature would you like to know more about?".

Definition meetingTemplate : string :=
  "For meeting notes, try this structure:" +:+ nl +:+ nl +:+ "**Meeting Title**" +:+ nl +:+ "Date: [Date]" +:+ nl +:+ "Participants: [Names]" +:+ nl +:+ nl +:+ "**Agenda**" +:+ nl +:+ "1. [Item 1]" +:+ nl +:+ "2. [Item 2]" +:+ nl +:+ nl +:+ "**Discussion Points**" +:+ nl +:+ "- Key point 1" +:+ nl +:+ "- Key point 2" +:+ nl +:+ nl +:+ "**Action Items**" +:+ nl +:+ "- [ ] Task 1 (Owner, Due Date)" +:+ nl +:+ "- [ ] Task 2 (Owner, Due Date)" +:+ nl +:+ nl +:+ "**Next Steps**" +:+ nl +:+ "[Future plans or follow-up]".

Definition lectureTemplate : string :=
  "For lecture notes, try the Cornell method:" +:+ nl +:+ nl +:+ "**Topic: [Subject]**" +:+ nl +:+ "Date: [Date]" +:+ nl +:+ nl +:+ "**Main Notes Section:**" +:+ nl +:+ "- Key point 1 with details" +:+ nl +:+ "- Key point 2 with details" +:+ nl +:+ nl +:+ "**Cue Column (add after class):**" +:+ nl +:+ "- Questions about the material" +:+ nl +:+ "- Keywords and concepts" +:+ nl +:+ nl +:+ "**Summary (add after class):**" +:+ nl +:+ "Brief paragraph summarizing the key concepts".

Definition projectTemplate : string :=
  "For project planning notes, try this structure:" +:+ nl +:+ nl +:+ "**Project Title**" +:+ nl +:+ nl +:+ "**Objective:**" +:+ nl +:+ "[Clear statement of what the project aims to achieve]" +:+ nl +:+ nl +:+ "**Key Deliverables:**" +:+ nl +:+ "1. [Deliverable 1]" +:+ nl +:+ "2. [Deliverable 2]" +:+ nl +:+ nl +:+ "**Timeline:**" +:+ nl +:+ "- Phase 1: [Dates]" +:+ nl +:+ "- Phase 2: [Dates]" +:+ nl +:+ nl +:+ "**Resources Needed:**" +:+ nl +:+ "- [Resource 1]" +:+ nl +:+ "- [Resource 2]" +:+ nl +:+ nl +:+ "**Team Members:**" +:+ nl +:+ "- [Name] - [Role]" +:+ nl +:+ "- [Name] - [Role]" +:+ nl +:+ nl +:+ "**Notes:**" +:+ nl +:+ "[Additional information]".

Definition journalTemplate : string :=
  "For a daily journal entry, try this format:" +:+ nl +:+ nl +:+ "**Date: [Date]**" +:+ nl +:+ nl +:+ "**Today's Focus:**" +:+ nl +:+ "[Main priorities or theme for the day]" +:+ nl +:+ nl +:+ "**Accomplishments:**" +:+ nl +:+ "- [What you completed]" +:+ nl +:+ "- [Progress made]" +:+ nl +:+ nl +:+ "**Challenges:**" +:+ nl +:+ "- [Obstacles encountered]" +:+ nl +:+ "- [Problems to solve]" +:+ nl +:+ nl +:+ "**Insights:**" +:+ nl +:+ "[What you learned]" +:+ nl +:+ nl +:+ "**Tomorrow's Plan:**" +:+ nl +:+ "- [Task 1]" +:+ nl +:+ "- [Task 2]".

Definition templateMenu : string :=
  "I can suggest note templates for different purposes. Would you like a template for:" +:+ nl +:+ "• Meeting notes" +:+ nl +:+ "• Lecture notes" +:+ nl +:+ "• Project planning" +:+ nl +:+ "• Daily journal" +:+ nl +:+ "• Research notes" +:+ nl +:+ nl +:+ "Just ask for any of these specific templates!".

Definition helpReply : string :=
  "I can help you with formatting, organization, and using features of this notes app. Ask me specific questions like 'How do I create headings?' or 'What keyboard shortcuts are available?' or 'Do you have a template for meeting notes?'".

Definition organizeAdvice : string :=
  "To better organize your notes, consider using headings (H1, H2, H3) to create a clear hierarchy. You can also use bullet points for key ideas and numbered lists for sequential information or steps.".

Definition writingAdvice : string :=
  "For better writing, try to use clear headings and short paragraphs. The editor supports formatting that can help emphasize important points using bold or italic text. Would you like specific suggestions for improving your current note?".

Definition formattingNotice (detectedTopics : list string) : string :=
  "I see you're interested in " +:+ join ", " detectedTopics +:+
  ". You can access these formatting options in the toolbar above the editor. Would you like specific instructions?".

Definition writingTipAnswer (randomTip : string) : string :=
  "Here's a writing tip: " +:+ randomTip +:+
  ". Would you like another tip or more specific advice about a particular aspect of note-taking?".

Definition techniqueAnswer (technique : Technique) : string :=
  "You might want to try the **" +:+ name technique +:+ "**: " +:+ description technique +:+
  " Would you like to hear about other productivity techniques?".

Definition focusAdvice (technique : Technique) : string :=
  "For better focus when taking notes, you might try the " +:+ name technique +:+ ": " +:+
  description technique.

Definition thoughtfulResponses (query : string) : list string :=
  [ "That's an interesting question. To help you better with your notes, could you provide more specific details about what you're trying to accomplish?";
    "I understand you're asking about " +:+
      substring0 30 query +:+
      "... Could you tell me more about what you're trying to achieve so I can provide more targeted assistance?";
    "I'd be happy to help with that. Could you share a bit more about the specific challenge you're facing with your notes?";
    "Great question! The editor supports many features that might help with this. What specific outcome are you looking for?";
    "I can definitely help with that. Let me know if you'd like me to explain any particular feature in more detail." ].

(** *** The rules, in the order of the source

    Each rule is the block of the function that may [return]: [Some r] when
    it returns [r], [None] when control falls through to the next block. *)

Definition anyIncluded (s : string) (keywords : list string) : bool :=
  existsb (includes s) keywords.

Definition detectTopics (queryLower : string) : list string :=
  List.filter (fun topic => includes queryLower (toLowerCase topic)) NOTE_TOPICS.

Definition topicRule (queryLower : string) : option string :=
  let detectedTopics := detectTopics queryLower in
  if (0 <? length detectedTopics)%nat
     && negb (includes queryLower "?")
     && negb (includes queryLower "how")
     && negb (includes queryLower "what")
  then
    if arrayIncludes detectedTopics "markdown" then Some markdownNotice
    else if arrayIncludes detectedTopics "keyboard shortcuts" then Some shortcutsNotice
    else if existsb (fun topic => arrayIncludes ["formatting"; "bold"; "italic"; "lists"] topic)
                    detectedTopics
    then Some (formattingNotice detectedTopics)
    else None
  else None.

(** [queryLower.match(/^(hi|hello|hey|greetings).*/)] *)
Definition greetingRule (queryLower : string) : option string :=
  if existsb (startsWith queryLower) ["hi"; "hello"; "hey"; "greetings"]
  then Some greetingReply else None.

(** [queryLower.match(/(thank|thanks|thank you|appreciate it|grateful).*/)] *)
Definition gratitudeRule (queryLower : string) : option string :=
  if anyIncluded queryLower ["thank"; "thanks"; "thank you"; "appreciate it"; "grateful"]
  then Some gratitudeReply else None.

Definition questionRule (queryLower : string) (rnd : Random) : option string :=
  if includes queryLower "how" || includes queryLower "what" || includes queryLower "?"
  then
    if anyIncluded queryLower ["format"; "bold"; "italic"; "underline"]
    then Some formattingAnswer
    else if includes queryLower "heading" || includes queryLower "title"
            || anyIncluded queryLower ["h1"; "h2"; "h3"]
    then Some headingsAnswer
    else if anyIncluded queryLower ["list"; "bullet"; "numbered"]
    then Some listsAnswer
    else if anyIncluded queryLower ["save"; "autosave"]
    then Some savingAnswer
    else if anyIncluded queryLower ["shortcut"; "keyboard"]
    then Some shortcutsAnswer
    else if anyIncluded queryLower ["dark"; "light"; "theme"; "mode"]
    then Some themeAnswer
    else if anyIncluded queryLower ["link"; "url"; "image"; "picture"; "photo"]
    then Some linksAnswer
    else if includes queryLower "markdown"
    then Some markdownAnswer
    else if anyIncluded queryLower ["writing"; "tip"; "advice"; "improve"; "better"]
    then Some (writingTipAnswer (randomEntry rnd WRITING_TIPS ""))
    else if anyIncluded queryLower
              ["study"; "technique"; "method"; "productivity"; "focus"; "concentrate"]
    then Some (techniqueAnswer (randomEntry rnd PRODUCTIVITY_TECHNIQUES (mkTechnique "" "")))
    else if anyIncluded queryLower ["feature"; "do"; "can"]
    then Some featuresAnswer
    else None
  else None.

Definition templateRule (queryLower : string) : option string :=
  if anyIncluded queryLower ["template"; "type of note"; "structure"; "format for"]
  then
    if anyIncluded queryLower ["meeting"; "minutes"] then Some meetingTemplate
    else if anyIncluded queryLower ["lecture"; "class"; "course"] then Some lectureTemplate
    else if anyIncluded queryLower ["project"; "plan"] then Some projectTemplate
    else if anyIncluded queryLower ["daily"; "journal"; "diary"] then Some journalTemplate
    else Some templateMenu
  else None.

Definition helpRule (queryLower : string) : option string :=
  if anyIncluded queryLower ["help"; "assist"] then Some helpReply else None.

Definition contextRule (context : list string) (rnd : Random) : option string :=
  if (0 <? length context)%nat
  then
    let recentContext := toLowerCase (join " " context) in
    if anyIncluded recentContext ["organize"; "structure"; "arrange"]
    then Some organizeAdvice
    else if anyIncluded recentContext ["write"; "writing"; "improve"; "better"]
    then Some writingAdvice
    else if anyIncluded recentContext ["focus"; "concentrate"; "productive"; "distract"]
    then Some (focusAdvice (randomEntry rnd PRODUCTIVITY_TECHNIQUES (mkTechnique "" "")))
    else None
  else None.

Definition fallback (query : string) (rnd : Random) : string :=
  randomEntry rnd (thoughtfulResponses query) "".

(** The first block that returns decides. *)
Fixpoint firstReturn (blocks : list (option string)) (otherwise : string) : string :=
  match blocks with
  | [] => otherwise
  | Some r :: _ => r
  | None :: rest => firstReturn rest otherwise
  end.

Definition generateIntelligentResponse
    (query : string) (context : list string) (rnd : Random) : string :=
  let queryLower := toLowerCase query in
  firstReturn
    [ topicRule queryLower;
      greetingRule queryLower;
      gratitudeRule queryLower;
      questionRule queryLower rnd;
      templateRule queryLower;
      helpRule queryLower;
      contextRule context rnd ]
    (fallback query rnd).

End Chat.

(** ** The autosave coordinator (the component [Note] of [components/Note.tsx])

    The component is a function React calls to render; what is modelled of
    React and of the browser is this.
    - A render reads the hook state and [getActiveNote()] of the moment; the
      handlers and effects it creates see those values ([Render]).
    - After a render React runs, of the effects whose dependency array
      differs from the one of the previous render, first the cleanups and then
      the bodies, in the order of the source.  Dependencies are compared by
      value, where React compares the active note by identity.  The two
      agree as long as a write to a note changes its value: immer keeps the
      object of a note that no action writes.  A write that stores an equal
      value, which [updateNote] makes only for a [chatHistory] provided at
      the very reading of [Date.now()] that [lastUpdated] holds, re-runs the
      autosave effect in the component and not in the model: the component
      then restarts a pending debounce where the model keeps its timer.
      What is stated below of a store change that keeps the active note is
      stated for the changes that do not write it.
    - State updates made by handlers and effects are batched and cause a new
      render, until a render changes nothing; all of it happens before the
      next event or timer.
    - [setTimeout] registers a one-shot timer under a fresh handle;
      [clearTimeout] removes the timer of that handle if it is still pending;
      a pending timer fires when the clock reaches its time. *)

Module Autosave.
Import Store.

Global Instance Sender_eq_dec : EqDecision Message.Sender.
Proof. solve_decision. Defined.
Global Instance Message_eq_dec : EqDecision Message.t.
Proof. solve_decision. Defined.
Global Instance Note_eq_dec : EqDecision Note.t.
Proof. solve_decision. Defined.

Inductive SaveStatus : Type := saved | saving.

(** What a render makes visible to the closures it creates. *)
Record Render : Type := mkRender {
  r_activeNote : option Note.t;
  r_content : string;
  r_title : string;
  r_isEdited : bool
}.

Global Instance Render_eq_dec : EqDecision Render.
Proof. solve_decision. Defined.

(** A pending [setTimeout(() => { handleSave(); }, 1000)]: the callback is
    the [handleSave] of the render that armed it. *)
Record Timer : Type := mkTimer {
  handle : nat;
  fireAt : Z;
  callback : Render
}.

(** A call [updateNote(id, { title, content })] made by [handleSave]. *)
Record Commit : Type := mkCommit {
  commit_time : Z;
  commit_id : string;
  commit_title : string;
  commit_content : string
}.

Record View : Type := mkView {
  store : NotesState;
  (* useState *)
  content : string;
  title : string;
  isEdited : bool;
  saveStatus : option SaveStatus;
  (* useRef *)
  saveTimeoutRef : option nat;
  (* dependency arrays of the previous render; [None] before the first *)
  initDeps : option (option string);
  autosaveDeps : option Render;
  (* the browser *)
  timers : list Timer;
  nextHandle : nat;
  clock : Z;
  (* the calls of [updateNote] made so far *)
  commits : list Commit
}.

Definition with_store (x : NotesState) (v : View) : View :=
  mkView x (content v) (title v) (isEdited v) (saveStatus v) (saveTimeoutRef v)
         (initDeps v) (autosaveDeps v) (timers v) (nextHandle v) (clock v) (commits v).
Definition setContent (x : string) (v : View) : View :=
  mkView (store v) x (title v) (isEdited v) (saveStatus v) (saveTimeoutRef v)
         (initDeps v) (autosaveDeps v) (timers v) (nextHandle v) (clock v) (commits v).
Definition setTitle (x : string) (v : View) : View :=
  mkView (store v) (content v) x (isEdited v) (saveStatus v) (saveTimeoutRef v)
         (initDeps v) (autosaveDeps v) (timers v) (nextHandle v) (clock v) (commits v).
Definition setIsEdited (x : bool) (v : View) : View :=
  mkView (store v) (content v) (title v) x (saveStatus v) (saveTimeoutRef v)
         (initDeps v) (autosaveDeps v) (timers v) (nextHandle v) (clock v) (commits v).
Definition setSaveStatus (x : option SaveStatus) (v : View) : View :=
  mkView (store v) (content v) (title v) (isEdited v) x (saveTimeoutRef v)
         (initDeps v) (autosaveDeps v) (timers v) (nextHandle v) (clock v) (commits v).
Definition with_saveTimeoutRef (x : option nat) (v : View) : View :=
  mkView (store v) (content v) (title v) (isEdited v) (saveStatus v) x
         (initDeps v) (autosaveDeps v) (timers v) (nextHandle v) (clock v) (commits v).
Definition with_deps (a : option (option string)) (b : option Render) (v : View) : View :=
  mkView (store v) (content v) (title v) (isEdited v) (saveStatus v) (saveTimeoutRef v)
         a b (timers v) (nextHandle v) (clock v) (commits v).
Definition with_timers (x : list Timer) (v : View) : View :=
  mkView (store v) (content v) (title v) (isEdited v) (saveStatus v) (saveTimeoutRef v)
         (initDeps v) (autosaveDeps v) x (nextHandle v) (clock v) (commits v).
Definition with_nextHandle (x : nat) (v : View) : View :=
  mkView (store v) (content v) (title v) (isEdited v) (saveStatus v) (saveTimeoutRef v)
         (initDeps v) (autosaveDeps v) (timers v) x (clock v) (commits v).
Definition with_clock (x : Z) (v : View) : View :=
  mkView (store v) (content v) (title v) (isEdited v) (saveStatus v) (saveTimeoutRef v)
         (initDeps v) (autosaveDeps v) (timers v) (nextHandle v) x (commits v).
Definition with_commits (x : list Commit) (v : View) : View :=
  mkView (store v) (content v) (title v) (isEdited v) (saveStatus v) (saveTimeoutRef v)
         (initDeps v) (autosaveDeps v) (timers v) (nextHandle v) (clock v) x.

(** *** The browser's timers *)

Definition clearTimeout (h : nat) (v : View) : View :=
  with_timers (List.filter (fun t => negb (handle t =? h)%nat) (timers v)) v.

Definition setTimeout (cb : Render) (delay : Z) (v : View) : nat * View :=
  let h := nextHandle v in
  (h, with_nextHandle (S h)
        (with_timers (timers v ++ [mkTimer h (clock v + delay) cb]) v)).

(** *** The component *)

(** [const activeNote = getActiveNote();] and the state of the render. *)
Definition render (v : View) : Render :=
  {| r_activeNote := result getActiveNote (store v);
     r_content := content v;
     r_title := title v;
     r_isEdited := isEdited v |}.

Definition handleTitleChange (value : string) (v : View) : View :=
  setIsEdited true (setTitle value v).

Definition handleContentChange (newContent : string) (v : View) : View :=
  setIsEdited true (setContent newContent v).

(** [handleSave] as the render [r] created it; [Date.now()] inside
    [updateNote] reads the clock. *)
Definition handleSave (r : Render) (v : View) : View :=
  match r_activeNote r with
  | Some activeNote =>
      let data := Note.titleAndContent (r_title r) (r_content r) in
      let v := with_store (exec (updateNote (Note.id activeNote) data (clock v)) (store v)) v in
      let v := with_commits
                 (commits v ++ [mkCommit (clock v) (Note.id activeNote) (r_title r) (r_content r)])
                 v in
      let v := setIsEdited false v in
      setSaveStatus (Some saved) v
  | None => v
  end.

(** The effect on [[activeNote?.id]]. *)
Definition initEffect (r : Render) (v : View) : View :=
  match r_activeNote r with
  | Some activeNote =>
      let v := setContent (Note.content activeNote) v in
      let v := setTitle (Note.title activeNote) v in
      let v := setIsEdited false v in
      setSaveStatus (Some saved) v
  | None => v
  end.

(** [if (saveTimeoutRef.current) clearTimeout(saveTimeoutRef.current);] *)
Definition clearSaveTimeout (v : View) : View :=
  match saveTimeoutRef v with
  | Some h => clearTimeout h v
  | None => v
  end.

(** The autosave effect on [[content, title, isEdited, activeNote]]: its
    body, and the cleanup it returns. *)
Definition autosaveEffect (r : Render) (v : View) : View :=
  if r_isEdited r && bool_decide (is_Some (r_activeNote r))
  then
    let v := clearSaveTimeout v in
    let v := setSaveStatus (Some saving) v in
    let (h, v) := setTimeout r 1000 v in
    with_saveTimeoutRef (Some h) v
  else v.

Definition autosaveCleanup (v : View) : View := clearSaveTimeout v.

(** *** React: one render and the effects it triggers *)

Definition commitEffects (v : View) : View :=
  let r := render v in
  let initDeps' := Note.id <$> r_activeNote r in
  let runInit := bool_decide (initDeps v <> Some initDeps') in
  let runAutosave := bool_decide (autosaveDeps v <> Some r) in
  (* cleanups of the effects that run again *)
  let v := if runAutosave && bool_decide (is_Some (autosaveDeps v))
           then autosaveCleanup v else v in
  (* bodies, in the order of the source *)
  let v := if runInit then initEffect r v else v in
  let v := if runAutosave then autosaveEffect r v else v in
  with_deps (Some initDeps') (Some r) v.

(** Render again while the last render changed what a render reads. *)
Fixpoint rerender (fuel : nat) (v : View) : View :=
  match fuel with
  | O => v
  | S fuel =>
      let v' := commitEffects v in
      if bool_decide (render v' = render v) then v' else rerender fuel v'
  end.

(** Three renders are enough after every event and at mount: more fuel
    gives the same view ([update_enough], [mount_enough]). *)
Definition update (v : View) : View := rerender 3 v.

(** *** Events *)

Inductive Event : Type :=
| TitleChange (value : string)
| ContentChange (newContent : string)
| StoreChange (action : Store.M unit)
| Elapse (ms : N).

(** The pending timer that fires first among those due by [deadline]. *)
Fixpoint earliest (deadline : Z) (ts : list Timer) : option Timer :=
  match ts with
  | [] => None
  | t :: rest =>
      match earliest deadline rest with
      | Some t' => if (fireAt t <=? deadline)%Z && (fireAt t <=? fireAt t')%Z
                   then Some t else Some t'
      | None => if (fireAt t <=? deadline)%Z then Some t else None
      end
  end.

Definition fire (t : Timer) (v : View) : View :=
  let v := clearTimeout (handle t) v in
  let v := with_clock (Z.max (clock v) (fireAt t)) v in
  update (handleSave (callback t) v).

Fixpoint fireDue (fuel : nat) (deadline : Z) (v : View) : View :=
  match fuel with
  | O => v
  | S fuel =>
      match earliest deadline (timers v) with
      | Some t => fireDue fuel deadline (fire t v)
      | None => v
      end
  end.

Definition elapse (ms : N) (v : View) : View :=
  let deadline := (clock v + Z.of_N ms)%Z in
  with_clock deadline (fireDue (length (timers v)) deadline v).

Definition step (v : View) (e : Event) : View :=
  match e with
  | TitleChange value => update (handleTitleChange value v)
  | ContentChange newContent => update (handleContentChange newContent v)
  | StoreChange action => update (with_store (exec action (store v)) v)
  | Elapse ms => elapse ms v
  end.

Definition run (es : list Event) (v : View) : View := fold_left step es v.

(** The component before its first render: the initial values of the
    hooks, no effect run yet, no timer. *)
Definition unmounted (s : NotesState) (now : Z) : View :=
  {| store := s; content := ""; title := ""; isEdited := false; saveStatus := None;
     saveTimeoutRef := None; initDeps := None; autosaveDeps := None;
     timers := []; nextHandle := 1; clock := now; commits := [] |}.

(** The component mounted on a store at clock [now]. *)
Definition mount (s : NotesState) (now : Z) : View := update (unmounted s now).

End Autosave.

(** ** Vocabulary of the specification, and sample data *)

Module Spec.
Import JsString Store.

(** The notes whose id is not [id], in their order. *)
Definition remaining (id : string) (l : list Note.t) : list Note.t :=
  List.filter (fun note => negb (String.eqb (Note.id note) id)) l.

(** No note of the state has the id. *)
Definition absent (id : string) (state : NotesState) : Prop :=
  forall note, note ∈ notes state -> Note.id note <> id.

(** None of the fields [data] provides differs from the note's value. *)
Definition noProvidedFieldDiffers (data : Note.partial) (note : Note.t) : Prop :=
  (forall v, Note.p_title data = Some v -> v = Note.title note) /\
  (forall v, Note.p_content data = Some v -> v = Note.content note) /\
  (forall v, Note.p_chatHistory data = Some v -> v = Note.chatHistory note).

(** The fields [data] does not provide are, in [note'], those of [note]. *)
Definition keepsUnprovided (data : Note.partial) (note note' : Note.t) : Prop :=
  Note.id note' = Note.id note /\
  (Note.p_title data = None -> Note.title note' = Note.title note) /\
  (Note.p_content data = None -> Note.content note' = Note.content note) /\
  (Note.p_chatHistory data = None -> Note.chatHistory note' = Note.chatHistory note).

(** [sub] occurs in [s]. *)
Definition occursIn (sub s : string) : Prop :=
  exists before after, s = before +:+ sub +:+ after.

(** [x] is a case-insensitive substring of [text]. *)
Definition containsIgnoringCase (text x : string) : Prop :=
  occursIn (toLowerCase x) (toLowerCase text).

(** The note matches the search term [x]. *)
Definition matchesTerm (x : string) (note : Note.t) : Prop :=
  containsIgnoringCase (Note.title note) x \/
  containsIgnoringCase (stripTags (Note.content note)) x.

(** Every character of the string is white space (so also the empty string). *)
Fixpoint whitespaceOnly (s : string) : bool :=
  match s with
  | EmptyString => true
  | String c r => isWhiteSpace c && whitespaceOnly r
  end.

(** The utterance is decided by none of the blocks that come before the
    context block and the fallback. *)
Definition noEarlierRuleMatches (query : string) : Prop :=
  let queryLower := toLowerCase query in
  Chat.topicRule queryLower = None /\
  Chat.greetingRule queryLower = None /\
  Chat.gratitudeRule queryLower = None /\
  (forall rnd, Chat.questionRule queryLower rnd = None) /\
  Chat.templateRule queryLower = None /\
  Chat.helpRule queryLower = None.
End Spec.

(** ** Vocabulary of the autosave claims *)

Module AutosaveSpec.
Import Store Autosave.

(** [t] is pending alone, under the handle the ref holds, armed by the
    current render for the current active note. *)
Definition armedBy (v : View) (t : Timer) : Prop :=
  timers v = [t] /\
  saveTimeoutRef v = Some (handle t) /\
  callback t = render v /\
  isEdited v = true /\
  is_Some (r_activeNote (render v)) /\
  (clock v < fireAt t <= clock v + 1000)%Z.

(** The state between two events: the last render is up to date, at most
    one timer is pending, and handles in use are below the next one. *)
Record settled (v : View) : Prop := mkSettled {
  settled_initDeps :
    initDeps v = Some (Note.id <$> r_activeNote (render v));
  settled_autosaveDeps : autosaveDeps v = Some (render v);
  settled_timers : timers v = [] \/ exists t, armedBy v t;
  settled_handles :
    forall h, saveTimeoutRef v = Some h -> (h < nextHandle v)%nat
}.

(** The event is an edit that changes what it edits, or the first edit
    since the last save. *)
Definition effectiveEdit (v : View) (e : Event) : Prop :=
  match e with
  | TitleChange value =>
      value <> title v \/ isEdited v = false
  | ContentChange newContent =>
      newContent <> content v \/ isEdited v = false
  | _ => False
  end.

(** The event is an edit that repeats the value of its field while edits
    are unsaved: it is no [effectiveEdit]. *)
Definition repeats (v : View) (e : Event) : Prop :=
  isEdited v = true /\
  match e with
  | TitleChange value => value = title v
  | ContentChange newContent => newContent = content v
  | _ => False
  end.

(** The commit [handleSave] makes at time [now] for the active note with
    the title and content of the view. *)
Definition commitOf (now : Z) (activeNote : Note.t) (v : View) : Commit :=
  mkCommit now (Note.id activeNote) (title v) (content v).

(** The shape of a view when an event handler has changed the state of a
    settled view and React has not rendered yet: the dependency arrays are
    those of the render [r0] before the event. *)
Record stale (r0 : Render) (v : View) : Prop := mkStale {
  stale_initDeps : initDeps v = Some (Note.id <$> r_activeNote r0);
  stale_autosaveDeps : autosaveDeps v = Some r0;
  stale_timers :
    timers v = [] \/
    exists t, timers v = [t] /\ saveTimeoutRef v = Some (handle t);
  stale_handles : forall h, saveTimeoutRef v = Some h -> (h < nextHandle v)%nat
}.

(** What one render and its effects make of a stale view. *)
Record pass (r0 : Render) (v v' : View) : Prop := mkPass {
  pass_store : store v' = store v;
  pass_commits : commits v' = commits v;
  pass_clock : clock v' = clock v;
  pass_initDeps : initDeps v' = Some (Note.id <$> r_activeNote (render v));
  pass_autosaveDeps : autosaveDeps v' = Some (render v);
  pass_handles : forall h, saveTimeoutRef v' = Some h -> (h < nextHandle v')%nat;
  pass_state :
    match r_activeNote (render v) with
    | Some n =>
        if decide (Some (Note.id n) = Note.id <$> r_activeNote r0)
        then content v' = content v /\ title v' = title v /\
             isEdited v' = isEdited v
        else content v' = Note.content n /\ title v' = Note.title n /\
             isEdited v' = false
    | None =>
        content v' = content v /\ title v' = title v /\ isEdited v' = isEdited v
    end;
  pass_timers :
    if isEdited v && bool_decide (is_Some (r_activeNote (render v)))
    then timers v' = [mkTimer (nextHandle v) (clock v + 1000) (render v)] /\
         saveTimeoutRef v' = Some (nextHandle v)
    else timers v' = []
}.

(** What the renders after an event make of the view. *)
Record updated (r0 : Render) (v v' : View) : Prop := mkUpdated {
  updated_store : store v' = store v;
  updated_commits : commits v' = commits v;
  updated_clock : clock v' = clock v;
  updated_settled : settled v';
  updated_state :
    match r_activeNote (render v) with
    | Some n =>
        if decide (Some (Note.id n) = Note.id <$> r_activeNote r0)
        then content v' = content v /\ title v' = title v /\
             isEdited v' = isEdited v /\
             if isEdited v
             then armedBy v' (mkTimer (nextHandle v) (clock v + 1000) (render v))
             else timers v' = []
        else content v' = Note.content n /\ title v' = Note.title n /\
             isEdited v' = false /\ timers v' = []
    | None =>
        content v' = content v /\ title v' = title v /\
        isEdited v' = isEdited v /\ timers v' = []
    end
}.

(** A run of edits, each after a pause: [(gap, e)] waits [gap] milliseconds
    and then makes the edit [e]. *)
Fixpoint edits (v : View) (b : list (N * Event)) : View :=
  match b with
  | [] => v
  | (gap, e) :: rest =>
      edits (step (step v (Elapse gap)) e) rest
  end.

(** Every pause of the run is shorter than the debounce interval and every
    edit changes what it edits. *)
Fixpoint quickEdits (v : View) (b : list (N * Event)) : Prop :=
  match b with
  | [] => True
  | (gap, e) :: rest =>
      (gap < 1000)%N /\
      effectiveEdit (step v (Elapse gap)) e /\
      quickEdits (step (step v (Elapse gap)) e) rest
  end.
End AutosaveSpec.

Module Sample.
Import Store.

(** Four distinct identifiers of the shape [generateId] produces. *)
Definition seed : Seed :=
  {| id1 := "k3v9x0q1z"; id2 := "p7m2c8w4d"; id3 := "t5h1n6r3b"; id4 := "j9f4s2y8g";
     now1 := 1700000000000; now2 := 1700000000000;
     now3 := 1700000000001; now4 := 1700000000001 |}.

Definition groceries : Note.t :=
  {| Note.id := "n1"; Note.title := "Groceries"; Note.content := "<p>milk</p>";
     Note.chatHistory := []; Note.lastUpdated := 1000 |}.

Definition oneNote : NotesState :=
  {| notes := [groceries]; activeNoteId := Some "n1" |}.

Definition empty : NotesState := {| notes := []; activeNoteId := None |}.

(** [updateNote("n1", { chatHistory: [] })] *)
Definition sameChatHistory : Note.partial :=
  {| Note.p_title := None; Note.p_content := None;
     Note.p_chatHistory := Some []; Note.p_lastUpdated := None |}.

(** [setActiveNote("ghost")] on a store that has no such note. *)
Definition ghostActive : NotesState := exec (setActiveNote "ghost") oneNote.

(** [addNote("abc")] on the empty store. *)
Definition abcOnly : NotesState := exec (addNote (Some "abc") "q1w2e3r4t" 5000) empty.

Definition ideas : Note.t :=
  {| Note.id := "n2"; Note.title := "Ideas"; Note.content := "<p>x</p>";
     Note.chatHistory := []; Note.lastUpdated := 1200 |}.

Definition twoNotes : NotesState :=
  {| notes := [groceries; ideas]; activeNoteId := Some "n1" |}.

Definition hello : Message.draft :=
  {| Message.draft_content := "hello"; Message.draft_sender := Message.user |}.
End Sample.

(** ** Runs of all five actions of the store *)

Module Actions.
Import Store.

Inductive Action : Type :=
| AddNote (title : option string) (generatedId : string) (now : Z)
| UpdateNote (id : string) (data : Note.partial) (now : Z)
| DeleteNote (id : string)
| SetActiveNote (id : string)
| AddMessage (noteId : string) (message : Message.draft) (generatedId : string)
    (now newNow : Z).

Definition perform (state : NotesState) (a : Action) : NotesState :=
  match a with
  | AddNote title generatedId now => exec (addNote title generatedId now) state
  | UpdateNote id data now => exec (updateNote id data now) state
  | DeleteNote id => exec (deleteNote id) state
  | SetActiveNote id => exec (setActiveNote id) state
  | AddMessage noteId message generatedId now newNow =>
      exec (addMessage noteId message generatedId now newNow) state
  end.

Definition performAll (l : list Action) (state : NotesState) : NotesState :=
  fold_left perform l state.

(** The ids of the notes, in the order of [notes]. *)
Definition ids (state : NotesState) : list string := Note.id <$> notes state.

(** [activeNoteId] is valid and no two notes share an id. *)
Definition wellFormed (state : NotesState) : Prop :=
  activeValid state /\ NoDup (ids state).

(** What the callers of the store see to: [generateId()] gives an id no
    note has, and a note is made active by an id taken from [notes]. *)
Definition admissible (state : NotesState) (a : Action) : Prop :=
  match a with
  | AddNote _ generatedId _ => generatedId ∉ ids state
  | SetActiveNote id => id ∈ ids state
  | _ => True
  end.

Fixpoint admissibleRun (state : NotesState) (l : list Action) : Prop :=
  match l with
  | [] => True
  | a :: rest => admissible state a /\ admissibleRun (perform state a) rest
  end.

(** The note [addMessage] writes in place of [note]. *)
Definition withMessage (note : Note.t) (newMessage : Message.t) (newNow : Z) : Note.t :=
  {| Note.id := Note.id note;
     Note.title := Note.title note;
     Note.content := Note.content note;
     Note.chatHistory := Note.chatHistory note ++ [newMessage];
     Note.lastUpdated := newNow |}.

End Actions.

(** ** Text without a complete tag *)

Module Markup.
Import JsString.

(** No "<" of the string is followed, anywhere later, by a ">": the
    pattern [/<[^>]*>/] matches nowhere. *)
Fixpoint tagFree (s : string) : bool :=
  match s with
  | EmptyString => true
  | String c r => negb (Ascii.eqb c "<" && hasChar ">" r) && tagFree r
  end.

(** The string begins with a white-space character. *)
Definition startsWithWhiteSpace (s : string) : bool :=
  match s with
  | EmptyString => false
  | String c _ => isWhiteSpace c
  end.

End Markup.

(** ** The sidebar (the component [Sidebar])

    The store is the one of the hook [useNotesStore]; [isMobile] and
    [closeSidebar] are the props the page passes, the latter setting the
    page's [isSidebarOpen] to [false].  [generateId()], [Date.now()] and the
    answer to [window.confirm] are inputs of the events that read them. *)

Module Sidebar.
Import JsString Store.

Record State : Type := mkState {
  store : NotesState;
  (* useState *)
  searchTerm : string;
  isAddingNote : bool;
  newNoteTitle : string;
  (* props *)
  isMobile : bool;
  isSidebarOpen : bool
}.

Definition with_store (x : NotesState) (st : State) : State :=
  mkState x (searchTerm st) (isAddingNote st) (newNoteTitle st) (isMobile st)
          (isSidebarOpen st).
Definition setSearchTerm (x : string) (st : State) : State :=
  mkState (store st) x (isAddingNote st) (newNoteTitle st) (isMobile st)
          (isSidebarOpen st).
Definition setIsAddingNote (x : bool) (st : State) : State :=
  mkState (store st) (searchTerm st) x (newNoteTitle st) (isMobile st)
          (isSidebarOpen st).
Definition setNewNoteTitle (x : string) (st : State) : State :=
  mkState (store st) (searchTerm st) (isAddingNote st) x (isMobile st)
          (isSidebarOpen st).
Definition closeSidebar (st : State) : State :=
  mkState (store st) (searchTerm st) (isAddingNote st) (newNoteTitle st) (isMobile st)
          false.

(** The predicate of [notes.filter] in [filteredNotes]: the content is
    searched as stored, markup included. *)
Definition matchesSearch (searchTerm : string) (note : Note.t) : bool :=
  includes (toLowerCase (Note.title note)) (toLowerCase searchTerm)
  || includes (toLowerCase (Note.content note)) (toLowerCase searchTerm).

Definition filteredNotes (notes : list Note.t) (searchTerm : string) : list Note.t :=
  if String.eqb (trim searchTerm) "" then notes
  else List.filter (matchesSearch searchTerm) notes.

(** [htmlContent.replace(/<[^>]*>/g, " ")]: the scan of [stripFrom], with
    a space written where a match begins. *)
Fixpoint replaceTagsFrom (inTag : bool) (s : string) : string :=
  match s with
  | EmptyString => EmptyString
  | String c r =>
      if inTag then
        (if Ascii.eqb c ">" then replaceTagsFrom false r else replaceTagsFrom true r)
      else if Ascii.eqb c "<" && hasChar ">" r then String " " (replaceTagsFrom true r)
      else String c (replaceTagsFrom false r)
  end.

Definition getPreviewText (htmlContent : string) : string :=
  let textOnly := replaceTagsFrom false htmlContent in
  trim (substring0 100 textOnly).

Definition handleDeleteNote (confirmed : bool) (noteId : string) (st : State) : State :=
  if confirmed then
    let st := with_store (exec (deleteNote noteId) (store st)) st in
    if isMobile st then closeSidebar st else st
  else st.

Definition handleCreateNote (st : State) : State := setIsAddingNote true st.

Definition handleAddNoteSubmit (generatedId : string) (now : Z) (st : State) : State :=
  let title := orDefault (Some (trim (newNoteTitle st))) "Untitled Note" in
  let (newNoteId, s) := addNote (Some title) generatedId now (store st) in
  let st := with_store (exec (setActiveNote newNoteId) s) st in
  let st := setNewNoteTitle "" st in
  let st := setIsAddingNote false st in
  if isMobile st then closeSidebar st else st.

Definition cancelAddNote (st : State) : State :=
  setNewNoteTitle "" (setIsAddingNote false st).

Definition handleNoteSelect (noteId : string) (st : State) : State :=
  let st := with_store (exec (setActiveNote noteId) (store st)) st in
  if isMobile st then closeSidebar st else st.

(** What the user can do with the sidebar on screen.  The form is there
    only while [isAddingNote], the button "New Note" only otherwise; the
    cards are those of [filteredNotes], in order. *)
Inductive Event : Type :=
| Search (value : string)
| ClickNewNote
| TypeTitle (value : string)
| Submit (generatedId : string) (now : Z)
| Cancel
| ClickCard (i : nat)
| ClickDelete (i : nat) (confirmed : bool).

Definition card (st : State) (i : nat) : option Note.t :=
  filteredNotes (notes (store st)) (searchTerm st) !! i.

Definition step (st : State) (e : Event) : State :=
  match e with
  | Search value => setSearchTerm value st
  | ClickNewNote => if isAddingNote st then st else handleCreateNote st
  | TypeTitle value => if isAddingNote st then setNewNoteTitle value st else st
  | Submit generatedId now =>
      if isAddingNote st then handleAddNoteSubmit generatedId now st else st
  | Cancel => if isAddingNote st then cancelAddNote st else st
  | ClickCard i =>
      match card st i with
      | Some note => handleNoteSelect (Note.id note) st
      | None => st
      end
  | ClickDelete i confirmed =>
      match card st i with
      | Some note => handleDeleteNote confirmed (Note.id note) st
      | None => st
      end
  end.

Definition run (es : list Event) (st : State) : State := fold_left step es st.

(** The sidebar as the page first shows it on a store. *)
Definition initial (s : NotesState) (mobile : bool) : State :=
  mkState s "" false "" mobile false.

End Sidebar.

(** ** The chat panel (the component [Chat] of [components/Chat.tsx])

    The readings of [Date.now()] and of [Math.random()] are inputs of the
    event that makes them.  A reply scheduled by [handleSubmit] is kept with
    what its callback closes over: the query and the [conversationContext]
    of the render that handled the submit.  Which pending reply is delivered
    next is an input as well (the browser delivers them by due time). *)

Module ChatPanel.
Import JsString.

Inductive Role : Type := user | bot.

(** ["welcome"], or the numeral [n.toString()]. *)
Inductive Id : Type := welcome | numeral (n : Z).

Record Message : Type := mkMessage {
  id : Id;
  content : string;
  role : Role;
  timestamp : Z
}.

Global Instance Role_eq_dec : EqDecision Role.
Proof. solve_decision. Defined.
Global Instance Id_eq_dec : EqDecision Id.
Proof. solve_decision. Defined.
Global Instance Message_eq_dec : EqDecision Message.
Proof. solve_decision. Defined.

(** A pending [setTimeout(() => { ... }, thinkingTime)]. *)
Record Reply : Type := mkReply {
  delay : Z;
  userQuery : string;
  context : list string
}.

Record Panel : Type := mkPanel {
  messages : list Message;
  inputValue : string;
  isTyping : bool;
  conversationContext : list string;
  pending : list Reply
}.

Definition setMessages (x : list Message) (p : Panel) : Panel :=
  mkPanel x (inputValue p) (isTyping p) (conversationContext p) (pending p).
Definition setInputValue (x : string) (p : Panel) : Panel :=
  mkPanel (messages p) x (isTyping p) (conversationContext p) (pending p).
Definition setIsTyping (x : bool) (p : Panel) : Panel :=
  mkPanel (messages p) (inputValue p) x (conversationContext p) (pending p).
Definition setConversationContext (x : list string) (p : Panel) : Panel :=
  mkPanel (messages p) (inputValue p) (isTyping p) x (pending p).
Definition with_pending (x : list Reply) (p : Panel) : Panel :=
  mkPanel (messages p) (inputValue p) (isTyping p) (conversationContext p) x.

Definition welcomeText : string :=
  "Hello! I'm your AI assistant. How can I help with your notes today?".

(** The initial values of the hooks. *)
Definition initial (now : Z) : Panel :=
  {| messages := [mkMessage welcome welcomeText bot now];
     inputValue := ""; isTyping := false; conversationContext := []; pending := [] |}.

(** [Math.min(1000 + userQuery.length * 20, 3000)] *)
Definition thinkingTime (userQuery : string) : Z :=
  Z.min (1000 + Z.of_nat (String.length userQuery) * 20) 3000.

(** [l.slice(-5)] *)
Definition lastFive {A} (l : list A) : list A := drop (length l - 5) l.

(** The effect on [[messages]] that keeps the conversation context. *)
Definition contextEffect (p : Panel) : Panel :=
  if (1 <? length (messages p))%nat
  then setConversationContext (content <$> lastFive (messages p)) p
  else p.

(** The render after an event: the effect runs when [messages] changed. *)
Definition commit (before after : Panel) : Panel :=
  if bool_decide (messages after = messages before) then after else contextEffect after.

Definition handleSubmit (now1 now2 : Z) (p : Panel) : Panel :=
  if negb (truthy (trim (inputValue p))) then p
  else
    let userMessage := mkMessage (numeral now1) (inputValue p) user now2 in
    let userQuery := inputValue p in
    let scheduled := mkReply (thinkingTime userQuery) userQuery (conversationContext p) in
    let p' := setMessages (messages p ++ [userMessage]) p in
    let p' := setInputValue "" p' in
    let p' := setIsTyping true p' in
    with_pending (pending p ++ [scheduled]) p'.

(** The callback of the timer. *)
Definition deliver (t : Reply) (now1 now2 : Z) (rnd : Chat.Random) (p : Panel) : Panel :=
  let botMessage :=
    mkMessage (numeral (now1 + 1))
              (Chat.generateIntelligentResponse (userQuery t) (context t) rnd)
              bot now2 in
  let p := setMessages (messages p ++ [botMessage]) p in
  setIsTyping false p.

Inductive Event : Type :=
| Typed (value : string)
| Submit (now1 now2 : Z)
| Deliver (i : nat) (now1 now2 : Z) (rnd : Chat.Random).

Definition step (p : Panel) (e : Event) : Panel :=
  match e with
  | Typed value => setInputValue value p
  | Submit now1 now2 => commit p (handleSubmit now1 now2 p)
  | Deliver i now1 now2 rnd =>
      match pending p !! i with
      | Some t => commit p (deliver t now1 now2 rnd (with_pending (delete i (pending p)) p))
      | None => p
      end
  end.

Definition run (es : list Event) (p : Panel) : Panel := fold_left step es p.

(** The context is the content of the last five messages once a second
    message exists, and empty before. *)
Definition contextCurrent (p : Panel) : Prop :=
  conversationContext p =
    if (1 <? length (messages p))%nat then content <$> lastFive (messages p) else [].

End ChatPanel.

(** ** The rest of the component [Note]: keyboard shortcuts and unmounting *)

Module NoteShell.
Import JsString Store Autosave.

Inductive ViewMode : Type := richtext | markdown.

(** The autosave state of the component together with its two other
    pieces of [useState]. *)
Record Shell : Type := mkShell {
  view : View;
  isChatOpen : bool;
  viewMode : ViewMode
}.

Definition with_view (x : View) (sh : Shell) : Shell :=
  mkShell x (isChatOpen sh) (viewMode sh).

(** What [handleKeyDown] reads of a [KeyboardEvent]. *)
Record KeyboardEvent : Type := mkKeyboardEvent {
  ctrlKey : bool;
  metaKey : bool;
  key : string
}.

Definition toggleChat (sh : Shell) : Shell :=
  mkShell (view sh) (negb (isChatOpen sh)) (viewMode sh).

Definition toggleViewMode (sh : Shell) : Shell :=
  mkShell (view sh) (isChatOpen sh)
          (match viewMode sh with richtext => markdown | markdown => richtext end).

(** [handleKeyDown] as the last render created it; the boolean tells
    whether [e.preventDefault()] was called. *)
Definition handleKeyDown (e : KeyboardEvent) (sh : Shell) : bool * Shell :=
  let r := render (view sh) in
  let ctrlPressed := ctrlKey e || metaKey e in
  if ctrlPressed then
    let k := toLowerCase (key e) in
    if String.eqb k "s" then
      (true,
       if r_isEdited r && bool_decide (is_Some (r_activeNote r))
       then with_view (handleSave r (view sh)) sh
       else sh)
    else if String.eqb k "m" then (true, toggleViewMode sh)
    else if String.eqb k "/" then (true, toggleChat sh)
    else (false, sh)
  else (false, sh).

(** A key press: the handler, then the renders it causes. *)
Definition keyDown (e : KeyboardEvent) (sh : Shell) : bool * Shell :=
  let (prevented, sh') := handleKeyDown e sh in
  (prevented, with_view (update (view sh')) sh').

(** Unmounting the component runs the cleanup of the autosave effect. *)
Definition unmount (v : View) : View := autosaveCleanup v.

(** The status the save indicator shows after a render of a view whose
    previous render was [r0]. *)
Definition statusAfterRender (r0 : Render) (v : View) : option SaveStatus :=
  if isEdited v && bool_decide (is_Some (r_activeNote (render v)))
  then Some saving
  else match r_activeNote (render v) with
       | Some n =>
           if decide (Some (Note.id n) = Note.id <$> r_activeNote r0)
           then saveStatus v else Some saved
       | None => saveStatus v
       end.

End NoteShell.

(** ** A sample session of the component [Note] *)

Module Scenario.
Import Store Autosave.

(** The note "Groceries" is open and its content has just been edited. *)
Definition typed : View :=
  step (mount Sample.twoNotes 10000) (ContentChange "<p>milk, eggs</p>").

(** The note "Groceries" is open and untouched. *)
Definition opened : View := mount Sample.twoNotes 10000.

End Scenario.

(** ** The Markdown view ([getMarkdownContent] in [components/Note.tsx])

    Every step of the function is a [replace] with a global regular
    expression of the shape [open(.*?)close], where [open] and [close] are
    literal tags.  The scan goes from left to right; at a position where
    [open] begins, the lazy [(.*?)] takes the shortest run of characters
    other than line terminators after which [close] begins, and the scan
    goes on behind the match; where there is no match the character is
    kept.  A replacement string has its [$1] replaced by the capture; what a
    replacement function returns is inserted as it is. *)

From Stdlib Require DecimalString.

Module Markdown.
Import JsString.

(** What [.] does not match, below U+0100: LF and CR. *)
Definition isLineTerminator (c : ascii) : bool :=
  (code c =? 10)%nat || (code c =? 13)%nat.

(** [s.substring(n)] *)
Fixpoint dropChars (n : nat) (s : string) : string :=
  match n, s with
  | O, _ => s
  | S _, EmptyString => EmptyString
  | S k, String _ r => dropChars k r
  end.

(** The capture of [(.*?)close] at the head of [s], if it matches there. *)
Fixpoint capture (close : string) (s : string) {struct s} : option string :=
  if startsWith s close then Some EmptyString
  else match s with
       | EmptyString => None
       | String c r =>
           if isLineTerminator c then None else String c <$> capture close r
       end.

(** [s.replace(/open(.*?)close/g, f)], [f] receiving the capture; [skip] is
    the number of characters of the last match still to be passed over. *)
Fixpoint replaceEach (open close : string) (f : string -> string) (skip : nat)
    (s : string) : string :=
  match s with
  | EmptyString => EmptyString
  | String c r =>
      match skip with
      | S k => replaceEach open close f k r
      | O =>
          match (if startsWith s open
                 then capture close (dropChars (String.length open) s) else None) with
          | Some inner =>
              f inner +:+
              replaceEach open close f
                (String.length open + String.length inner + String.length close - 1) r
          | None => String c (replaceEach open close f 0 r)
          end
      end
  end.

(** The same with a replacement function that counts its calls:
    [let index = 0; ... () => { index++; return ...; }]. *)
Fixpoint replaceEachCounting (open close : string) (f : nat -> string -> string)
    (index : nat) (skip : nat) (s : string) : string :=
  match s with
  | EmptyString => EmptyString
  | String c r =>
      match skip with
      | S k => replaceEachCounting open close f index k r
      | O =>
          match (if startsWith s open
                 then capture close (dropChars (String.length open) s) else None) with
          | Some inner =>
              f (S index) inner +:+
              replaceEachCounting open close f (S index)
                (String.length open + String.length inner + String.length close - 1) r
          | None => String c (replaceEachCounting open close f index 0 r)
          end
      end
  end.

(** The decimal numeral of [n], as a template literal prints it. *)
Definition numeral (n : nat) : string :=
  DecimalString.NilEmpty.string_of_uint (Nat.to_uint n).

Definition nl : string := String (ascii_of_nat 10) EmptyString.

Definition getMarkdownContent (htmlContent : string) : string :=
  let s := htmlContent in
  let s := replaceEach "<h1>" "</h1>" (fun x => "# " +:+ x +:+ nl +:+ nl) 0 s in
  let s := replaceEach "<h2>" "</h2>" (fun x => "## " +:+ x +:+ nl +:+ nl) 0 s in
  let s := replaceEach "<h3>" "</h3>" (fun x => "### " +:+ x +:+ nl +:+ nl) 0 s in
  let s := replaceEach "<p>" "</p>" (fun x => x +:+ nl +:+ nl) 0 s in
  let s := replaceEach "<strong>" "</strong>" (fun x => "**" +:+ x +:+ "**") 0 s in
  let s := replaceEach "<em>" "</em>" (fun x => "*" +:+ x +:+ "*") 0 s in
  let s := replaceEach "<ul>" "</ul>"
             (fun list => replaceEach "<li>" "</li>" (fun x => "- " +:+ x +:+ nl) 0 list)
             0 s in
  let s := replaceEach "<ol>" "</ol>"
             (fun list =>
                replaceEachCounting "<li>" "</li>"
                  (fun index _ => numeral index +:+ ". $1" +:+ nl) 0 0 list)
             0 s in
  stripTags s.

(** *** Vocabulary *)

(** The text of a list item as the editor writes it without nested markup:
    no "<" and no line terminator. *)
Fixpoint plain (a : string) : bool :=
  match a with
  | EmptyString => true
  | String c r => negb (Ascii.eqb c "<") && negb (isLineTerminator c) && plain r
  end.

(** [<li>a</li>] for every item, one after the other. *)
Fixpoint listItems (items : list string) : string :=
  match items with
  | [] => EmptyString
  | a :: rest => "<li>" +:+ a +:+ "</li>" +:+ listItems rest
  end.

(** One line ["- a"] for every item. *)
Fixpoint bulletLines (items : list string) : string :=
  match items with
  | [] => EmptyString
  | a :: rest => "- " +:+ a +:+ nl +:+ bulletLines rest
  end.

(** The lines ["i. $1"] for [i] from [from + 1] to [from + count]. *)
Fixpoint placeholderLines (from count : nat) : string :=
  match count with
  | O => EmptyString
  | S k => numeral (S from) +:+ ". $1" +:+ nl +:+ placeholderLines (S from) k
  end.

End Markdown.

Import JsString Store Spec AutosaveSpec.

(** * Properties of the note store *)

Section StoreFacts.
Implicit Types (s state : NotesState) (note : Note.t) (id : string).

Lemma find_None_iff {A} (P : A -> Prop) `{!forall x, Decision (P x)} (l : list A) :
  find P l = None <-> Forall (fun x => ~ P x) l.
Proof.
  unfold find. rewrite fmap_None. apply list_find_None.
Qed.

Lemma findIndex_None_iff {A} (P : A -> Prop) `{!forall x, Decision (P x)} (l : list A) :
  findIndex P l = None <-> Forall (fun x => ~ P x) l.
Proof.
  unfold findIndex. rewrite fmap_None. apply list_find_None.
Qed.

Lemma findIndex_Some_lookup {A} (P : A -> Prop) `{!forall x, Decision (P x)} (l : list A) i :
  findIndex P l = Some i -> exists x, l !! i = Some x /\ P x /\ find P l = Some x.
Proof.
  unfold findIndex, find. intros Hi.
  apply fmap_Some in Hi as [[j x] [Hf ->]].
  pose proof Hf as Hf'. apply list_find_Some in Hf' as (Hl & HP & _).
  exists x. rewrite Hf. auto.
Qed.

Lemma find_Some_findIndex {A} (P : A -> Prop) `{!forall x, Decision (P x)} (l : list A) x :
  find P l = Some x -> exists i, findIndex P l = Some i /\ l !! i = Some x /\ P x.
Proof.
  unfold findIndex, find. intros Hx.
  apply fmap_Some in Hx as [[j y] [Hf ->]].
  pose proof Hf as Hf'. apply list_find_Some in Hf' as (Hl & HP & _).
  exists j. rewrite Hf. auto.
Qed.

Lemma filter_sublist {A} (f : A -> bool) (l : list A) : sublist (List.filter f l) l.
Proof.
  induction l as [|x l IH]; simpl; [constructor|].
  destruct (f x); by constructor.
Qed.

Lemma elem_of_filter {A} (f : A -> bool) (l : list A) x :
  x ∈ List.filter f l <-> x ∈ l /\ f x = true.
Proof. rewrite !list_elem_of_In. apply filter_In. Qed.

Lemma filter_all {A} (f : A -> bool) (l : list A) :
  (forall x, x ∈ l -> f x = true) -> List.filter f l = l.
Proof.
  induction l as [|x l IH]; simpl; intros Hall; [done|].
  rewrite (Hall x) by constructor. f_equal. apply IH.
  intros y Hy. apply Hall. by constructor.
Qed.

Lemma activeValidb_spec s : activeValidb s = true <-> activeValid s.
Proof.
  unfold activeValidb, activeValid. destruct (activeNoteId s) as [a|].
  - rewrite existsb_exists. split.
    + intros (n & Hin & He). exists n. rewrite list_elem_of_In. split; [done|].
      by apply String.eqb_eq.
    + intros (n & Hin & He). exists n. rewrite <- list_elem_of_In. split; [done|].
      by apply String.eqb_eq.
  - rewrite bool_decide_eq_true. apply length_zero_iff_nil.
Qed.

Lemma elem_of_remaining id l note :
  note ∈ remaining id l <-> note ∈ l /\ Note.id note <> id.
Proof.
  unfold remaining. rewrite elem_of_filter, negb_true_iff, String.eqb_neq. done.
Qed.

Lemma deleteNote_notes s id : notes (exec (deleteNote id) s) = remaining id (notes s).
Proof.
  unfold exec, deleteNote, bind, get, set, remaining. simpl.
  repeat case_match; reflexivity.
Qed.

Lemma deleteNote_active s id :
  activeNoteId (exec (deleteNote id) s) =
    match remaining id (notes s) with
    | [] => None
    | first :: _ => if decide (activeNoteId s = Some id) then Some (Note.id first)
                    else activeNoteId s
    end.
Proof.
  unfold exec, deleteNote, bind, get, set, remaining. simpl.
  destruct (List.filter _ (notes s)) as [|first rest] eqn:E; simpl.
  - rewrite andb_false_r. reflexivity.
  - rewrite andb_true_r. unfold bool_decide.
    destruct (decide_rel eq (activeNoteId s) (Some id)) as [e|ne];
      destruct (decide (activeNoteId s = Some id)); try done.
Qed.

(** The invariant on [activeNoteId] holds after every [addNote]. *)
Lemma addNote_activeValid s title generatedId now :
  activeValid (exec (addNote title generatedId now) s).
Proof.
  unfold activeValid, exec, addNote, bind, set, ret. simpl.
  eexists. split; [apply elem_of_app; right; apply list_elem_of_here | reflexivity].
Qed.

(** [deleteNote] keeps the invariant. *)
Lemma deleteNote_activeValid s id :
  activeValid s -> activeValid (exec (deleteNote id) s).
Proof.
  intros Hs. unfold activeValid. rewrite deleteNote_active, deleteNote_notes.
  destruct (remaining id (notes s)) as [|first rest] eqn:E; [done|].
  destruct (decide (activeNoteId s = Some id)) as [Ha|Ha].
  - exists first. split; [by constructor | done].
  - unfold activeValid in Hs. destruct (activeNoteId s) as [a|] eqn:Hact.
    + destruct Hs as (n & Hin & Hid). exists n. split; [|done].
      rewrite <- E. apply elem_of_remaining. split; [done|]. congruence.
    + rewrite Hs in E. discriminate.
Qed.

(** [deleteNote] restores the invariant when it removes the active note,
    whatever the state was. *)
Lemma deleteNote_active_restores s id :
  activeNoteId s = Some id -> activeValid (exec (deleteNote id) s).
Proof.
  intros Ha. unfold activeValid. rewrite deleteNote_active, deleteNote_notes.
  destruct (remaining id (notes s)) as [|first rest] eqn:E; [done|].
  rewrite decide_True by done. exists first. split; [by constructor | done].
Qed.

Lemma calls_activeValid cs s : activeValid s -> activeValid (calls cs s).
Proof.
  revert s. induction cs as [|c cs IH]; intros s Hs; [done|].
  simpl. apply IH. destruct c; simpl.
  - apply addNote_activeValid.
  - by apply deleteNote_activeValid.
Qed.

(** The seeded state: [activeNoteId] is the first identifier of the second
    draw, so it is valid only when that identifier collides with one of the
    two seeded notes. *)
Lemma initialState_activeValid_iff (r : Seed) :
  activeValid (initialState r) <-> id3 r = id1 r \/ id3 r = id2 r.
Proof.
  unfold activeValid, initialState, createDefaultNotes. simpl. split.
  - intros (n & Hin & Hid).
    apply elem_of_cons in Hin as [->|Hin]; [left; done|].
    apply elem_of_cons in Hin as [->|Hin]; [right; done|].
    by apply elem_of_nil in Hin.
  - intros [H|H]; eexists.
    + split; [apply list_elem_of_here | by rewrite H].
    + split; [apply list_elem_of_further, list_elem_of_here | by rewrite H].
Qed.
End StoreFacts.

Section StoreClaims.
Implicit Types (s state : NotesState) (note : Note.t) (id : string).

(** C1.  The seeded state already breaks the invariant on [activeNoteId]:
    with the four generated identifiers distinct, the state reached by the
    empty sequence of calls has a non-null [activeNoteId] that is the id of
    no note of [notes], so [getActiveNote] finds nothing; deleting the first
    seeded note leaves it dangling too. *)
Theorem seeded_state_activeNoteId_dangling :
  let s := calls [] (initialState Sample.seed) in
  activeNoteId s = Some "t5h1n6r3b" /\
  Note.id <$> notes s = ["k3v9x0q1z"; "p7m2c8w4d"] /\
  ~ activeValid s /\
  result getActiveNote s = None /\
  ~ activeValid (calls [CallDeleteNote "k3v9x0q1z"] (initialState Sample.seed)).
Proof.
  simpl. split; [reflexivity|]. split; [reflexivity|].
  split; [|split; [reflexivity|]].
  - rewrite <- activeValidb_spec. vm_compute. discriminate.
  - rewrite <- activeValidb_spec. vm_compute. discriminate.
Qed.

(** C2.  [deleteNote(id)] keeps exactly the notes with another id, in their
    order; when [id] was the active id, [activeNoteId] becomes the id of the
    first remaining note, or null when none remains; deleting the only note
    leaves [activeNoteId] null and [getActiveNote()] null. *)
Theorem deleteNote_removes_and_reassigns s id :
  let s' := exec (deleteNote id) s in
  (forall note, note ∈ notes s' <-> note ∈ notes s /\ Note.id note <> id) /\
  sublist (notes s') (notes s) /\
  (activeNoteId s = Some id -> activeNoteId s' = Note.id <$> head (notes s')) /\
  (forall note, notes s = [note] -> Note.id note = id ->
     notes s' = [] /\ activeNoteId s' = None /\ result getActiveNote s' = None).
Proof.
  simpl. rewrite deleteNote_notes, deleteNote_active.
  split; [intros note; apply elem_of_remaining|].
  split; [apply filter_sublist|].
  split.
  - intros Ha. destruct (remaining id (notes s)); [done|].
    by rewrite decide_True.
  - intros note Hn Hid. rewrite Hn. unfold remaining. simpl.
    rewrite Hid, String.eqb_refl. simpl. split; [done|]. split; [done|].
    unfold result, getActiveNote, bind, get, ret. simpl.
    rewrite deleteNote_notes, Hn. unfold remaining. simpl.
    by rewrite Hid, String.eqb_refl.
Qed.

Lemma deleteNote_removes_and_reassigns_witness :
  activeNoteId Sample.oneNote = Some "n1" /\
  activeNoteId (exec (deleteNote "n1") Sample.oneNote) = None /\
  result getActiveNote (exec (deleteNote "n1") Sample.oneNote) = None.
Proof.
  split; [reflexivity|].
  pose proof (deleteNote_removes_and_reassigns Sample.oneNote "n1") as H.
  simpl in H. destruct H as (_ & _ & _ & H).
  destruct (H Sample.groceries eq_refl eq_refl) as (_ & Ha & Hg).
  split; [exact Ha | exact Hg].
Defined.

(** C4 fails as stated for a blank title that is not empty: [title ||
    "Untitled Note"] replaces only an omitted or empty title, so
    [addNote("  ")] stores the two spaces as the title. *)
Lemma addNote_whitespace_title_not_defaulted :
  whitespaceOnly "  " = true /\
  Note.title <$> notes (exec (addNote (Some "  ") "q1w2e3r4t" 5000) Sample.empty) = ["  "] /\
  "  " <> "Untitled Note".
Proof. split; [reflexivity|]. split; [reflexivity | discriminate]. Qed.

(** C4, amended.  [addNote(title?)] returns for every store state: it
    appends one note whose id is the generated id, whose title is the given
    one, or "Untitled Note" when the argument is omitted or the empty string,
    whose content is the empty paragraph (no text once the markup is
    stripped) and whose chat history is empty; that note becomes the active
    one and its id is returned. *)
Theorem addNote_appends_and_activates s (title : option string) generatedId now :
  exists newNote,
    addNote title generatedId now s =
      (Note.id newNote,
       {| notes := notes s ++ [newNote]; activeNoteId := Some (Note.id newNote) |}) /\
    Note.id newNote = generatedId /\
    (title = None \/ title = Some "" -> Note.title newNote = "Untitled Note") /\
    (forall t, title = Some t -> t <> "" -> Note.title newNote = t) /\
    Note.content newNote = "<p></p>" /\
    stripTags (Note.content newNote) = "" /\
    Note.chatHistory newNote = [] /\
    Note.lastUpdated newNote = now.
Proof.
  eexists. split; [reflexivity|]. simpl. split; [reflexivity|].
  split; [|split; [|done]].
  - intros [-> | ->]; reflexivity.
  - intros t -> Ht. destruct t; [done | reflexivity].
Qed.

Lemma addNote_appends_and_activates_witness :
  exists newNote,
    addNote (Some "") "q1w2e3r4t" 5000 Sample.oneNote =
      (Note.id newNote,
       {| notes := notes Sample.oneNote ++ [newNote];
          activeNoteId := Some (Note.id newNote) |}) /\
    Note.title newNote = "Untitled Note".
Proof.
  destruct (addNote_appends_and_activates Sample.oneNote (Some "") "q1w2e3r4t" 5000)
    as (newNote & Hrun & _ & Hdefault & _).
  exists newNote. split; [exact Hrun|]. apply Hdefault. right. reflexivity.
Defined.

(** C10.  [getActiveNote()] returns for every state and leaves it as it
    was; it returns null when [activeNoteId] is null and when it is the id of
    no note; and [setActiveNote(id)] stores [id] whether or not a note has
    it, which is how such a state is reached. *)
Theorem getActiveNote_total_null_when_dangling :
  (forall s, exec getActiveNote s = s) /\
  (forall s, activeNoteId s = None \/
             (exists a, activeNoteId s = Some a /\ absent a s) ->
             getActiveNote s = (None, s)) /\
  (forall s id, exec (setActiveNote id) s =
                {| notes := notes s; activeNoteId := Some id |}) /\
  (forall s id, absent id s ->
                getActiveNote (exec (setActiveNote id) s) =
                  (None, exec (setActiveNote id) s)).
Proof.
  assert (Hnull : forall s, activeNoteId s = None \/
             (exists a, activeNoteId s = Some a /\ absent a s) ->
             getActiveNote s = (None, s)).
  { intros s Hs. unfold getActiveNote, bind, get, ret. f_equal.
    apply find_None_iff, Forall_forall. intros note Hin Heq.
    destruct Hs as [Hs | (a & Ha & Habs)].
    - rewrite Hs in Heq. discriminate.
    - rewrite Ha in Heq. injection Heq as Heq. by apply (Habs note). }
  split; [reflexivity|]. split; [exact Hnull|]. split; [reflexivity|].
  intros s id Habs. apply Hnull. right. exists id. split; [reflexivity|].
  exact Habs.
Qed.

Lemma getActiveNote_total_null_when_dangling_witness :
  getActiveNote Sample.ghostActive = (None, Sample.ghostActive).
Proof.
  destruct getActiveNote_total_null_when_dangling as (_ & _ & _ & H).
  apply (H Sample.oneNote "ghost").
  intros note Hin. apply list_elem_of_singleton in Hin. subst note. discriminate.
Defined.
End StoreClaims.

Section UpdateClaims.
Implicit Types (s state : NotesState) (note : Note.t) (id : string).

Lemma differs_false_iff (provided : option string) (current : string) :
  differs provided current = false <->
  (forall v, provided = Some v -> v = "" \/ v = current).
Proof.
  unfold differs. destruct provided as [v|]; [|split; [intros _ v' [=] | done]].
  rewrite andb_false_iff, negb_false_iff, String.eqb_eq. split.
  - intros [Hv | Hv] v' [= <-]; [left; by destruct v | by right].
  - intros H. destruct (H v eq_refl) as [-> | ->]; [by left | by right].
Qed.

Lemma hasChanged_false data note :
  Note.p_chatHistory data = None ->
  (forall v, Note.p_title data = Some v -> v = Note.title note) ->
  (forall v, Note.p_content data = Some v -> v = Note.content note) ->
  hasChanged data note = false.
Proof.
  intros Hc Ht Hb. unfold hasChanged. rewrite Hc.
  rewrite (proj2 (differs_false_iff _ _)) by (intros v Hv; right; by apply Ht).
  rewrite (proj2 (differs_false_iff _ _)) by (intros v Hv; right; by apply Hb).
  reflexivity.
Qed.

(** What [updateNote] can do to [notes]: nothing, or replace the first note
    with the id by the spread. *)
Lemma updateNote_cases s id data now :
  exec (updateNote id data now) s = s \/
  exists i note,
    findIndex (fun n => Note.id n = id) (notes s) = Some i /\
    notes s !! i = Some note /\
    find (fun n => Note.id n = id) (notes s) = Some note /\
    hasChanged data note = true /\
    exec (updateNote id data now) s =
      with_notes (<[i := Note.spread note data now]> (notes s)) s.
Proof.
  unfold exec, updateNote, set. simpl.
  destruct (findIndex _ (notes s)) as [i|] eqn:Hi; [|by left].
  destruct (findIndex_Some_lookup _ _ _ Hi) as (note & Hl & _ & Hf).
  rewrite Hl. destruct (hasChanged data note) eqn:Hch; [|by left].
  right. exists i, note. done.
Qed.

(** C3 fails on the code.  [updateNote("n1", { chatHistory: [] })] at time
    2000 on a store whose note "n1" has an empty chat history and
    [lastUpdated] 1000: no field that [data] provides differs from the
    note's value, and yet the call is not a no-op: the state changes, the
    note is replaced and its [lastUpdated] becomes 2000.  The guard, under
    the comment "Only update if data has actually changed", compares the
    title and the content with the note's and takes a provided chat history
    for a change without comparing it. *)
Lemma updateNote_same_chatHistory_not_noop :
  result (getNoteById "n1") Sample.oneNote = Some Sample.groceries /\
  noProvidedFieldDiffers Sample.sameChatHistory Sample.groceries /\
  exec (updateNote "n1" Sample.sameChatHistory 2000) Sample.oneNote <> Sample.oneNote /\
  Note.lastUpdated <$> notes Sample.oneNote = [1000%Z] /\
  Note.lastUpdated <$> notes (exec (updateNote "n1" Sample.sameChatHistory 2000) Sample.oneNote)
    = [2000%Z].
Proof.
  split; [reflexivity|]. split.
  - repeat split; intros v [=]; by subst.
  - split; [|split; reflexivity]. vm_compute. discriminate.
Qed.

(** What the guard of [updateNote] does achieve.  The call touches neither
    [activeNoteId] nor the number and ids of the notes and leaves every
    field that [data] does not provide as it was; it changes nothing at
    all, [lastUpdated] included, when [data] provides no chat history and
    each title or content it provides is the note's current one; in
    particular [updateNote(id, {title: sameTitle, content: sameContent})]
    is a no-op on every existing note. *)
Lemma updateNote_only_provided_noop_when_same :
  (forall s id data now,
     activeNoteId (exec (updateNote id data now) s) = activeNoteId s /\
     Forall2 (keepsUnprovided data) (notes s) (notes (exec (updateNote id data now) s))) /\
  (forall s id data now note,
     result (getNoteById id) s = Some note ->
     Note.p_chatHistory data = None ->
     (forall v, Note.p_title data = Some v -> v = Note.title note) ->
     (forall v, Note.p_content data = Some v -> v = Note.content note) ->
     updateNote id data now s = (tt, s)) /\
  (forall s id now note,
     result (getNoteById id) s = Some note ->
     updateNote id (Note.titleAndContent (Note.title note) (Note.content note)) now s
       = (tt, s)).
Proof.
  assert (Hnoop : forall s id data now note,
     result (getNoteById id) s = Some note ->
     Note.p_chatHistory data = None ->
     (forall v, Note.p_title data = Some v -> v = Note.title note) ->
     (forall v, Note.p_content data = Some v -> v = Note.content note) ->
     updateNote id data now s = (tt, s)).
  { intros s id data now note Hget Hc Ht Hb.
    unfold result, getNoteById, bind, get, ret in Hget. simpl in Hget.
    destruct (updateNote_cases s id data now) as [Hs | (i & n & _ & _ & Hf & Hch & _)].
    - unfold exec in Hs. destruct (updateNote id data now s) as [[] s'].
      simpl in Hs. by rewrite Hs.
    - rewrite Hget in Hf. injection Hf as <-.
      rewrite hasChanged_false in Hch by done. discriminate. }
  split; [|split; [exact Hnoop|]].
  - intros s id data now.
    assert (Hrefl : Forall2 (keepsUnprovided data) (notes s) (notes s)).
    { apply Forall_Forall2_diag, Forall_forall. intros n _. by repeat split. }
    destruct (updateNote_cases s id data now) as [-> | (i & n & _ & Hl & _ & _ & ->)];
      [done|].
    split; [reflexivity|]. simpl.
    rewrite <- (list_insert_id (notes s) i n Hl) at 1.
    apply Forall2_insert; [exact Hrefl|].
    unfold keepsUnprovided, Note.spread. simpl.
    repeat split; intros ->; reflexivity.
  - intros s id now note Hget. apply (Hnoop s id _ now note Hget); [done|..];
      simpl; intros v [=]; done.
Qed.

Lemma absent_findIndex s id :
  absent id s -> findIndex (fun n => Note.id n = id) (notes s) = None.
Proof.
  intros Habs. apply findIndex_None_iff, Forall_forall. exact Habs.
Qed.

Lemma absent_remaining s id : absent id s -> remaining id (notes s) = notes s.
Proof.
  intros Habs. apply filter_all. intros n Hn.
  apply negb_true_iff, String.eqb_neq. by apply Habs.
Qed.

(** C6 fails on the code.  After [setActiveNote("ghost")] on a store whose
    only note is "n1", [deleteNote("ghost")] names an id no note has and
    is not a no-op: it keeps [notes] and moves [activeNoteId] from "ghost"
    to "n1".  The branch under the comment "If we deleted the active note"
    tests [activeNoteId === id] without testing that a note was deleted,
    where [updateNote] and [addMessage] guard [noteIndex !== -1]. *)
Lemma deleteNote_absent_changes_dangling_active :
  absent "ghost" Sample.ghostActive /\
  activeNoteId Sample.ghostActive = Some "ghost" /\
  activeNoteId (exec (deleteNote "ghost") Sample.ghostActive) = Some "n1" /\
  exec (deleteNote "ghost") Sample.ghostActive <> Sample.ghostActive.
Proof.
  split; [|split; [reflexivity|split; [reflexivity|]]].
  - intros note Hin. apply list_elem_of_singleton in Hin. subst note. discriminate.
  - vm_compute. discriminate.
Qed.

(** Where the policy does hold.  For an id no note has, [updateNote] and
    [addMessage] return with the state unchanged, and [deleteNote] returns
    with [notes] unchanged; [deleteNote] leaves the whole state unchanged
    except in exactly two cases: [activeNoteId] is that absent id while
    there are notes, or there is no note and [activeNoteId] is not null. *)
Lemma absent_id_mutations_are_noops s id :
  absent id s ->
  (forall data now, updateNote id data now s = (tt, s)) /\
  (forall message generatedId now newNow,
     addMessage id message generatedId now newNow s = (tt, s)) /\
  notes (exec (deleteNote id) s) = notes s /\
  (deleteNote id s = (tt, s) <->
   ~ (activeNoteId s = Some id /\ notes s <> []) /\
   ~ (notes s = [] /\ activeNoteId s <> None)).
Proof.
  intros Habs. split; [|split; [|split]].
  - intros data now. unfold updateNote, set. by rewrite absent_findIndex.
  - intros message generatedId now newNow. unfold addMessage, set.
    by rewrite absent_findIndex.
  - rewrite deleteNote_notes. by apply absent_remaining.
  - assert (Hiff : deleteNote id s = (tt, s) <-> exec (deleteNote id) s = s).
    { unfold exec. destruct (deleteNote id s) as [[] s']. simpl.
      split; [by intros [= ->] | by intros ->]. }
    rewrite Hiff. clear Hiff.
    pose proof (deleteNote_notes s id) as Hn.
    pose proof (deleteNote_active s id) as Ha.
    rewrite absent_remaining in Hn, Ha by done.
    destruct s as [ns act]. destruct (exec (deleteNote id) (mkState ns act)) as [ns' act'].
    simpl in *. subst ns' act'.
    destruct ns as [|first rest].
    + split.
      * intros [= Hact]. split; [by intros [_ ?] | intros [_ ?]; congruence].
      * intros [_ Hnone]. f_equal. destruct act as [a|]; [|done].
        exfalso. apply Hnone. by split.
    + destruct (decide (act = Some id)) as [->|Hne].
      * split.
        -- intros [= Hfirst]. exfalso. apply (Habs first); [apply list_elem_of_here | done].
        -- intros [Hactive _]. exfalso. apply Hactive. by split.
      * split; [|done]. intros _. split; [by intros [? _] | by intros [? _]].
Qed.
End UpdateClaims.

(** * Properties of the string primitives *)

Section StringFacts.
Implicit Types (s sub p x : string) (c : ascii).

Lemma append_nil s : "" +:+ s = s.
Proof. reflexivity. Qed.

Lemma append_cons c s1 s2 : String c s1 +:+ s2 = String c (s1 +:+ s2).
Proof. reflexivity. Qed.

Lemma startsWith_spec s p : startsWith s p = true <-> exists rest, s = p +:+ rest.
Proof.
  revert s. induction p as [|a p IH]; intros s; simpl.
  - split; [intros _; by exists s | done].
  - destruct s as [|b s].
    + split; [done | intros (rest & Hr); by rewrite append_cons in Hr].
    + destruct (Ascii.eqb_spec a b) as [->|Hne].
      * rewrite IH. split; intros (rest & Hr); exists rest.
        -- by rewrite append_cons, Hr.
        -- rewrite append_cons in Hr. by injection Hr.
      * split; [done | intros (rest & Hr)].
        rewrite append_cons in Hr. congruence.
Qed.

Lemma includes_occursIn s sub : includes s sub = true <-> occursIn sub s.
Proof.
  unfold occursIn. induction s as [|b s IH]; simpl.
  - rewrite orb_false_r, startsWith_spec. split.
    + intros (rest & Hr). by exists "", rest.
    + intros ([|? before] & after & Hr); [by exists after|].
      by rewrite append_cons in Hr.
  - rewrite orb_true_iff, startsWith_spec, IH. split.
    + intros [(rest & Hr) | (before & after & Hr)].
      * by exists "", rest.
      * exists (String b before), after. by rewrite append_cons, Hr.
    + intros ([|b' before] & after & Hr).
      * left. by exists after.
      * right. rewrite append_cons in Hr. injection Hr as _ Hr. by exists before, after.
Qed.

Lemma includes_not_occursIn s sub : includes s sub = false <-> ~ occursIn sub s.
Proof. rewrite <- includes_occursIn. by destruct (includes s sub). Qed.

Lemma truthy_false_iff s : truthy s = false <-> s = "".
Proof. by destruct s. Qed.

Lemma rev_app_empty s1 s2 : String.rev_app s1 s2 = "" <-> s1 = "" /\ s2 = "".
Proof.
  revert s2. induction s1 as [|a s1 IH]; intros s2; simpl.
  - split; [by intros -> | by intros [_ ->]].
  - rewrite IH. split; [intros [_ [=]] | intros [[=] _]].
Qed.

Lemma whitespaceOnly_rev_app s1 s2 :
  whitespaceOnly (String.rev_app s1 s2) = whitespaceOnly s1 && whitespaceOnly s2.
Proof.
  revert s2. induction s1 as [|a s1 IH]; intros s2; simpl; [done|].
  rewrite IH. simpl. by destruct (isWhiteSpace a), (whitespaceOnly s1).
Qed.

Lemma trimStart_empty_iff s : trimStart s = "" <-> whitespaceOnly s = true.
Proof.
  induction s as [|a s IH]; simpl; [done|].
  destruct (isWhiteSpace a); simpl; [exact IH | done].
Qed.

Lemma whitespaceOnly_trimStart s : whitespaceOnly (trimStart s) = whitespaceOnly s.
Proof.
  induction s as [|a s IH]; simpl; [done|].
  destruct (isWhiteSpace a) eqn:Ha; simpl; [exact IH | by rewrite Ha].
Qed.

(** [!s.trim()] holds exactly for the strings made of white space only. *)
Lemma trim_falsy_iff s : truthy (trim s) = false <-> whitespaceOnly s = true.
Proof.
  rewrite truthy_false_iff. unfold trim, trimEnd, String.rev.
  rewrite rev_app_empty, trimStart_empty_iff, whitespaceOnly_rev_app.
  rewrite whitespaceOnly_trimStart. simpl. rewrite andb_true_r.
  split; [by intros [H _] | by intros H].
Qed.

Lemma substring0_prefix n s :
  exists rest, s = substring0 n s +:+ rest /\
               String.length (substring0 n s) = Nat.min n (String.length s).
Proof.
  unfold substring0. revert s. induction n as [|n IH]; intros s.
  - exists s. by destruct s.
  - destruct s as [|a s]; simpl; [by exists ""|].
    destruct (IH s) as (rest & Hr & Hl). exists rest.
    rewrite append_cons. simpl. by rewrite <- Hr, Hl.
Qed.
End StringFacts.

Section FilterClaims.
Implicit Types (s state : NotesState) (note : Note.t) (x : string).

Lemma matchesSearch_matchesTerm x note :
  matchesSearch (toLowerCase x) note = true <-> matchesTerm x note.
Proof.
  unfold matchesSearch, matchesTerm, containsIgnoringCase.
  by rewrite orb_true_iff, !includes_occursIn.
Qed.

(** C5 fails as stated: for the search term " " the store holding the one
    note ["abc"] (content [<p></p>]) returns that note, although neither
    its title nor its stripped content contains a space. *)
Lemma getFilteredNotes_whitespace_term_returns_nonmatching :
  exists note,
    notes Sample.abcOnly = [note] /\
    result (getFilteredNotes " ") Sample.abcOnly = [note] /\
    ~ matchesTerm " " note.
Proof.
  eexists. split; [reflexivity|]. split; [reflexivity|].
  rewrite <- matchesSearch_matchesTerm. vm_compute. discriminate.
Qed.

(** C5, amended.  [getFilteredNotes] never changes the state; for a term
    made of white space only (the empty one included) it returns [notes] as
    it is; for every term its result is a sub-list of
    [getFilteredNotes("")], in the same order; and for every term that is
    not made of white space only it holds exactly the notes whose title or
    markup-stripped content contains the term, compared in lower case. *)
Theorem getFilteredNotes_sublist_exact_unless_blank s x :
  exec (getFilteredNotes x) s = s /\
  result (getFilteredNotes "") s = notes s /\
  (whitespaceOnly x = true -> result (getFilteredNotes x) s = notes s) /\
  sublist (result (getFilteredNotes x) s) (result (getFilteredNotes "") s) /\
  (whitespaceOnly x = false ->
   forall note, note ∈ result (getFilteredNotes x) s <->
                note ∈ notes s /\ matchesTerm x note).
Proof.
  unfold exec, result, getFilteredNotes, bind, get, ret. simpl.
  destruct (truthy (trim x)) eqn:Htrim; simpl.
  - assert (Hx : whitespaceOnly x = false).
    { destruct (whitespaceOnly x) eqn:Hw; [|done].
      apply trim_falsy_iff in Hw. congruence. }
    rewrite Hx. split; [done|]. split; [done|]. split; [done|].
    split; [apply filter_sublist|]. intros _ note.
    by rewrite elem_of_filter, matchesSearch_matchesTerm.
  - apply trim_falsy_iff in Htrim. rewrite Htrim.
    split; [done|]. split; [done|]. split; [done|]. split; [done|]. done.
Qed.

Lemma getFilteredNotes_sublist_exact_unless_blank_witness :
  result (getFilteredNotes "   ") (initialState Sample.seed)
    = notes (initialState Sample.seed) /\
  (forall note, note ∈ result (getFilteredNotes "TIPTAP") (initialState Sample.seed) <->
                note ∈ notes (initialState Sample.seed) /\ matchesTerm "TIPTAP" note).
Proof.
  split.
  - apply (getFilteredNotes_sublist_exact_unless_blank (initialState Sample.seed) "   ").
    reflexivity.
  - apply (getFilteredNotes_sublist_exact_unless_blank (initialState Sample.seed) "TIPTAP").
    reflexivity.
Defined.
End FilterClaims.

(** * Properties of the response matcher *)

Section ChatClaims.
Import Chat.
Implicit Types (query queryLower : string) (context : list string) (rnd : Random).

Lemma randomIndex_lt rnd n : (0 < n)%nat -> (randomIndex rnd n < n)%nat.
Proof.
  intros Hn. unfold randomIndex. pose proof (in_range rnd) as Hr.
  apply Nat.ltb_lt in Hr. apply Nat.Div0.div_lt_upper_bound. nia.
Qed.

Lemma randomEntry_elem_of {A} rnd (arr : list A) d :
  arr <> [] -> randomEntry rnd arr d ∈ arr.
Proof.
  intros Hne. unfold randomEntry. apply list_elem_of_In, nth_In.
  apply randomIndex_lt. destruct arr; [done | simpl; lia].
Qed.

(** Every index of an array is the floor of some reading of [Math.random()]
    times its length. *)
Lemma randomIndex_onto n i : (i < n)%nat -> exists rnd, randomIndex rnd n = i.
Proof.
  intros Hi.
  assert (Hr : (i <? n)%nat = true) by by apply Nat.ltb_lt.
  exists (mkRandom i n Hr). unfold randomIndex. simpl.
  apply Nat.div_mul. lia.
Qed.

Lemma detectTopics_elem_of queryLower topic :
  topic ∈ NOTE_TOPICS -> includes queryLower (toLowerCase topic) = true ->
  topic ∈ detectTopics queryLower.
Proof.
  intros Hin Hinc. unfold detectTopics. by apply elem_of_filter.
Qed.

(** C8.  An utterance whose lower-case form contains "markdown" and none of
    "?", "how" and "what" gets the markdown notice, whatever else it
    contains, whatever the context and the random reading. *)
Theorem markdown_mention_gets_topic_notice query context rnd :
  occursIn "markdown" (toLowerCase query) ->
  ~ occursIn "?" (toLowerCase query) ->
  ~ occursIn "how" (toLowerCase query) ->
  ~ occursIn "what" (toLowerCase query) ->
  generateIntelligentResponse query context rnd = markdownNotice.
Proof.
  intros Hmd Hq Hhow Hwhat.
  apply includes_occursIn in Hmd.
  apply includes_not_occursIn in Hq, Hhow, Hwhat.
  assert (Hin : "markdown" ∈ detectTopics (toLowerCase query)).
  { apply detectTopics_elem_of; [|exact Hmd].
    unfold NOTE_TOPICS. do 6 apply list_elem_of_further. apply list_elem_of_here. }
  unfold generateIntelligentResponse. cbn [firstReturn].
  unfold topicRule. rewrite Hq, Hhow, Hwhat.
  destruct (detectTopics (toLowerCase query)) as [|t ts] eqn:Hd;
    [by apply elem_of_nil in Hin|].
  cbn [length Nat.ltb Nat.leb negb andb].
  unfold arrayIncludes at 1. by rewrite bool_decide_eq_true_2.
Qed.

Lemma markdown_mention_gets_topic_notice_witness :
  generateIntelligentResponse "I love Markdown, keyboard shortcuts, bold and lists"
    ["earlier message"] (mkRandom 3 7 eq_refl) = markdownNotice.
Proof.
  apply markdown_mention_gets_topic_notice.
  - apply includes_occursIn. vm_compute. reflexivity.
  - apply includes_not_occursIn. vm_compute. reflexivity.
  - apply includes_not_occursIn. vm_compute. reflexivity.
  - apply includes_not_occursIn. vm_compute. reflexivity.
Defined.

(** C9.  When none of the earlier blocks decides the utterance and the
    context is empty, the reply is, for every reading of [Math.random()],
    one of five strings: four that are the same for every utterance, or the
    echo, which quotes the first 30 characters of the utterance as typed
    (the whole utterance when it is shorter) between two fixed texts.  Each
    of the five is the reply for some reading. *)
Theorem fallback_when_nothing_matches query :
  noEarlierRuleMatches query ->
  let generic :=
    [ "That's an interesting question. To help you better with your notes, could you provide more specific details about what you're trying to accomplish?";
      "I'd be happy to help with that. Could you share a bit more about the specific challenge you're facing with your notes?";
      "Great question! The editor supports many features that might help with this. What specific outcome are you looking for?";
      "I can definitely help with that. Let me know if you'd like me to explain any particular feature in more detail." ] in
  let echo first30 :=
    "I understand you're asking about " +:+ first30 +:+
    "... Could you tell me more about what you're trying to achieve so I can provide more targeted assistance?" in
  exists first30 rest,
    query = first30 +:+ rest /\
    String.length first30 = Nat.min 30 (String.length query) /\
    (forall rnd,
       generateIntelligentResponse query [] rnd ∈ generic \/
       generateIntelligentResponse query [] rnd = echo first30) /\
    (forall reply,
       reply ∈ generic \/ reply = echo first30 ->
       exists rnd, generateIntelligentResponse query [] rnd = reply).
Proof.
  intros (Htopic & Hgreet & Hthank & Hquestion & Htemplate & Hhelp) generic echo.
  assert (Hrun : forall rnd,
            generateIntelligentResponse query [] rnd = fallback query rnd).
  { intros rnd. unfold generateIntelligentResponse.
    rewrite Htopic, Hgreet, Hthank, Hquestion, Htemplate, Hhelp. reflexivity. }
  assert (Hlist : forall reply,
            reply ∈ thoughtfulResponses query <->
            reply ∈ generic \/ reply = echo (substring0 30 query)).
  { intros reply. unfold thoughtfulResponses, generic, echo.
    rewrite !elem_of_cons. pose proof (elem_of_nil reply) as Hnil. tauto. }
  destruct (substring0_prefix 30 query) as (rest & Hq & Hlen).
  exists (substring0 30 query), rest.
  split; [exact Hq|]. split; [exact Hlen|]. split.
  - intros rnd. apply Hlist. rewrite Hrun. by apply randomEntry_elem_of.
  - intros reply Hin. apply Hlist in Hin.
    apply list_elem_of_lookup in Hin as (i & Hi).
    pose proof (lookup_lt_Some _ _ _ Hi) as Hlt.
    destruct (randomIndex_onto (length (thoughtfulResponses query)) i Hlt)
      as (rnd & Hrnd).
    exists rnd. rewrite Hrun. unfold fallback, randomEntry. rewrite Hrnd.
    apply nth_lookup_Some with (d := "") in Hi. exact Hi.
Qed.

Lemma fallback_when_nothing_matches_witness :
  noEarlierRuleMatches "Remind me to water the plants on Thursday evening" /\
  exists first30 rest,
    "Remind me to water the plants on Thursday evening" = first30 +:+ rest /\
    String.length first30 = 30%nat /\
    generateIntelligentResponse "Remind me to water the plants on Thursday evening" []
        (mkRandom 1 5 eq_refl)
      = "I understand you're asking about " +:+ first30 +:+
        "... Could you tell me more about what you're trying to achieve so I can provide more targeted assistance?".
Proof.
  assert (Hno : noEarlierRuleMatches "Remind me to water the plants on Thursday evening").
  { unfold noEarlierRuleMatches. cbv zeta.
    split; [vm_compute; reflexivity|].
    split; [vm_compute; reflexivity|].
    split; [vm_compute; reflexivity|].
    split; [intros rnd; reflexivity|].
    split; vm_compute; reflexivity. }
  split; [exact Hno|].
  destruct (fallback_when_nothing_matches _ Hno) as (first30 & rest & Hq & Hlen & Hall & _).
  exists first30, rest. split; [exact Hq|]. split; [exact Hlen|].
  destruct (Hall (mkRandom 1 5 eq_refl)) as [Hgen | Hecho]; [|exact Hecho].
  exfalso. revert Hgen.
  assert (Hval : generateIntelligentResponse
                   "Remind me to water the plants on Thursday evening" []
                   (mkRandom 1 5 eq_refl)
                 = "I understand you're asking about Remind me to water the plants ... Could you tell me more about what you're trying to achieve so I can provide more targeted assistance?")
    by (vm_compute; reflexivity).
  rewrite Hval, !elem_of_cons.
  intros [H|[H|[H|[H|H]]]]; [discriminate H..|by apply elem_of_nil in H].
Defined.
End ChatClaims.

(** * Properties of the autosave coordinator *)

Section AutosaveFacts.
Import Autosave.
Implicit Types (v : View) (r : Render) (t : Timer) (e : Event).

Lemma rerender_S fuel v :
  rerender (S fuel) v =
    if bool_decide (render (commitEffects v) = render v)
    then commitEffects v else rerender fuel (commitEffects v).
Proof. reflexivity. Qed.

Lemma rerender_fixed v fuel : commitEffects v = v -> rerender fuel v = v.
Proof.
  intros Hv. destruct fuel as [|fuel]; [done|]. simpl.
  rewrite Hv. by rewrite bool_decide_eq_true_2.
Qed.

Lemma commitEffects_settled v : settled v -> commitEffects v = v.
Proof.
  intros [Hi Ha _ _]. unfold commitEffects.
  rewrite (bool_decide_eq_false_2 (initDeps v <> _)) by (intros H; by apply H).
  rewrite (bool_decide_eq_false_2 (autosaveDeps v <> _)) by (intros H; by apply H).
  simpl. destruct v; simpl in *. unfold with_deps. simpl. by rewrite Hi, Ha.
Qed.

Lemma update_settled v : settled v -> update v = v.
Proof. intros Hv. apply rerender_fixed. by apply commitEffects_settled. Qed.

End AutosaveFacts.

Section AutosaveCascade.
Import Autosave.
Implicit Types (v : View) (r : Render) (t : Timer) (e : Event).

Lemma commitEffects_stale r0 v :
  stale r0 v -> render v <> r0 -> pass r0 v (commitEffects v).
Proof.
  intros [Hi Ha Ht Hh] Hne.
  unfold commitEffects. rewrite Ha, Hi.
  rewrite (bool_decide_eq_true_2 (Some r0 <> Some (render v))) by congruence.
  unfold render in *. remember (result getActiveNote (store v)) as act eqn:Hact.
  destruct v as [st c ti ed ss ref iD aD tm nh ck cm]. simpl in *.
  assert (Hcl : match ref with
                | Some h => List.filter (fun t => negb (handle t =? h)%nat) tm = []
                | None => tm = []
                end).
  { destruct Ht as [-> | (t & -> & ->)]; [by destruct ref|]. simpl.
    by rewrite Nat.eqb_refl. }
  clear Ht.
  unfold autosaveCleanup, clearSaveTimeout, initEffect, autosaveEffect, clearSaveTimeout.
  simpl.
  destruct act as [n|]; simpl.
  - destruct (decide (Some (Note.id n) = Note.id <$> r_activeNote r0)) as [Hid|Hid].
    + rewrite <- Hid. rewrite bool_decide_eq_false_2 by (intros H; by apply H).
      destruct ed, ref as [h|]; unfold clearTimeout; simpl in *; rewrite Hcl; simpl;
        (split; unfold render; simpl; rewrite <- ?Hact; simpl; rewrite ?decide_True by done;
         try done; try (intros h' [= <-]; lia); try (intros h' [= <-]; by apply Hh)).
    + rewrite bool_decide_eq_true_2 by congruence.
      destruct ed, ref as [h|]; unfold clearTimeout; simpl in *; rewrite Hcl; simpl;
        (split; unfold render; simpl; rewrite <- ?Hact; simpl; rewrite ?decide_False by done;
         try done; try (intros h' [= <-]; lia); try (intros h' [= <-]; by apply Hh)).
  - rewrite andb_false_r.
    destruct (bool_decide (Some (Note.id <$> r_activeNote r0) <> Some None)),
      ref as [h|]; unfold clearTimeout; simpl in *; rewrite Hcl;
      (split; unfold render; simpl; rewrite <- ?Hact; simpl; rewrite ?andb_false_r;
       try done; try (intros h' [= <-]; by apply Hh)).
Qed.
End AutosaveCascade.

Section AutosaveUpdate.
Import Autosave.
Implicit Types (v : View) (r : Render) (t : Timer) (e : Event).

Lemma render_eq v v' :
  store v' = store v -> content v' = content v -> title v' = title v ->
  isEdited v' = isEdited v -> render v' = render v.
Proof. unfold render. by intros -> -> -> ->. Qed.

Lemma render_isEdited v v' : render v' = render v -> isEdited v' = isEdited v.
Proof. intros H. exact (f_equal r_isEdited H). Qed.

Lemma pass_settled r0 v v' :
  pass r0 v v' -> render v' = render v ->
  settled v' /\
  if isEdited v && bool_decide (is_Some (r_activeNote (render v)))
  then armedBy v' (mkTimer (nextHandle v) (clock v + 1000) (render v))
  else timers v' = [].
Proof.
  intros [Hs Hc Hk Hi Ha Hh Hst Ht] Hr.
  assert (Harm : if isEdited v && bool_decide (is_Some (r_activeNote (render v)))
    then armedBy v' (mkTimer (nextHandle v) (clock v + 1000) (render v))
    else timers v' = []).
  { destruct (isEdited v) eqn:He; simpl in *; [|done].
    case_bool_decide as Hact; [|done]. destruct Ht as [Ht Href].
    unfold armedBy. simpl. rewrite Hr, Hk.
    assert (isEdited v' = true) as -> by (by rewrite (render_isEdited _ _ Hr)).
    split_and!; try done; [by rewrite Hs | lia]. }
  split; [|exact Harm].
  split.
  - by rewrite Hr.
  - by rewrite Hr.
  - destruct (isEdited v && bool_decide (is_Some (r_activeNote (render v))));
      [right; eauto | by left].
  - exact Hh.
Qed.

Lemma pass_stale r0 v v' : pass r0 v v' -> stale (render v) v'.
Proof.
  intros [Hs Hc Hk Hi Ha Hh Hst Ht]. split; try done.
  destruct (isEdited v && bool_decide (is_Some (r_activeNote (render v))));
    [|by left].
  right. destruct Ht as [Ht Href]. eexists. split; [exact Ht|]. by rewrite Href.
Qed.

Lemma rerender_stale r0 v fuel :
  stale r0 v -> render v <> r0 -> updated r0 v (rerender (2 + fuel) v).
Proof.
  intros Hst Hne.
  pose proof (commitEffects_stale _ _ Hst Hne) as P1.
  cbn [rerender Nat.add].
  case_bool_decide as Hr1.
  - (* the first render settles *)
    destruct (pass_settled _ _ _ P1 Hr1) as [Hsettled Harm].
    destruct P1 as [Hs Hc Hk Hi Ha Hh Hstate Ht].
    split; try done.
    destruct (r_activeNote (render v)) as [n|] eqn:Hact.
    + rewrite bool_decide_eq_true_2, andb_true_r in Harm by eauto.
      destruct (decide (Some (Note.id n) = Note.id <$> r_activeNote r0)).
      * destruct Hstate as (? & ? & ?). done.
      * destruct Hstate as (? & ? & He). split; [done|]. split; [done|].
        split; [done|].
        assert (isEdited v = false) as Hv
          by (by rewrite <- He, (render_isEdited _ _ Hr1)).
        by rewrite Hv in Harm.
    + rewrite andb_false_r in Harm. destruct Hstate as (? & ? & ?). done.
  - (* the init effect changed the state: a second render *)
    pose proof (pass_stale _ _ _ P1) as Hst1.
    pose proof (commitEffects_stale _ _ Hst1 Hr1) as P2.
    assert (Hact1 : r_activeNote (render (commitEffects v)) = r_activeNote (render v)).
    { unfold render. cbn [r_activeNote]. by rewrite (pass_store _ _ _ P1). }
    destruct (r_activeNote (render v)) as [n|] eqn:Hact; cycle 1.
    { exfalso. apply Hr1. pose proof (pass_state _ _ _ P1) as Hstate.
      rewrite Hact in Hstate. destruct Hstate as (? & ? & ?).
      apply render_eq; try done. apply (pass_store _ _ _ P1). }
    destruct (decide (Some (Note.id n) = Note.id <$> r_activeNote r0)) as [Hid|Hid].
    { exfalso. apply Hr1. pose proof (pass_state _ _ _ P1) as Hstate.
      rewrite Hact in Hstate. rewrite decide_True in Hstate by done.
      destruct Hstate as (? & ? & ?). apply render_eq; try done.
      apply (pass_store _ _ _ P1). }
    pose proof (pass_state _ _ _ P1) as Hstate1.
    rewrite Hact, decide_False in Hstate1 by done.
    destruct Hstate1 as (Hc1 & Ht1 & He1).
    assert (Hr2 : render (commitEffects (commitEffects v)) = render (commitEffects v)).
    { pose proof (pass_state _ _ _ P2) as Hstate2.
      rewrite Hact1 in Hstate2. cbv beta iota in Hstate2. rewrite Hact in Hstate2.
      rewrite decide_True in Hstate2 by done.
      destruct Hstate2 as (? & ? & ?). apply render_eq; try done.
      apply (pass_store _ _ _ P2). }
    rewrite bool_decide_eq_true_2 by exact Hr2.
    destruct (pass_settled _ _ _ P2 Hr2) as [Hsettled Harm].
    rewrite He1 in Harm. cbn [andb] in Harm.
    pose proof (pass_state _ _ _ P2) as Hstate2.
    rewrite Hact1 in Hstate2. cbv beta iota in Hstate2. rewrite Hact in Hstate2.
    rewrite decide_True in Hstate2 by done.
    destruct Hstate2 as (Hc2 & Ht2 & He2).
    destruct P1 as [Hs1 Hcm1 Hk1 _ _ _ _ _]. destruct P2 as [Hs2 Hcm2 Hk2 _ _ _ _ _].
    split.
    + by rewrite Hs2.
    + by rewrite Hcm2.
    + by rewrite Hk2.
    + exact Hsettled.
    + rewrite Hc2, Ht2, He2, Hact. by rewrite decide_False.
Qed.

Lemma update_stale r0 v :
  stale r0 v -> render v <> r0 -> updated r0 v (update v).
Proof. apply (rerender_stale r0 v 1). Qed.

Lemma commitEffects_fixed r0 v : stale r0 v -> render v = r0 -> commitEffects v = v.
Proof.
  intros [Hi Ha _ _] Heq. unfold commitEffects.
  rewrite (bool_decide_eq_false_2 (initDeps v <> _))
    by (intros H; apply H; by rewrite Hi, Heq).
  rewrite (bool_decide_eq_false_2 (autosaveDeps v <> _))
    by (intros H; apply H; by rewrite Ha, Heq).
  simpl. destruct v; simpl in *. unfold with_deps. simpl.
  by rewrite Hi, Ha, <- Heq.
Qed.

(** Two renders are enough after an event: more fuel gives the same view. *)
Lemma rerender_enough r0 v fuel :
  stale r0 v -> rerender (2 + fuel) v = rerender 2 v.
Proof.
  intros Hst. destruct (decide (render v = r0)) as [Heq|Hne].
  - pose proof (commitEffects_fixed _ _ Hst Heq) as Hfix.
    by rewrite !rerender_fixed.
  - pose proof (rerender_stale _ _ 0 Hst Hne) as Hup.
    pose proof (commitEffects_settled _ (updated_settled _ _ _ Hup)) as Hfix.
    revert Hup Hfix. cbn [rerender Nat.add].
    repeat case_bool_decide; intros Hup Hfix; try done.
    by apply rerender_fixed.
Qed.

Lemma update_enough r0 v fuel : stale r0 v -> rerender (3 + fuel) v = update v.
Proof.
  intros Hst. unfold update.
  change (3 + fuel)%nat with (2 + S fuel)%nat. change 3%nat with (2 + 1)%nat.
  by rewrite !(rerender_enough r0 v _ Hst).
Qed.
End AutosaveUpdate.

Section AutosaveEvents.
Import Autosave.
Implicit Types (v : View) (r : Render) (t : Timer) (e : Event) (n : Note.t).

Lemma find_id_Forall2 (P : Note.t -> Prop) `{!forall x, Decision (P x)}
    (l l' : list Note.t) :
  (forall a b, Note.id b = Note.id a -> P a <-> P b) ->
  Forall2 (fun a b => Note.id b = Note.id a) l l' ->
  Note.id <$> find P l' = Note.id <$> find P l.
Proof.
  intros HP. unfold find. induction 1 as [|a b l l' Hab Hl IH]; [done|].
  cbn [list_find].
  destruct (decide (P a)) as [Ha|Ha], (decide (P b)) as [Hb|Hb]; simpl.
  - by rewrite Hab.
  - by apply (HP a b Hab) in Ha.
  - by apply (HP a b Hab) in Hb.
  - destruct (list_find _ l') as [[i x]|], (list_find _ l) as [[j y]|];
      simpl in *; congruence.
Qed.

Lemma updateNote_ids s id data now :
  activeNoteId (exec (updateNote id data now) s) = activeNoteId s /\
  Forall2 (fun a b => Note.id b = Note.id a)
          (notes s) (notes (exec (updateNote id data now) s)).
Proof.
  assert (Hrefl : Forall2 (fun a b => Note.id b = Note.id a) (notes s) (notes s)).
  { apply Forall_Forall2_diag, Forall_forall. done. }
  destruct (updateNote_cases s id data now) as [-> | (i & n & _ & Hl & _ & _ & ->)];
    [done|].
  split; [reflexivity|]. simpl.
  rewrite <- (list_insert_id (notes s) i n Hl) at 1.
  by apply Forall2_insert.
Qed.

(** [updateNote] keeps the id of the active note. *)
Lemma updateNote_activeNote_id s id data now :
  Note.id <$> result getActiveNote (exec (updateNote id data now) s) =
  Note.id <$> result getActiveNote s.
Proof.
  destruct (updateNote_ids s id data now) as [Ha Hn].
  unfold result, getActiveNote, bind, get, ret. simpl. rewrite Ha.
  apply find_id_Forall2; [|exact Hn]. intros a b Hab. by rewrite Hab.
Qed.

Lemma settled_stale v v1 :
  settled v ->
  initDeps v1 = initDeps v -> autosaveDeps v1 = autosaveDeps v ->
  timers v1 = timers v -> saveTimeoutRef v1 = saveTimeoutRef v ->
  nextHandle v1 = nextHandle v ->
  stale (render v) v1.
Proof.
  intros [Hi Ha Ht Hh] Ei Ea Et Er En. split.
  - by rewrite Ei.
  - by rewrite Ea.
  - rewrite Et, Er. destruct Ht as [Ht | (t & Ht & Href & _)]; [by left|].
    right. by exists t.
  - rewrite Er, En. exact Hh.
Qed.

(** An edit that changes something arms one timer, a second after the
    edit, for the active note and the edited title and content. *)
Lemma edit_arms v e n :
  settled v -> r_activeNote (render v) = Some n -> effectiveEdit v e ->
  let v' := step v e in
  settled v' /\ store v' = store v /\ commits v' = commits v /\ clock v' = clock v /\
  isEdited v' = true /\
  armedBy v' (mkTimer (nextHandle v) (clock v + 1000) (render v')) /\
  match e with
  | TitleChange value => title v' = value /\ content v' = content v
  | ContentChange newContent => content v' = newContent /\ title v' = title v
  | _ => True
  end.
Proof.
  intros Hv Hact Heff.
  assert (Hgen : forall v1,
    stale (render v) v1 -> render v1 <> render v ->
    store v1 = store v -> commits v1 = commits v -> clock v1 = clock v ->
    nextHandle v1 = nextHandle v -> isEdited v1 = true ->
    let v' := update v1 in
    settled v' /\ store v' = store v /\ commits v' = commits v /\ clock v' = clock v /\
    isEdited v' = true /\
    armedBy v' (mkTimer (nextHandle v) (clock v + 1000) (render v')) /\
    title v' = title v1 /\ content v' = content v1).
  { intros v1 Hst Hne Es Ec Ek En Ee. simpl.
    destruct (update_stale _ _ Hst Hne) as [Us Uc Uk Uset Ust].
    assert (Hact1 : r_activeNote (render v1) = Some n).
    { unfold render in *. simpl in *. by rewrite Es. }
    rewrite Hact1, Hact in Ust. simpl in Ust. rewrite decide_True in Ust by done.
    destruct Ust as (Hc & Ht & He & Harm).
    assert (Hr : render (update v1) = render v1) by (by apply render_eq).
    rewrite Ee in Harm, He. rewrite Hr, <- En, <- Ek.
    split_and!; try done; congruence. }
  destruct e as [value | newContent | |]; simpl in Heff; try done.
  - destruct (Hgen (handleTitleChange value v)) as (?&?&?&?&?&?&?&?); try done.
    + by apply settled_stale.
    + unfold render. simpl. intros [= H1 H2]. destruct Heff; congruence.
  - destruct (Hgen (handleContentChange newContent v)) as (?&?&?&?&?&?&?&?); try done.
    + by apply settled_stale.
    + unfold render. simpl. intros [= H1 H2]. destruct Heff; congruence.
Qed.

Lemma with_clock_timers now v : timers (with_clock now v) = timers v.
Proof. reflexivity. Qed.

Lemma with_clock_commits now v : commits (with_clock now v) = commits v.
Proof. reflexivity. Qed.

Lemma with_clock_store now v : store (with_clock now v) = store v.
Proof. reflexivity. Qed.

Lemma step_Elapse v ms : step v (Elapse ms) = elapse ms v.
Proof. reflexivity. Qed.

Lemma earliest_single deadline t :
  earliest deadline [t] = if (fireAt t <=? deadline)%Z then Some t else None.
Proof. reflexivity. Qed.

Lemma settled_with_clock v now :
  settled v -> (clock v <= now)%Z ->
  (forall t, armedBy v t -> (now < fireAt t)%Z) ->
  settled (with_clock now v).
Proof.
  intros [Hi Ha Ht Hh] Hnow Hdue. split; try done.
  destruct Ht as [Ht | (t & Harm)]; [by left|]. right. exists t.
  pose proof (Hdue t Harm) as Hlt.
  destruct Harm as (H1 & H2 & H3 & H4 & H5 & H6).
  unfold armedBy. simpl. split_and!; try done; lia.
Qed.

(** Time that passes with no timer pending changes the clock only. *)
Lemma elapse_idle v ms :
  timers v = [] -> elapse ms v = with_clock (clock v + Z.of_N ms) v.
Proof. intros Ht. unfold elapse. rewrite Ht. reflexivity. Qed.

(** Time that stops short of the pending timer changes the clock only. *)
Lemma elapse_early v t ms :
  timers v = [t] -> (clock v + Z.of_N ms < fireAt t)%Z ->
  elapse ms v = with_clock (clock v + Z.of_N ms) v.
Proof.
  intros Ht Hlt. unfold elapse. rewrite Ht. cbn [length fireDue].
  rewrite Ht, earliest_single.
  by rewrite (proj2 (Z.leb_gt _ _)) by lia.
Qed.

(** The pending timer, when it fires, makes one commit for the active note
    with the title and content of the view, and leaves no timer. *)
Lemma fire_commits v t n :
  settled v -> armedBy v t -> r_activeNote (render v) = Some n ->
  let v' := fire t v in
  settled v' /\ timers v' = [] /\ clock v' = fireAt t /\
  commits v' = commits v ++ [commitOf (fireAt t) n v] /\
  store v' = exec (updateNote (Note.id n)
                     (Note.titleAndContent (title v) (content v)) (fireAt t))
                  (store v) /\
  title v' = title v /\ content v' = content v /\ isEdited v' = false.
Proof.
  intros Hv Harm Hact. simpl.
  destruct Harm as (Ht & Href & Hcb & He & _ & Hclock).
  unfold fire. rewrite Hcb.
  change (clock (clearTimeout (handle t) v)) with (clock v).
  set (v0 := with_clock (Z.max (clock v) (fireAt t)) (clearTimeout (handle t) v)).
  assert (Hmax : Z.max (clock v) (fireAt t) = fireAt t) by lia.
  assert (Hst : stale (render v) (handleSave (render v) v0)).
  { destruct Hv as [Hi Ha _ Hh]. unfold handleSave. rewrite Hact.
    split; simpl; try done.
    left. rewrite Ht. simpl. by rewrite Nat.eqb_refl. }
  assert (Hne : render (handleSave (render v) v0) <> render v).
  { unfold handleSave. rewrite Hact. unfold render. simpl. rewrite He.
    intros [= _]. }
  destruct (update_stale _ _ Hst Hne) as [Us Uc Uk Uset Ust].
  assert (Hs1 : store (handleSave (render v) v0) =
                exec (updateNote (Note.id n)
                        (Note.titleAndContent (title v) (content v)) (fireAt t))
                     (store v)).
  { unfold handleSave. rewrite Hact. simpl. by rewrite Hmax. }
  assert (Hid : Note.id <$> r_activeNote (render (handleSave (render v) v0)) =
                Some (Note.id n)).
  { change (r_activeNote (render (handleSave (render v) v0)))
      with (result getActiveNote (store (handleSave (render v) v0))).
    rewrite Hs1, updateNote_activeNote_id.
    change (result getActiveNote (store v)) with (r_activeNote (render v)).
    by rewrite Hact. }
  destruct (r_activeNote (render (handleSave (render v) v0))) as [n'|] eqn:Hact';
    [|done].
  injection Hid as Hid. rewrite Hact in Ust. simpl in Ust.
  rewrite decide_True in Ust by (by rewrite Hid).
  destruct Ust as (Hc & Hti & Hed & Htm).
  assert (Hfalse : isEdited (handleSave (render v) v0) = false).
  { unfold handleSave. by rewrite Hact. }
  rewrite Hfalse in Htm, Hed.
  split_and!; try done.
  - rewrite Uk. unfold handleSave. rewrite Hact. simpl. exact Hmax.
  - rewrite Uc. unfold handleSave. rewrite Hact. simpl. by rewrite Hmax.
  - by rewrite Us.
  - rewrite Hti. unfold handleSave. by rewrite Hact.
  - rewrite Hc. unfold handleSave. by rewrite Hact.
Qed.
End AutosaveEvents.

Section AutosaveInvariant.
Import Autosave.
Implicit Types (v : View) (r : Render) (t : Timer) (e : Event) (n : Note.t).

Lemma settled_same_render v v1 :
  settled v -> render v1 = render v ->
  initDeps v1 = initDeps v -> autosaveDeps v1 = autosaveDeps v ->
  timers v1 = timers v -> saveTimeoutRef v1 = saveTimeoutRef v ->
  nextHandle v1 = nextHandle v -> clock v1 = clock v ->
  settled v1.
Proof.
  intros [Hi Ha Ht Hh] Hr Ei Ea Et Er En Ek. split.
  - by rewrite Hr, Ei.
  - by rewrite Hr, Ea.
  - rewrite Et. destruct Ht as [Ht | (t & Harm)]; [by left|]. right. exists t.
    destruct Harm as (H1 & H2 & H3 & H4 & H5 & H6). unfold armedBy.
    rewrite Et, Er, Hr, Ek, (render_isEdited _ _ Hr). done.
  - rewrite Er, En. exact Hh.
Qed.

(** A change of the store keeps the view settled. *)
Lemma storeChange_settled v action :
  settled v -> settled (step v (StoreChange action)).
Proof.
  intros Hv. simpl. set (v1 := with_store (exec action (store v)) v).
  destruct (decide (render v1 = render v)) as [Hr|Hr].
  - assert (Hv1 : settled v1) by (by apply (settled_same_render v)).
    by rewrite update_settled.
  - assert (Hst : stale (render v) v1) by (by apply settled_stale).
    apply (updated_settled _ _ _ (update_stale _ _ Hst Hr)).
Qed.

(** Switching the active note (to a note with another id, or to none)
    leaves no timer pending, commits nothing, and loads the new note. *)
Lemma switch_cancels v action :
  settled v ->
  Note.id <$> result getActiveNote (exec action (store v))
    <> Note.id <$> result getActiveNote (store v) ->
  let v' := step v (StoreChange action) in
  settled v' /\ timers v' = [] /\ commits v' = commits v /\ clock v' = clock v /\
  store v' = exec action (store v) /\
  match result getActiveNote (exec action (store v)) with
  | Some n' =>
      title v' = Note.title n' /\ content v' = Note.content n' /\ isEdited v' = false
  | None => title v' = title v /\ content v' = content v /\ isEdited v' = isEdited v
  end.
Proof.
  intros Hv Hid. simpl. set (v1 := with_store (exec action (store v)) v).
  assert (Hst : stale (render v) v1) by (by apply settled_stale).
  assert (Hr : render v1 <> render v).
  { intros Hr. apply Hid. exact (f_equal (fun r => Note.id <$> r_activeNote r) Hr). }
  destruct (update_stale _ _ Hst Hr) as [Us Uc Uk Uset Ust].
  change (r_activeNote (render v1)) with (result getActiveNote (exec action (store v)))
    in Ust.
  change (r_activeNote (render v)) with (result getActiveNote (store v)) in Ust.
  split; [done|].
  destruct (result getActiveNote (exec action (store v))) as [n'|] eqn:Hact'.
  - rewrite decide_False in Ust by done.
    destruct Ust as (? & ? & ? & ?). done.
  - destruct Ust as (? & ? & ? & ?). done.
Qed.

Lemma edit_settled v e :
  settled v ->
  match e with TitleChange _ | ContentChange _ => settled (step v e) | _ => True end.
Proof.
  intros Hv. destruct e as [value | newContent | |]; try done; simpl.
  - set (v1 := handleTitleChange value v).
    destruct (decide (render v1 = render v)) as [Hr|Hr].
    + assert (Hv1 : settled v1) by (by apply (settled_same_render v)).
      by rewrite update_settled.
    + assert (Hst : stale (render v) v1) by (by apply settled_stale).
      apply (updated_settled _ _ _ (update_stale _ _ Hst Hr)).
  - set (v1 := handleContentChange newContent v).
    destruct (decide (render v1 = render v)) as [Hr|Hr].
    + assert (Hv1 : settled v1) by (by apply (settled_same_render v)).
      by rewrite update_settled.
    + assert (Hst : stale (render v) v1) by (by apply settled_stale).
      apply (updated_settled _ _ _ (update_stale _ _ Hst Hr)).
Qed.

(** What the passing of time does to a settled view: nothing but move the
    clock while the pending timer is not due; one commit, for the active
    note with the title and content of the view, when it is. *)
Lemma elapse_settled v ms :
  settled v ->
  let v' := step v (Elapse ms) in
  settled v' /\ clock v' = (clock v + Z.of_N ms)%Z /\
  ((timers v = [] /\ v' = with_clock (clock v + Z.of_N ms) v) \/
   (exists t, armedBy v t /\ (clock v + Z.of_N ms < fireAt t)%Z /\
              v' = with_clock (clock v + Z.of_N ms) v) \/
   (exists t n, armedBy v t /\ (fireAt t <= clock v + Z.of_N ms)%Z /\
                r_activeNote (render v) = Some n /\
                v' = with_clock (clock v + Z.of_N ms) (fire t v) /\
                timers v' = [] /\
                commits v' = commits v ++ [commitOf (fireAt t) n v])).
Proof.
  intros Hv. cbv zeta. change (step v (Elapse ms)) with (elapse ms v).
  destruct (settled_timers _ Hv) as [Ht | (t & Harm)].
  - rewrite (elapse_idle _ _ Ht). split; [|split; [done|by left]].
    apply settled_with_clock; [done | lia |].
    intros t (Ht' & _). congruence.
  - pose proof Harm as (Ht & _ & _ & _ & [n Hact] & Hclock).
    destruct (Z.lt_ge_cases (clock v + Z.of_N ms) (fireAt t)) as [Hlt|Hge].
    + rewrite (elapse_early _ _ _ Ht Hlt). split; [|split; [done|right; left]].
      * apply settled_with_clock; [done | lia |].
        intros t' (Ht' & _). congruence.
      * by exists t.
    + destruct (fire_commits v t n Hv Harm Hact)
        as (Hset & Htm & Hck & Hcm & _).
      assert (Hel : elapse ms v = with_clock (clock v + Z.of_N ms) (fire t v)).
      { unfold elapse. rewrite Ht. cbn [length fireDue].
        rewrite Ht, earliest_single.
        by rewrite (proj2 (Z.leb_le _ _)) by lia. }
      rewrite Hel. split; [|split; [done|right; right]].
      * apply settled_with_clock; [done | lia |].
        intros t' (Ht' & _). congruence.
      * exists t, n. rewrite with_clock_timers, with_clock_commits.
        split_and!; [exact Harm | exact Hge | exact Hact | reflexivity
                    | exact Htm | exact Hcm].
Qed.

Lemma step_settled v e : settled v -> settled (step v e).
Proof.
  intros Hv. destruct e as [value | newContent | action | ms].
  - apply (edit_settled v (TitleChange value) Hv).
  - apply (edit_settled v (ContentChange newContent) Hv).
  - by apply storeChange_settled.
  - by apply elapse_settled.
Qed.

(** The first render of the component. *)
Lemma commitEffects_unmounted s now :
  pass (mkRender None "" "" false) (unmounted s now) (commitEffects (unmounted s now)).
Proof.
  unfold commitEffects, unmounted, render. simpl.
  destruct (result getActiveNote s) as [n|] eqn:Hact; simpl.
  - split; unfold render; simpl; rewrite ?Hact; simpl; try done.
  - split; unfold render; simpl; rewrite ?Hact; simpl; try done.
Qed.

Lemma mount_settled s now : settled (mount s now).
Proof.
  unfold mount. pose proof (commitEffects_unmounted s now) as P1.
  generalize dependent (unmounted s now). intros v0 P1.
  unfold update. rewrite rerender_S.
  case_bool_decide as Hr.
  - by destruct (pass_settled _ _ _ P1 Hr).
  - pose proof (pass_stale _ _ _ P1) as Hst.
    exact (updated_settled _ _ _ (rerender_stale _ _ 0 Hst Hr)).
Qed.

(** Three renders are enough at mount: more fuel gives the same view. *)
Lemma mount_enough s now fuel : rerender (3 + fuel) (unmounted s now) = mount s now.
Proof.
  unfold mount. pose proof (commitEffects_unmounted s now) as P1.
  generalize dependent (unmounted s now). intros v0 P1.
  unfold update. change (3 + fuel)%nat with (S (2 + fuel)).
  rewrite (rerender_S (2 + fuel)), (rerender_S 2).
  case_bool_decide as Hr; [reflexivity|].
  exact (rerender_enough _ _ fuel (pass_stale _ _ _ P1)).
Qed.

(** Every view reached from a mounted component is settled. *)
Lemma run_settled es v : settled v -> settled (run es v).
Proof.
  revert v. induction es as [|e es IH]; intros v Hv; [done|].
  simpl. apply IH. by apply step_settled.
Qed.

(** Edits that follow one another within the debounce interval commit
    nothing and leave one timer, armed a second after the last of them. *)
Lemma edits_rearm b : forall v t n,
  settled v -> armedBy v t -> fireAt t = (clock v + 1000)%Z ->
  r_activeNote (render v) = Some n -> quickEdits v b ->
  let v' := edits v b in
  settled v' /\ commits v' = commits v /\ store v' = store v /\
  exists t', armedBy v' t' /\ fireAt t' = (clock v' + 1000)%Z.
Proof.
  induction b as [|[gap e] b IH]; intros v t n Hv Harm Hfire Hact Hq;
    cbn [edits quickEdits] in *; cbv zeta.
  - split; [done|]. split; [done|]. split; [done|]. by exists t.
  - destruct Hq as (Hgap & Heff & Hq).
    pose proof Harm as (Ht & _).
    assert (Hel : step v (Elapse gap) = with_clock (clock v + Z.of_N gap) v).
    { apply (elapse_early _ t); [done | lia]. }
    pose proof (step_settled v (Elapse gap) Hv) as Hv1.
    change (step v (Elapse gap)) with (elapse gap v) in *.
    rewrite Hel in Heff, Hq, Hv1 |- *.
    set (v1 := with_clock (clock v + Z.of_N gap) v) in *.
    assert (Hact1 : r_activeNote (render v1) = Some n) by exact Hact.
    destruct (edit_arms v1 e n Hv1 Hact1 Heff)
      as (Hv2 & Hs2 & Hc2 & Hk2 & He2 & Harm2 & _).
    assert (Hact2 : r_activeNote (render (step v1 e)) = Some n).
    { change (result getActiveNote (store (step v1 e)) = Some n).
      rewrite Hs2. exact Hact. }
    destruct (IH (step v1 e) _ n Hv2 Harm2) as (Hv3 & Hc3 & Hs3 & Hex);
      [simpl; by rewrite Hk2 | done | done |].
    split; [done|]. split; [by rewrite Hc3, Hc2|]. split; [by rewrite Hs3, Hs2|].
    exact Hex.
Qed.
End AutosaveInvariant.

Section AutosaveClaims.
Import Autosave.
Implicit Types (v : View) (r : Render) (t : Timer) (e : Event) (n : Note.t).

Lemma armedBy_unique v t t' : armedBy v t -> armedBy v t' -> t' = t.
Proof. intros (Ht & _) (Ht' & _). congruence. Qed.

(** One quiet second after the last edit commits once. *)
Lemma elapse_fires v t n ms :
  settled v -> armedBy v t -> fireAt t = (clock v + 1000)%Z ->
  r_activeNote (render v) = Some n -> (1000 <= ms)%N ->
  let v' := step v (Elapse ms) in
  settled v' /\ timers v' = [] /\
  commits v' = commits v ++ [commitOf (clock v + 1000) n v] /\
  store v' = exec (updateNote (Note.id n)
                     (Note.titleAndContent (title v) (content v)) (clock v + 1000))
                  (store v).
Proof.
  intros Hv Harm Hfire Hact Hms.
  destruct (elapse_settled v ms Hv) as (Hset & _ & Hcases).
  cbv zeta. split; [exact Hset|].
  destruct Hcases as [(Ht & _) | [(t' & Harm' & Hlt & _) | (t' & n' & Harm' & _ & Hact' & Hv' & Htm & Hcm)]].
  - destruct Harm as (Ht' & _). congruence.
  - rewrite (armedBy_unique _ _ _ Harm Harm') in Hlt. lia.
  - rewrite (armedBy_unique _ _ _ Harm Harm') in Hcm, Hv'.
    assert (n' = n) as -> by congruence.
    rewrite Hfire in Hcm. split; [exact Htm|]. split; [exact Hcm|].
    rewrite Hv', with_clock_store.
    destruct (fire_commits v t n Hv Harm Hact) as (_ & _ & _ & _ & Hs & _).
    by rewrite Hs, Hfire.
Qed.

End AutosaveClaims.

(** * Further properties of the note store *)

Section StoreLookups.
Implicit Types (s state : NotesState) (note : Note.t) (id : string).

Lemma find_ext {A} (P Q : A -> Prop) `{!forall x, Decision (P x)}
    `{!forall x, Decision (Q x)} (l : list A) :
  (forall x, P x <-> Q x) -> find P l = find Q l.
Proof.
  intros HPQ. unfold find. induction l as [|x l IH]; [done|]. simpl.
  destruct (decide (P x)) as [HP|HP], (decide (Q x)) as [HQ|HQ]; simpl.
  - done.
  - by apply HPQ in HP.
  - by apply HPQ in HQ.
  - destruct (list_find P l) as [[? ?]|], (list_find Q l) as [[? ?]|];
      simpl in *; congruence.
Qed.

Lemma find_cons {A} (P : A -> Prop) `{!forall x, Decision (P x)} (x : A) (l : list A) :
  find P (x :: l) = if decide (P x) then Some x else find P l.
Proof.
  unfold find. simpl. destruct (decide (P x)); [done|].
  by destruct (list_find P l) as [[? ?]|].
Qed.

Lemma find_app {A} (P : A -> Prop) `{!forall x, Decision (P x)} (l1 l2 : list A) :
  find P (l1 ++ l2) = match find P l1 with Some x => Some x | None => find P l2 end.
Proof.
  induction l1 as [|x l1 IH]; [done|]. simpl. rewrite !find_cons.
  by destruct (decide (P x)).
Qed.

Lemma find_filter {A} (P : A -> Prop) `{!forall x, Decision (P x)} (f : A -> bool)
    (l : list A) :
  (forall x, x ∈ l -> P x -> f x = true) -> find P (List.filter f l) = find P l.
Proof.
  induction l as [|x l IH]; intros Hf; [done|]. simpl.
  assert (IH' : find P (List.filter f l) = find P l).
  { apply IH. intros y Hy. apply Hf. by apply list_elem_of_further. }
  rewrite find_cons. destruct (f x) eqn:Hfx.
  - rewrite find_cons. by destruct (decide (P x)).
  - destruct (decide (P x)) as [HP|HP]; [|done].
    rewrite (Hf x) in Hfx; [done | apply list_elem_of_here | done].
Qed.

Lemma find_insert_other {A} (P : A -> Prop) `{!forall x, Decision (P x)} (l : list A)
    i x y :
  l !! i = Some x -> ~ P x -> ~ P y -> find P (<[i := y]> l) = find P l.
Proof.
  revert i. induction l as [|z l IH]; intros [|i] Hi Hx Hy; simpl in *; try done.
  - injection Hi as ->. rewrite !find_cons.
    destruct (decide (P y)), (decide (P x)); done.
  - rewrite !find_cons. destruct (decide (P z)); [done|]. by apply IH.
Qed.

Lemma find_insert_first {A} (P : A -> Prop) `{!forall x, Decision (P x)} (l : list A)
    i y :
  findIndex P l = Some i -> P y -> find P (<[i := y]> l) = Some y.
Proof.
  revert i. induction l as [|z l IH]; intros i Hi Hy; [done|].
  unfold findIndex in Hi. simpl in Hi.
  destruct (decide (P z)) as [Hz|Hz]; simpl in Hi.
  - injection Hi as <-. simpl. rewrite find_cons. by destruct (decide (P y)).
  - destruct (list_find P l) as [[j w]|] eqn:Hl; [|done]. simpl in Hi.
    injection Hi as <-. simpl. rewrite find_cons.
    destruct (decide (P z)); [done|]. apply IH; [|done].
    unfold findIndex. by rewrite Hl.
Qed.

Lemma alter_insert {A} (f : A -> A) (l : list A) i x :
  l !! i = Some x -> alter f i l = <[i := f x]> l.
Proof.
  revert i. induction l as [|z l IH]; intros [|i] Hi; simpl in *; try done.
  - by injection Hi as ->.
  - f_equal. by apply IH.
Qed.

Lemma getNoteById_unfold s id :
  result (getNoteById id) s = find (fun note => Note.id note = id) (notes s).
Proof. reflexivity. Qed.

Lemma getActiveNote_unfold s :
  result getActiveNote s = find (fun note => Some (Note.id note) = activeNoteId s) (notes s).
Proof. reflexivity. Qed.

Lemma getActiveNote_getNoteById s a :
  activeNoteId s = Some a -> result getActiveNote s = result (getNoteById a) s.
Proof.
  intros Ha. rewrite getActiveNote_unfold, getNoteById_unfold, Ha.
  apply find_ext. intros x. split; [by intros [= ->] | by intros ->].
Qed.

Lemma absent_not_elem_of s id : absent id s <-> id ∉ Actions.ids s.
Proof.
  unfold absent, Actions.ids. rewrite list_elem_of_fmap. split.
  - intros H (note & -> & Hn). by apply (H note).
  - intros H note Hn Hid. apply H. by exists note.
Qed.

Lemma getNoteById_None_iff s id : result (getNoteById id) s = None <-> absent id s.
Proof.
  rewrite getNoteById_unfold, find_None_iff, Forall_forall. done.
Qed.

End StoreLookups.

Section StoreRoundTrips.
Implicit Types (s state : NotesState) (note : Note.t) (id : string).

Lemma activeValid_ids s :
  activeValid s <->
  match activeNoteId s with
  | None => Actions.ids s = []
  | Some a => a ∈ Actions.ids s
  end.
Proof.
  unfold activeValid, Actions.ids. destruct (activeNoteId s) as [a|].
  - rewrite list_elem_of_fmap. split.
    + intros (note & Hn & <-). by exists note.
    + intros (note & -> & Hn). by exists note.
  - split; [by intros -> | apply fmap_nil_inv].
Qed.

Lemma Forall2_ids (l l' : list Note.t) :
  Forall2 (fun a b => Note.id b = Note.id a) l l' -> Note.id <$> l' = Note.id <$> l.
Proof. induction 1 as [|a b l l' Hab _ IH]; [done|]. rewrite !fmap_cons. by rewrite Hab, IH. Qed.

Lemma updateNote_keeps_ids s id data now :
  Actions.ids (exec (updateNote id data now) s) = Actions.ids s.
Proof. apply Forall2_ids. apply updateNote_ids. Qed.

Lemma addMessage_cases s noteId message generatedId now newNow :
  (absent noteId s /\ exec (addMessage noteId message generatedId now newNow) s = s) \/
  exists i note,
    findIndex (fun n => Note.id n = noteId) (notes s) = Some i /\
    notes s !! i = Some note /\ Note.id note = noteId /\
    find (fun n => Note.id n = noteId) (notes s) = Some note /\
    exec (addMessage noteId message generatedId now newNow) s =
      with_notes
        (<[i := Actions.withMessage note
                  (Message.mk generatedId (Message.draft_content message)
                              (Message.draft_sender message) now) newNow]> (notes s)) s.
Proof.
  unfold addMessage, exec, set. simpl.
  destruct (findIndex (fun n => Note.id n = noteId) (notes s)) as [i|] eqn:Hi.
  - right. destruct (findIndex_Some_lookup _ _ _ Hi) as (note & Hl & Hid & Hf).
    exists i, note. split_and!; try done.
    by rewrite (alter_insert _ _ _ _ Hl).
  - left. split; [|done]. apply findIndex_None_iff in Hi.
    rewrite Forall_forall in Hi. exact Hi.
Qed.

Lemma addMessage_keeps_ids s noteId message generatedId now newNow :
  Actions.ids (exec (addMessage noteId message generatedId now newNow) s) = Actions.ids s.
Proof.
  destruct (addMessage_cases s noteId message generatedId now newNow)
    as [[_ ->]|(i & note & _ & Hl & _ & _ & ->)]; [done|].
  unfold Actions.ids. simpl. rewrite list_fmap_insert. apply list_insert_id.
  rewrite list_lookup_fmap, Hl. done.
Qed.

Lemma deleteNote_ids s id :
  Actions.ids (exec (deleteNote id) s) = List.filter (fun x => negb (String.eqb x id)) (Actions.ids s).
Proof.
  unfold Actions.ids. rewrite deleteNote_notes. unfold remaining.
  induction (notes s) as [|n l IH]; [done|].
  rewrite fmap_cons. cbn [List.filter].
  destruct (negb (String.eqb (Note.id n) id)); rewrite ?fmap_cons; by rewrite IH.
Qed.

(** X1 (addNote, getNoteById, getActiveNote, getTotalNoteCount).  When the
    generated id is the id of no note, the note [addNote] creates is the one
    [getNoteById] finds under the returned id and the one [getActiveNote]
    returns; the note count grows by one and the look-up of every other id
    is unchanged. *)
Theorem addNote_fresh_is_found_and_active s (title : option string) generatedId now :
  absent generatedId s ->
  let s' := exec (addNote title generatedId now) s in
  let newNote := Note.mk generatedId (orDefault title "Untitled Note") "<p></p>" [] now in
  result (addNote title generatedId now) s = generatedId /\
  result (getNoteById generatedId) s' = Some newNote /\
  result getActiveNote s' = Some newNote /\
  result getTotalNoteCount s' = S (result getTotalNoteCount s) /\
  (forall id, id <> generatedId ->
     result (getNoteById id) s' = result (getNoteById id) s).
Proof.
  intros Habs s' newNote.
  assert (Hnotes : notes s' = notes s ++ [newNote]) by reflexivity.
  assert (Hact : activeNoteId s' = Some generatedId) by reflexivity.
  assert (Hfind : result (getNoteById generatedId) s' = Some newNote).
  { rewrite getNoteById_unfold, Hnotes, find_app.
    apply getNoteById_None_iff in Habs. rewrite getNoteById_unfold in Habs.
    rewrite Habs, find_cons. by destruct (decide (Note.id newNote = generatedId)). }
  split_and!.
  - reflexivity.
  - exact Hfind.
  - by rewrite (getActiveNote_getNoteById s' generatedId Hact).
  - unfold result, getTotalNoteCount. simpl. rewrite length_app. simpl. lia.
  - intros id Hid. rewrite !getNoteById_unfold, Hnotes, find_app.
    destruct (find _ (notes s)); [done|]. rewrite find_cons.
    destruct (decide (Note.id newNote = id)) as [Heq|Hne]; [|done].
    simpl in Heq. congruence.
Qed.

Lemma addNote_fresh_is_found_and_active_witness :
  result getActiveNote (exec (addNote (Some "Plans") "q1w2e3r4t" 5000) Sample.twoNotes)
    = Some (Note.mk "q1w2e3r4t" "Plans" "<p></p>" [] 5000) /\
  result (getNoteById "n2") (exec (addNote (Some "Plans") "q1w2e3r4t" 5000) Sample.twoNotes)
    = result (getNoteById "n2") Sample.twoNotes.
Proof.
  assert (Habs : absent "q1w2e3r4t" Sample.twoNotes).
  { intros note Hn. apply list_elem_of_In in Hn. simpl in Hn.
    destruct Hn as [<-|[<-|[]]]; discriminate. }
  destruct (addNote_fresh_is_found_and_active Sample.twoNotes (Some "Plans")
              "q1w2e3r4t" 5000 Habs) as (_ & _ & Ha & _ & Ho).
  split; [exact Ha | apply Ho; discriminate].
Defined.

(** X2 (addNote, getNoteById, getActiveNote).  When the generated id is
    already the id of a note, the appended note cannot be reached: both
    [getNoteById] of the returned id and [getActiveNote] return the older
    note, and the ids of the store are no longer distinct. *)
Theorem addNote_colliding_id_is_shadowed s (title : option string) generatedId now old :
  result (getNoteById generatedId) s = Some old ->
  let s' := exec (addNote title generatedId now) s in
  result (getNoteById generatedId) s' = Some old /\
  result getActiveNote s' = Some old /\
  length (notes s') = S (length (notes s)) /\
  ~ NoDup (Actions.ids s').
Proof.
  intros Hold s'.
  assert (Hfind : result (getNoteById generatedId) s' = Some old).
  { rewrite getNoteById_unfold in *. unfold s'. simpl. by rewrite find_app, Hold. }
  split_and!.
  - exact Hfind.
  - by rewrite (getActiveNote_getNoteById s' generatedId eq_refl).
  - unfold s'. simpl. rewrite length_app. simpl. lia.
  - unfold Actions.ids, s'. simpl. rewrite fmap_app. simpl.
    rewrite NoDup_app. intros (_ & Hdisj & _).
    rewrite getNoteById_unfold in Hold.
    destruct (find_Some_findIndex _ _ _ Hold) as (i & _ & Hl & Hid).
    apply (Hdisj generatedId).
    + apply list_elem_of_fmap. exists old. split; [done|].
      by apply list_elem_of_lookup_2 in Hl.
    + apply list_elem_of_here.
Qed.

Lemma addNote_colliding_id_is_shadowed_witness :
  result (getNoteById "n1") (exec (addNote (Some "Again") "n1" 5000) Sample.oneNote)
    = Some Sample.groceries /\
  result getActiveNote (exec (addNote (Some "Again") "n1" 5000) Sample.oneNote)
    = Some Sample.groceries.
Proof.
  destruct (addNote_colliding_id_is_shadowed Sample.oneNote (Some "Again") "n1" 5000
              Sample.groceries eq_refl) as (H1 & H2 & _).
  split; [exact H1 | exact H2].
Defined.

(** X3 (setActiveNote, getActiveNote, getNoteById).  After
    [setActiveNote(id)] the active note is what [getNoteById(id)] finds;
    the notes are untouched, the last of two calls wins, and the active id
    is valid afterwards exactly when a note has the id. *)
Theorem setActiveNote_then_getActiveNote s id :
  let s' := exec (setActiveNote id) s in
  notes s' = notes s /\
  result getActiveNote s' = result (getNoteById id) s /\
  (forall id', exec (setActiveNote id') s' = exec (setActiveNote id') s) /\
  (activeValid s' <-> id ∈ Actions.ids s).
Proof.
  intros s'. split_and!.
  - reflexivity.
  - by rewrite (getActiveNote_getNoteById s' id eq_refl).
  - reflexivity.
  - by rewrite activeValid_ids.
Qed.

(** X4 (deleteNote, getNoteById).  [deleteNote(id)] is idempotent on every
    state; afterwards no note is found under [id], and what is found under
    every other id is what was found before. *)
Theorem deleteNote_idempotent_and_forgets s id :
  let s' := exec (deleteNote id) s in
  exec (deleteNote id) s' = s' /\
  result (getNoteById id) s' = None /\
  (forall id', id' <> id -> result (getNoteById id') s' = result (getNoteById id') s).
Proof.
  intros s'.
  assert (Habs : absent id s').
  { intros note Hn. unfold s' in Hn. rewrite deleteNote_notes in Hn.
    by apply elem_of_remaining in Hn as [_ ?]. }
  split_and!.
  - assert (Hn : notes (exec (deleteNote id) s') = notes s').
    { rewrite deleteNote_notes. by apply absent_remaining. }
    assert (Ha : activeNoteId (exec (deleteNote id) s') = activeNoteId s').
    { rewrite deleteNote_active, (absent_remaining _ _ Habs).
      unfold s' at 1 3 5. rewrite deleteNote_notes.
      unfold s'. rewrite deleteNote_active.
      destruct (remaining id (notes s)) as [|first rest] eqn:Hrem; [done|].
      assert (Hfirst : Note.id first <> id).
      { assert (Hin : first ∈ remaining id (notes s))
          by (rewrite Hrem; apply list_elem_of_here).
        by apply elem_of_remaining in Hin as [_ ?]. }
      destruct (decide (activeNoteId s = Some id)) as [Hact|Hact].
      - destruct (decide (Some (Note.id first) = Some id)) as [[= ?]|]; done.
      - destruct (decide (activeNoteId s = Some id)); done. }
    destruct (exec (deleteNote id) s') as [n a], s' as [n' a']. simpl in *. congruence.
  - by apply getNoteById_None_iff.
  - intros id' Hne. rewrite !getNoteById_unfold. unfold s'.
    rewrite deleteNote_notes. unfold remaining. apply find_filter.
    intros x _ Hx. apply negb_true_iff, String.eqb_neq. congruence.
Qed.

Lemma deleteNote_idempotent_and_forgets_witness :
  exec (deleteNote "n1") (exec (deleteNote "n1") Sample.twoNotes)
    = exec (deleteNote "n1") Sample.twoNotes /\
  result (getNoteById "n2") (exec (deleteNote "n1") Sample.twoNotes)
    = result (getNoteById "n2") Sample.twoNotes.
Proof.
  pose proof (deleteNote_idempotent_and_forgets Sample.twoNotes "n1") as H.
  cbv zeta in H. destruct H as (H1 & _ & H3).
  split; [exact H1 | apply H3; discriminate].
Defined.

Lemma lookups_after_insert s i note note' id :
  findIndex (fun n => Note.id n = id) (notes s) = Some i ->
  notes s !! i = Some note -> Note.id note = id -> Note.id note' = id ->
  let s' := with_notes (<[i := note']> (notes s)) s in
  result (getNoteById id) s' = Some note' /\
  (forall id', id' <> id -> result (getNoteById id') s' = result (getNoteById id') s) /\
  activeNoteId s' = activeNoteId s /\
  Actions.ids s' = Actions.ids s.
Proof.
  intros Hi Hl Hid Hid' s'. split_and!.
  - rewrite getNoteById_unfold. by apply find_insert_first.
  - intros id' Hne. rewrite !getNoteById_unfold.
    apply (find_insert_other _ _ i note note' Hl); simpl; congruence.
  - reflexivity.
  - unfold Actions.ids. simpl. rewrite list_fmap_insert. apply list_insert_id.
    rewrite list_lookup_fmap, Hl. simpl. congruence.
Qed.

(** X5 (addMessage, getNoteById).  On a note that exists, [addMessage]
    appends exactly the new message (the draft with the generated id and the
    time stamp) to the chat history of the first note with that id and
    stamps its [lastUpdated]; its id, title and content, every other
    look-up, the active id and the ids of the store stay as they were. *)
Theorem addMessage_appends_to_found_note s noteId message generatedId now newNow note :
  result (getNoteById noteId) s = Some note ->
  let s' := exec (addMessage noteId message generatedId now newNow) s in
  let newMessage :=
    Message.mk generatedId (Message.draft_content message)
               (Message.draft_sender message) now in
  result (getNoteById noteId) s' =
    Some (Note.mk (Note.id note) (Note.title note) (Note.content note)
                  (Note.chatHistory note ++ [newMessage]) newNow) /\
  (forall id, id <> noteId -> result (getNoteById id) s' = result (getNoteById id) s) /\
  activeNoteId s' = activeNoteId s /\
  Actions.ids s' = Actions.ids s.
Proof.
  intros Hfind s' newMessage. rewrite getNoteById_unfold in Hfind.
  destruct (addMessage_cases s noteId message generatedId now newNow)
    as [[Habs _]|(i & n & Hi & Hl & Hid & Hf & He)].
  - apply getNoteById_None_iff in Habs. rewrite getNoteById_unfold in Habs. congruence.
  - assert (n = note) as -> by congruence.
    unfold s'. rewrite He.
    exact (lookups_after_insert s i note (Actions.withMessage note newMessage newNow)
             noteId Hi Hl Hid Hid).
Qed.

Lemma addMessage_appends_to_found_note_witness :
  result (getNoteById "n1")
         (exec (addMessage "n1" Sample.hello "m1" 2000 2001) Sample.twoNotes)
    = Some (Note.mk "n1" "Groceries" "<p>milk</p>"
                    [Message.mk "m1" "hello" Message.user 2000] 2001) /\
  result (getNoteById "n2")
         (exec (addMessage "n1" Sample.hello "m1" 2000 2001) Sample.twoNotes)
    = Some Sample.ideas.
Proof.
  destruct (addMessage_appends_to_found_note Sample.twoNotes "n1" Sample.hello "m1"
              2000 2001 Sample.groceries eq_refl) as (H1 & H2 & _).
  split; [exact H1 | exact (H2 "n2" ltac:(discriminate))].
Defined.

Lemma updateNote_changed_exec s id data now note :
  result (getNoteById id) s = Some note ->
  hasChanged data note = true ->
  exists i,
    findIndex (fun n => Note.id n = id) (notes s) = Some i /\
    notes s !! i = Some note /\ Note.id note = id /\
    exec (updateNote id data now) s =
      with_notes (<[i := Note.spread note data now]> (notes s)) s.
Proof.
  intros Hfind Hch. rewrite getNoteById_unfold in Hfind.
  destruct (find_Some_findIndex _ _ _ Hfind) as (i & Hi & Hl & Hid).
  exists i. split_and!; try done.
  unfold updateNote, exec, set. simpl. by rewrite Hi, Hl, Hch.
Qed.

(** X6 (updateNote, getNoteById).  When the guard of [updateNote] finds a
    change, the first note with the id is replaced by the spread of the
    note, the data and the new time: what [getNoteById] then returns has
    every provided field, [lastUpdated] is the time of the call whatever
    [data.lastUpdated] says, and every other look-up, the active id and the
    ids of the store stay as they were. *)
Theorem updateNote_changed_is_written s id data now note :
  result (getNoteById id) s = Some note ->
  hasChanged data note = true ->
  let s' := exec (updateNote id data now) s in
  result (getNoteById id) s' =
    Some (Note.mk (Note.id note)
                  (default (Note.title note) (Note.p_title data))
                  (default (Note.content note) (Note.p_content data))
                  (default (Note.chatHistory note) (Note.p_chatHistory data))
                  now) /\
  (forall id', id' <> id -> result (getNoteById id') s' = result (getNoteById id') s) /\
  activeNoteId s' = activeNoteId s /\
  Actions.ids s' = Actions.ids s.
Proof.
  intros Hfind Hch s'.
  destruct (updateNote_changed_exec s id data now note Hfind Hch)
    as (i & Hi & Hl & Hid & He).
  unfold s'. rewrite He.
  destruct (lookups_after_insert s i note (Note.spread note data now) id Hi Hl Hid Hid)
    as (Hnew & Hothers & Hactive & Hids).
  split_and!.
  - exact Hnew.
  - exact Hothers.
  - exact Hactive.
  - exact Hids.
Qed.

Lemma updateNote_changed_is_written_witness :
  result (getNoteById "n1")
         (exec (updateNote "n1" (Note.mkPartial (Some "Shopping") None None (Some 7%Z)) 2000)
               Sample.twoNotes)
    = Some (Note.mk "n1" "Shopping" "<p>milk</p>" [] 2000).
Proof.
  exact (proj1 (updateNote_changed_is_written Sample.twoNotes "n1"
                  (Note.mkPartial (Some "Shopping") None None (Some 7%Z)) 2000
                  Sample.groceries eq_refl eq_refl)).
Defined.

Lemma updateNote_cleared_title_noop s id now note :
  result (getNoteById id) s = Some note ->
  updateNote id (Note.titleAndContent "" (Note.content note)) now s = (tt, s).
Proof.
  intros Hfind. rewrite getNoteById_unfold in Hfind.
  destruct (find_Some_findIndex _ _ _ Hfind) as (i & Hi & Hl & Hid).
  unfold updateNote, set. rewrite Hi, Hl.
  assert (Hch : hasChanged (Note.titleAndContent "" (Note.content note)) note = false).
  { unfold hasChanged, differs. simpl. rewrite String.eqb_refl.
    by rewrite andb_false_r. }
  by rewrite Hch.
Qed.

(** X7 (updateNote as [handleSave] calls it).  An empty title does not
    count as a change: saving a note with its title cleared and its content
    as stored changes nothing, not even [lastUpdated].  But once the content
    differs, the spread writes the empty title too. *)
Theorem updateNote_empty_title s id now note c :
  result (getNoteById id) s = Some note ->
  c <> "" -> c <> Note.content note ->
  updateNote id (Note.titleAndContent "" (Note.content note)) now s = (tt, s) /\
  result (getNoteById id) (exec (updateNote id (Note.titleAndContent "" c) now) s) =
    Some (Note.mk (Note.id note) "" c (Note.chatHistory note) now).
Proof.
  intros Hfind Hc Hne. split.
  - by apply updateNote_cleared_title_noop.
  - assert (Hch : hasChanged (Note.titleAndContent "" c) note = true).
    { unfold hasChanged, differs. simpl.
      apply String.eqb_neq in Hne. rewrite Hne. destruct c; [done|]. reflexivity. }
    destruct (updateNote_changed_exec s id (Note.titleAndContent "" c) now note Hfind Hch)
      as (i & Hi & Hl & Hid & He).
    rewrite He.
    exact (proj1 (lookups_after_insert s i note
                    (Note.spread note (Note.titleAndContent "" c) now) id Hi Hl Hid Hid)).
Qed.

Lemma updateNote_empty_title_witness :
  updateNote "n1" (Note.titleAndContent "" "<p>milk</p>") 2000 Sample.twoNotes
    = (tt, Sample.twoNotes) /\
  result (getNoteById "n1")
         (exec (updateNote "n1" (Note.titleAndContent "" "<p>eggs</p>") 2000) Sample.twoNotes)
    = Some (Note.mk "n1" "" "<p>eggs</p>" [] 2000).
Proof.
  apply (updateNote_empty_title Sample.twoNotes "n1" 2000 Sample.groceries "<p>eggs</p>").
  - reflexivity.
  - discriminate.
  - discriminate.
Defined.

Lemma addMessage_keeps_active s noteId message generatedId now newNow :
  activeNoteId (exec (addMessage noteId message generatedId now newNow) s) = activeNoteId s.
Proof.
  by destruct (addMessage_cases s noteId message generatedId now newNow)
    as [[_ ->]|(i & note & _ & _ & _ & _ & ->)].
Qed.

Lemma perform_wellFormed s (a : Actions.Action) :
  Actions.wellFormed s -> Actions.admissible s a -> Actions.wellFormed (Actions.perform s a).
Proof.
  intros [Hv Hnd] Ha. destruct a as [t g n|id d n|id|id|id m g n n']; simpl in *.
  - split; [apply addNote_activeValid|].
    unfold Actions.ids. simpl. rewrite fmap_app. simpl. apply NoDup_app.
    split_and!; [done| |apply NoDup_singleton].
    intros x Hx Hx'. apply list_elem_of_singleton in Hx'. by subst.
  - split.
    + apply activeValid_ids. rewrite updateNote_keeps_ids.
      rewrite (proj1 (updateNote_ids s id d n)). by apply activeValid_ids.
    + by rewrite updateNote_keeps_ids.
  - split; [by apply deleteNote_activeValid|].
    rewrite deleteNote_ids. eapply sublist_NoDup; [exact Hnd|]. apply filter_sublist.
  - split; [by apply activeValid_ids | done].
  - split.
    + apply activeValid_ids. rewrite addMessage_keeps_ids, addMessage_keeps_active.
      by apply activeValid_ids.
    + by rewrite addMessage_keeps_ids.
Qed.

(** X8 (addNote, updateNote, deleteNote, setActiveNote, addMessage).  A run
    of the five actions keeps the store well formed (the active id null
    exactly when there is no note and otherwise the id of a note, and no id
    shared by two notes), as long as every generated id is new and every
    [setActiveNote] names a note of the store. *)
Theorem actions_keep_store_wellFormed (l : list Actions.Action) s :
  Actions.wellFormed s -> Actions.admissibleRun s l ->
  Actions.wellFormed (Actions.performAll l s).
Proof.
  revert s. induction l as [|a l IH]; intros s Hs Hl; [done|].
  destruct Hl as [Ha Hl]. apply IH; [|done]. by apply perform_wellFormed.
Qed.

Lemma actions_keep_store_wellFormed_witness :
  Actions.wellFormed
    (Actions.performAll
       [ Actions.AddNote (Some "Plans") "n3" 3000;
         Actions.SetActiveNote "n2";
         Actions.AddMessage "n2" Sample.hello "m1" 3100 3101;
         Actions.DeleteNote "n2";
         Actions.UpdateNote "n1" (Note.titleAndContent "Shop" "<p>milk</p>") 3200 ]
       Sample.twoNotes).
Proof.
  apply actions_keep_store_wellFormed.
  - split.
    + apply activeValidb_spec. reflexivity.
    + apply (bool_decide_eq_true_1 (NoDup (Actions.ids Sample.twoNotes))). reflexivity.
  - simpl. split_and!; try exact I.
    + apply (bool_decide_eq_true_1 ("n3" ∉ Actions.ids Sample.twoNotes)). reflexivity.
    + apply (bool_decide_eq_true_1
               ("n2" ∈ Actions.ids (exec (addNote (Some "Plans") "n3" 3000) Sample.twoNotes))).
      reflexivity.
Defined.

End StoreRoundTrips.

(** * Markup stripping and the search term *)

Section MarkupFacts.
Import Markup.

Lemma hasChar_nil c : hasChar c "" = false.
Proof. reflexivity. Qed.

Lemma hasChar_cons c a r : hasChar c (String a r) = Ascii.eqb c a || hasChar c r.
Proof.
  unfold hasChar. cbn [includes startsWith]. by destruct (Ascii.eqb c a).
Qed.

Lemma stripFrom_hasChar c b s : hasChar c (stripFrom b s) = true -> hasChar c s = true.
Proof.
  revert b. induction s as [|a r IH]; intros b; [by destruct b|].
  rewrite hasChar_cons. cbn [stripFrom].
  destruct b.
  - destruct (Ascii.eqb a ">"); intros H%IH; rewrite H; apply orb_true_r.
  - destruct (Ascii.eqb a "<" && hasChar ">" r).
    + intros H%IH. rewrite H. apply orb_true_r.
    + rewrite hasChar_cons. destruct (Ascii.eqb c a); [done|]. simpl. apply IH.
Qed.

Lemma stripFrom_tagFree b s : tagFree (stripFrom b s) = true.
Proof.
  revert b. induction s as [|a r IH]; intros b; [by destruct b|].
  cbn [stripFrom]. destruct b.
  - destruct (Ascii.eqb a ">"); apply IH.
  - destruct (Ascii.eqb a "<" && hasChar ">" r) eqn:Hopen; [apply IH|].
    cbn [tagFree]. rewrite IH, andb_true_r. apply negb_true_iff.
    destruct (Ascii.eqb a "<"); [|done]. simpl in *.
    destruct (hasChar ">" (stripFrom false r)) eqn:Hs; [|done].
    apply stripFrom_hasChar in Hs. congruence.
Qed.

Lemma tagFree_stripTags s : tagFree s = true -> stripTags s = s.
Proof.
  unfold stripTags. induction s as [|a r IH]; [done|].
  cbn [tagFree stripFrom]. intros [Ha Hr]%andb_true_iff.
  apply negb_true_iff in Ha. rewrite Ha. by rewrite IH.
Qed.

Lemma stripFrom_length b s : (String.length (stripFrom b s) <= String.length s)%nat.
Proof.
  revert b. induction s as [|a r IH]; intros b; [by destruct b|].
  cbn [stripFrom]. destruct b.
  - destruct (Ascii.eqb a ">"); simpl; [specialize (IH false) | specialize (IH true)]; lia.
  - destruct (Ascii.eqb a "<" && hasChar ">" r); simpl;
      [specialize (IH true) | specialize (IH false)]; lia.
Qed.

(** X9 (the [replace(/<[^>]*>/g, "")] of getFilteredNotes).  The text the
    store searches holds no complete tag: stripping it again changes
    nothing; it is never longer than the content, and stripping invents no
    character. *)
Theorem stripTags_idempotent_tag_free s :
  stripTags (stripTags s) = stripTags s /\
  tagFree (stripTags s) = true /\
  (String.length (stripTags s) <= String.length s)%nat /\
  (forall c, hasChar c s = false -> hasChar c (stripTags s) = false).
Proof.
  split_and!.
  - apply tagFree_stripTags, stripFrom_tagFree.
  - apply stripFrom_tagFree.
  - apply stripFrom_length.
  - intros c Hc. destruct (hasChar c (stripTags s)) eqn:Hs; [|done].
    apply stripFrom_hasChar in Hs. congruence.
Qed.

Lemma stripTags_idempotent_tag_free_witness :
  stripTags (stripTags "<p>a < b</p>") = stripTags "<p>a < b</p>" /\
  hasChar "/" (stripTags "a < b") = false.
Proof.
  split.
  - exact (proj1 (stripTags_idempotent_tag_free "<p>a < b</p>")).
  - apply (proj2 (proj2 (proj2 (stripTags_idempotent_tag_free "a < b")))). reflexivity.
Defined.

Lemma toLowerChar_idempotent c : toLowerChar (toLowerChar c) = toLowerChar c.
Proof. destruct c as [[] [] [] [] [] [] [] []]; reflexivity. Qed.

Lemma isWhiteSpace_toLowerChar c : isWhiteSpace (toLowerChar c) = isWhiteSpace c.
Proof. destruct c as [[] [] [] [] [] [] [] []]; reflexivity. Qed.

Lemma toLowerCase_idempotent s : toLowerCase (toLowerCase s) = toLowerCase s.
Proof. induction s as [|c r IH]; [done|]. simpl. by rewrite toLowerChar_idempotent, IH. Qed.

Lemma whitespaceOnly_toLowerCase s : whitespaceOnly (toLowerCase s) = whitespaceOnly s.
Proof. induction s as [|c r IH]; [done|]. simpl. by rewrite isWhiteSpace_toLowerChar, IH. Qed.

Lemma truthy_trim s : truthy (trim s) = negb (whitespaceOnly s).
Proof.
  destruct (whitespaceOnly s) eqn:Hs.
  - by apply trim_falsy_iff.
  - destruct (truthy (trim s)) eqn:Ht; [done|]. apply trim_falsy_iff in Ht. congruence.
Qed.

Lemma whitespaceOnly_rev s : whitespaceOnly (String.rev s) = whitespaceOnly s.
Proof. unfold String.rev. rewrite whitespaceOnly_rev_app. apply andb_true_r. Qed.

Lemma whitespaceOnly_trim s : whitespaceOnly (trim s) = whitespaceOnly s.
Proof.
  unfold trim, trimEnd.
  by rewrite whitespaceOnly_rev, whitespaceOnly_trimStart, whitespaceOnly_rev,
    whitespaceOnly_trimStart.
Qed.

(** X10 (getFilteredNotes).  The search ignores the case of the term: two
    terms with the same lower-case form select the same notes, in every
    state; in particular a term and its lower-case form do. *)
Theorem getFilteredNotes_ignores_case_of_term s x y :
  toLowerCase x = toLowerCase y ->
  getFilteredNotes x s = getFilteredNotes y s /\
  getFilteredNotes (toLowerCase x) s = getFilteredNotes x s.
Proof.
  assert (H : forall a b, toLowerCase a = toLowerCase b ->
                          getFilteredNotes a s = getFilteredNotes b s).
  { intros a b Hab. unfold getFilteredNotes, bind, get, ret.
    rewrite !truthy_trim, Hab.
    by rewrite <- (whitespaceOnly_toLowerCase a), Hab, whitespaceOnly_toLowerCase. }
  intros Hxy. split; [by apply H|]. apply H, toLowerCase_idempotent.
Qed.

Lemma getFilteredNotes_ignores_case_of_term_witness :
  getFilteredNotes "TipTap" (initialState Sample.seed)
    = getFilteredNotes "tIPtAP" (initialState Sample.seed).
Proof.
  exact (proj1 (getFilteredNotes_ignores_case_of_term (initialState Sample.seed)
                  "TipTap" "tIPtAP" eq_refl)).
Defined.

End MarkupFacts.

(** * Properties of the sidebar *)

Section SidebarFacts.
Import Markup.
Implicit Types (st : Sidebar.State) (s : NotesState) (note : Note.t).

Lemma trimmed_or_default (t d : string) :
  orDefault (Some (trim t)) d = if whitespaceOnly t then d else trim t.
Proof. unfold orDefault. rewrite truthy_trim. by destruct (whitespaceOnly t). Qed.

Lemma not_whitespaceOnly_truthy t : whitespaceOnly t = false -> truthy t = true.
Proof. by destruct t. Qed.

Lemma addNote_pair s (title : option string) generatedId now :
  addNote title generatedId now s = (generatedId, exec (addNote title generatedId now) s).
Proof. reflexivity. Qed.

Lemma setActiveNote_after_addNote s (title : option string) generatedId now :
  exec (setActiveNote generatedId) (exec (addNote title generatedId now) s)
    = exec (addNote title generatedId now) s.
Proof. reflexivity. Qed.

Lemma handleAddNoteSubmit_unfold st generatedId now :
  Sidebar.handleAddNoteSubmit generatedId now st =
    let title := if whitespaceOnly (Sidebar.newNoteTitle st) then "Untitled Note"
                 else trim (Sidebar.newNoteTitle st) in
    Sidebar.mkState (exec (addNote (Some title) generatedId now) (Sidebar.store st))
                    (Sidebar.searchTerm st) false ""
                    (Sidebar.isMobile st)
                    (if Sidebar.isMobile st then false else Sidebar.isSidebarOpen st).
Proof.
  unfold Sidebar.handleAddNoteSubmit. rewrite trimmed_or_default, addNote_pair.
  cbv zeta. rewrite setActiveNote_after_addNote.
  destruct st as [s0 term adding typed [] isOpen]; reflexivity.
Qed.

(** X11 (handleAddNoteSubmit of the sidebar, addNote, setActiveNote).
    Submitting the form appends one note whose title is the trimmed input,
    or "Untitled Note" when the input is empty or white space only, so the
    title is never blank; the note is active; [setActiveNote] after
    [addNote] changes nothing; the form is reset and, on a mobile screen,
    the sidebar closed. *)
Theorem handleAddNoteSubmit_titles_and_activates st generatedId now :
  let st' := Sidebar.handleAddNoteSubmit generatedId now st in
  let title := if whitespaceOnly (Sidebar.newNoteTitle st) then "Untitled Note"
               else trim (Sidebar.newNoteTitle st) in
  Sidebar.store st' = exec (addNote (Some title) generatedId now) (Sidebar.store st) /\
  notes (Sidebar.store st') =
    notes (Sidebar.store st) ++ [Note.mk generatedId title "<p></p>" [] now] /\
  activeNoteId (Sidebar.store st') = Some generatedId /\
  whitespaceOnly title = false /\
  Sidebar.newNoteTitle st' = "" /\
  Sidebar.isAddingNote st' = false /\
  Sidebar.isSidebarOpen st' =
    (if Sidebar.isMobile st then false else Sidebar.isSidebarOpen st).
Proof.
  intros st' title.
  assert (Hblank : whitespaceOnly title = false).
  { unfold title. destruct (whitespaceOnly (Sidebar.newNoteTitle st)) eqn:Hw; [done|].
    by rewrite whitespaceOnly_trim. }
  assert (Hkeep : orDefault (Some title) "Untitled Note" = title).
  { unfold orDefault. by rewrite (not_whitespaceOnly_truthy _ Hblank). }
  unfold st'. rewrite handleAddNoteSubmit_unfold. cbv zeta. fold title.
  cbn [Sidebar.store Sidebar.newNoteTitle Sidebar.isAddingNote Sidebar.isSidebarOpen].
  split_and!; try done.
  unfold addNote, exec, bind, set, ret. cbn [snd notes with_notes with_activeNoteId Note.id].
  by rewrite Hkeep.
Qed.

Lemma card_elem_of st i note :
  Sidebar.card st i = Some note -> note ∈ notes (Sidebar.store st).
Proof.
  unfold Sidebar.card, Sidebar.filteredNotes. intros Hc.
  apply list_elem_of_lookup_2 in Hc.
  destruct (String.eqb (trim (Sidebar.searchTerm st)) ""); [done|].
  by apply elem_of_filter in Hc as [? _].
Qed.

Lemma handleNoteSelect_store st id :
  Sidebar.store (Sidebar.handleNoteSelect id st) = exec (setActiveNote id) (Sidebar.store st).
Proof. unfold Sidebar.handleNoteSelect. simpl. by destruct (Sidebar.isMobile st). Qed.

Lemma handleDeleteNote_store st id confirmed :
  Sidebar.store (Sidebar.handleDeleteNote confirmed id st) =
    if confirmed then exec (deleteNote id) (Sidebar.store st) else Sidebar.store st.
Proof.
  unfold Sidebar.handleDeleteNote. destruct confirmed; [|done]. simpl.
  by destruct (Sidebar.isMobile st).
Qed.

Lemma handleAddNoteSubmit_activeValid st generatedId now :
  activeValid (Sidebar.store (Sidebar.handleAddNoteSubmit generatedId now st)).
Proof.
  rewrite handleAddNoteSubmit_unfold. apply addNote_activeValid.
Qed.


Lemma find_unique_id (l : list Note.t) note :
  NoDup (Note.id <$> l) -> note ∈ l ->
  find (fun n => Note.id n = Note.id note) l = Some note.
Proof.
  induction l as [|x l IH]; intros Hnd Hin; [by apply elem_of_nil in Hin|].
  rewrite fmap_cons in Hnd. apply NoDup_cons in Hnd as [Hx Hnd].
  rewrite find_cons. apply elem_of_cons in Hin as [->|Hin].
  - by destruct (decide (Note.id x = Note.id x)).
  - destruct (decide (Note.id x = Note.id note)) as [Heq|_]; [|by apply IH].
    exfalso. apply Hx. rewrite Heq. by apply list_elem_of_fmap_2.
Qed.

Lemma step_activeValid st e :
  activeValid (Sidebar.store st) -> activeValid (Sidebar.store (Sidebar.step st e)).
Proof.
  intros Hv. destruct e as [v| |v|g n| |i|i c]; simpl; try done.
  - by destruct (Sidebar.isAddingNote st).
  - by destruct (Sidebar.isAddingNote st).
  - destruct (Sidebar.isAddingNote st); [apply handleAddNoteSubmit_activeValid | done].
  - by destruct (Sidebar.isAddingNote st).
  - destruct (Sidebar.card st i) as [note|] eqn:Hc; [|done].
    rewrite handleNoteSelect_store. apply activeValid_ids. simpl.
    apply list_elem_of_fmap_2. by apply (card_elem_of st i).
  - destruct (Sidebar.card st i) as [note|] eqn:Hc; [|done].
    rewrite handleDeleteNote_store. destruct c; [|done]. by apply deleteNote_activeValid.
Qed.

(** X12 (handleNoteSelect, handleAddNoteSubmit, handleDeleteNote and the
    other handlers of the sidebar).  No event of the sidebar makes a valid
    active id invalid; and whatever the store was, the active id is valid
    after a click on a card of the list and after a submitted form. *)
Theorem sidebar_keeps_and_repairs_active_id st e :
  activeValid (Sidebar.store st) \/
  (exists i, e = Sidebar.ClickCard i /\ is_Some (Sidebar.card st i)) \/
  (exists generatedId now,
     e = Sidebar.Submit generatedId now /\ Sidebar.isAddingNote st = true) ->
  activeValid (Sidebar.store (Sidebar.step st e)).
Proof.
  intros [Hv|[(i & -> & [note Hc])|(g & n & -> & Hadd)]].
  - by apply step_activeValid.
  - simpl. rewrite Hc, handleNoteSelect_store. apply activeValid_ids. simpl.
    apply list_elem_of_fmap_2. by apply (card_elem_of st i).
  - simpl. rewrite Hadd. apply handleAddNoteSubmit_activeValid.
Qed.

Lemma sidebar_keeps_and_repairs_active_id_witness :
  ~ activeValid (initialState Sample.seed) /\
  activeValid
    (Sidebar.store
       (Sidebar.step (Sidebar.initial (initialState Sample.seed) false)
                     (Sidebar.ClickCard 1))).
Proof.
  split.
  - rewrite <- activeValidb_spec. by vm_compute.
  - apply sidebar_keeps_and_repairs_active_id. right. left.
    exists 1%nat. split; [reflexivity|]. by eexists.
Defined.

(** X13 (handleNoteSelect, the list of cards, getActiveNote).  When no two
    notes share an id, a click on a card makes the note of that card the
    active note, whatever the search term; the notes themselves are not
    touched. *)
Theorem click_on_card_selects_its_note st i note :
  NoDup (Actions.ids (Sidebar.store st)) ->
  Sidebar.card st i = Some note ->
  let st' := Sidebar.step st (Sidebar.ClickCard i) in
  result getActiveNote (Sidebar.store st') = Some note /\
  notes (Sidebar.store st') = notes (Sidebar.store st) /\
  Sidebar.searchTerm st' = Sidebar.searchTerm st.
Proof.
  intros Hnd Hc st'. unfold st'. simpl. rewrite Hc. split_and!.
  - rewrite handleNoteSelect_store.
    rewrite (getActiveNote_getNoteById
               (exec (setActiveNote (Note.id note)) (Sidebar.store st))
               (Note.id note) eq_refl).
    rewrite getNoteById_unfold. simpl. apply find_unique_id; [done|].
    by apply (card_elem_of st i).
  - by rewrite handleNoteSelect_store.
  - unfold Sidebar.handleNoteSelect. simpl. by destruct (Sidebar.isMobile st).
Qed.

Lemma click_on_card_selects_its_note_witness :
  result getActiveNote
    (Sidebar.store
       (Sidebar.step (Sidebar.setSearchTerm "IDEA" (Sidebar.initial Sample.twoNotes true))
                     (Sidebar.ClickCard 0)))
    = Some Sample.ideas.
Proof.
  refine (proj1 (click_on_card_selects_its_note
                   (Sidebar.setSearchTerm "IDEA" (Sidebar.initial Sample.twoNotes true))
                   0 Sample.ideas _ eq_refl)).
  apply (bool_decide_eq_true_1 (NoDup (Actions.ids Sample.twoNotes))). reflexivity.
Defined.

Lemma eqb_empty_truthy t : String.eqb t "" = negb (truthy t).
Proof. by destruct t. Qed.

(** X14 (filteredNotes of the sidebar, getFilteredNotes of the store).  The
    sidebar filters on the content as stored and the store's selector on
    the content with its tags stripped; on notes whose content holds no
    complete tag the two searches give the same list for every term. *)
Theorem sidebar_search_agrees_without_markup s x :
  Forall (fun note => tagFree (Note.content note) = true) (notes s) ->
  Sidebar.filteredNotes (notes s) x = result (getFilteredNotes x) s.
Proof.
  intros Hfree. unfold Sidebar.filteredNotes, getFilteredNotes, result, bind, get, ret.
  rewrite eqb_empty_truthy. cbn [fst snd].
  destruct (negb (truthy (trim x))); [done|]. cbn [fst].
  induction Hfree as [|note l Hn _ IH]; [done|]. cbn [List.filter].
  assert (Hm : Sidebar.matchesSearch x note = matchesSearch (toLowerCase x) note).
  { unfold Sidebar.matchesSearch, matchesSearch. by rewrite (tagFree_stripTags _ Hn). }
  rewrite Hm, IH. done.
Qed.

Lemma sidebar_search_agrees_without_markup_witness :
  Sidebar.filteredNotes
      [Note.mk "n1" "Groceries" "milk > eggs" [] 1000; Note.mk "n2" "Ideas" "a < b" [] 1200]
      "EGG"
    = result (getFilteredNotes "EGG")
        {| notes := [Note.mk "n1" "Groceries" "milk > eggs" [] 1000;
                     Note.mk "n2" "Ideas" "a < b" [] 1200];
           activeNoteId := Some "n1" |}.
Proof.
  apply (sidebar_search_agrees_without_markup
           {| notes := [Note.mk "n1" "Groceries" "milk > eggs" [] 1000;
                        Note.mk "n2" "Ideas" "a < b" [] 1200];
              activeNoteId := Some "n1" |} "EGG").
  repeat constructor.
Defined.


End SidebarFacts.

Section PreviewFacts.
Import Markup.
Implicit Types (s r x : string).

Lemma append_empty_r (s : string) : s +:+ "" = s.
Proof. induction s as [|c r IH]; [done|]. by rewrite append_cons, IH. Qed.

Lemma append_assoc (a b c : string) : (a +:+ b) +:+ c = a +:+ (b +:+ c).
Proof. induction a as [|x a IH]; [done|]. by rewrite !append_cons, IH. Qed.

Lemma rev_app_append r acc : String.rev_app r acc = String.rev r +:+ acc.
Proof.
  unfold String.rev. revert acc. induction r as [|a r IH]; intros acc; [done|].
  cbn [String.rev_app]. rewrite (IH (String a acc)), (IH (String a "")).
  by rewrite append_assoc.
Qed.

Lemma rev_app_rev_app s acc t :
  String.rev_app (String.rev_app s acc) t = String.rev_app acc (s +:+ t).
Proof.
  revert acc t. induction s as [|a s IH]; intros acc t; [done|].
  cbn [String.rev_app]. by rewrite IH.
Qed.

Lemma rev_involutive s : String.rev (String.rev s) = s.
Proof. unfold String.rev. rewrite rev_app_rev_app. cbn. apply append_empty_r. Qed.

Lemma rev_append a b : String.rev (a +:+ b) = String.rev b +:+ String.rev a.
Proof.
  assert (H : forall acc, String.rev_app (a +:+ b) acc
                          = String.rev_app b (String.rev_app a acc)).
  { induction a as [|x a IH]; intros acc; [done|].
    rewrite append_cons. cbn [String.rev_app]. apply IH. }
  unfold String.rev at 1. rewrite H. by rewrite rev_app_append.
Qed.

Lemma rev_length s : String.length (String.rev s) = String.length s.
Proof.
  assert (H : forall acc, String.length (String.rev_app s acc)
                          = (String.length s + String.length acc)%nat).
  { induction s as [|a s IH]; intros acc; [done|].
    cbn [String.rev_app]. rewrite IH. simpl. lia. }
  unfold String.rev. rewrite H. simpl. lia.
Qed.

Lemma trimStart_length s : (String.length (trimStart s) <= String.length s)%nat.
Proof.
  induction s as [|c r IH]; [done|]. cbn [trimStart].
  destruct (isWhiteSpace c); simpl in *; lia.
Qed.

Lemma trim_length s : (String.length (trim s) <= String.length s)%nat.
Proof.
  unfold trim, trimEnd. rewrite rev_length.
  etrans; [apply trimStart_length|]. rewrite rev_length. apply trimStart_length.
Qed.

Lemma trimStart_no_leading s : startsWithWhiteSpace (trimStart s) = false.
Proof.
  induction s as [|c r IH]; [done|]. cbn [trimStart].
  by destruct (isWhiteSpace c) eqn:Hc; [|simpl].
Qed.

Lemma trimStart_fixed s : startsWithWhiteSpace s = false -> trimStart s = s.
Proof. destruct s as [|c r]; [done|]. simpl. by intros ->. Qed.

Lemma trimStart_before_last x c :
  isWhiteSpace c = false ->
  exists y, trimStart (x +:+ String c "") = y +:+ String c "".
Proof.
  intros Hc. induction x as [|a x IH].
  - exists "". simpl. by rewrite Hc.
  - rewrite append_cons. cbn [trimStart]. destruct (isWhiteSpace a); [exact IH|].
    exists (String a x). by rewrite append_cons.
Qed.

Lemma trimEnd_no_leading s :
  startsWithWhiteSpace s = false -> startsWithWhiteSpace (trimEnd s) = false.
Proof.
  destruct s as [|c r]; [done|]. simpl. intros Hc. unfold trimEnd.
  assert (Hrev : String.rev (String c r) = String.rev r +:+ String c "").
  { unfold String.rev at 1. cbn [String.rev_app]. apply rev_app_append. }
  rewrite Hrev. destruct (trimStart_before_last (String.rev r) c Hc) as [y ->].
  rewrite rev_append. simpl. exact Hc.
Qed.

Lemma trim_idempotent s : trim (trim s) = trim s.
Proof.
  assert (Hlead : startsWithWhiteSpace (trim s) = false)
    by apply trimEnd_no_leading, trimStart_no_leading.
  unfold trim at 1. rewrite (trimStart_fixed _ Hlead).
  unfold trim, trimEnd. rewrite rev_involutive.
  by rewrite (trimStart_fixed _ (trimStart_no_leading _)).
Qed.

Lemma substring0_length n s : (String.length (substring0 n s) <= n)%nat.
Proof. destruct (substring0_prefix n s) as (_ & _ & ->). lia. Qed.

(** X15 (getPreviewText of the sidebar).  The preview of a note has at most
    100 characters and neither begins nor ends with white space: trimming
    it again changes nothing. *)
Theorem getPreviewText_short_and_trimmed htmlContent :
  (String.length (Sidebar.getPreviewText htmlContent) <= 100)%nat /\
  trim (Sidebar.getPreviewText htmlContent) = Sidebar.getPreviewText htmlContent /\
  startsWithWhiteSpace (Sidebar.getPreviewText htmlContent) = false /\
  startsWithWhiteSpace (String.rev (Sidebar.getPreviewText htmlContent)) = false.
Proof.
  unfold Sidebar.getPreviewText. split_and!.
  - etrans; [apply trim_length | apply substring0_length].
  - apply trim_idempotent.
  - apply trimEnd_no_leading, trimStart_no_leading.
  - unfold trim, trimEnd. rewrite rev_involutive. apply trimStart_no_leading.
Qed.

End PreviewFacts.

(** * Properties of the chat panel and of the response matcher *)

Section ChatPanelFacts.
Import ChatPanel.
Implicit Types (p : Panel) (e : Event).

(** X16 (thinkingTime of handleSubmit).  The simulated thinking time is
    between one and three seconds, grows with the length of the query by
    20 ms a character, and is three seconds exactly from 100 characters
    on. *)
Theorem thinkingTime_bounds (q q' : string) :
  (1000 <= thinkingTime q <= 3000)%Z /\
  (thinkingTime q = 3000%Z <-> (100 <= String.length q)%nat) /\
  ((String.length q <= 100)%nat ->
     thinkingTime q = (1000 + 20 * Z.of_nat (String.length q))%Z) /\
  ((String.length q <= String.length q')%nat -> (thinkingTime q <= thinkingTime q')%Z).
Proof.
  unfold thinkingTime.
  generalize (String.length q), (String.length q'). intros n n'.
  split_and!; [lia | lia | lia | lia..].
Qed.

Lemma thinkingTime_bounds_witness :
  thinkingTime "How do I create headings?" = 1500%Z /\
  (thinkingTime "hi" <= thinkingTime "How do I create headings?")%Z.
Proof.
  destruct (thinkingTime_bounds "hi" "How do I create headings?") as (_ & _ & _ & Hmono).
  destruct (thinkingTime_bounds "How do I create headings?" "") as (_ & _ & Hlin & _).
  split.
  - rewrite Hlin; [reflexivity | simpl; lia].
  - apply Hmono. simpl. lia.
Defined.

Lemma lastFive_length {A} (l : list A) : (length (lastFive l) <= 5)%nat.
Proof. unfold lastFive. rewrite length_drop. lia. Qed.

Lemma lastFive_suffix {A} (l : list A) : lastFive l `suffix_of` l.
Proof. unfold lastFive. apply suffix_drop. Qed.

Lemma contextEffect_after p p' :
  contextCurrent p -> conversationContext p' = conversationContext p ->
  (length (messages p) <= length (messages p'))%nat ->
  contextCurrent (contextEffect p').
Proof.
  unfold contextCurrent, contextEffect. intros Hp Hctx Hlen.
  destruct (1 <? length (messages p'))%nat eqn:Hlen'; simpl; rewrite Hlen'; [done|].
  rewrite Hctx, Hp. apply Nat.ltb_ge in Hlen'.
  destruct (1 <? length (messages p))%nat eqn:Hl; [|done].
  apply Nat.ltb_lt in Hl. lia.
Qed.

Lemma step_contextCurrent p e : contextCurrent p -> contextCurrent (step p e).
Proof.
  intros Hp. destruct e as [v|n1 n2|i n1 n2 rnd]; simpl.
  - exact Hp.
  - unfold commit, handleSubmit.
    destruct (negb (truthy (trim (inputValue p)))).
    + by rewrite bool_decide_eq_true_2.
    + rewrite bool_decide_eq_false_2.
      * apply (contextEffect_after p); [done|done|]. simpl. rewrite length_app. lia.
      * simpl. intros H. apply (f_equal length) in H. rewrite length_app in H.
        simpl in H. lia.
  - destruct (pending p !! i) as [t|]; [|done]. unfold commit, deliver.
    rewrite bool_decide_eq_false_2.
    + apply (contextEffect_after p); [done|done|]. simpl. rewrite length_app. lia.
    + simpl. intros H. apply (f_equal length) in H. rewrite length_app in H.
      simpl in H. lia.
Qed.

Lemma step_messages_prefix p e : messages p `prefix_of` messages (step p e).
Proof.
  destruct e as [v|n1 n2|i n1 n2 rnd]; simpl.
  - done.
  - unfold commit, handleSubmit.
    destruct (negb (truthy (trim (inputValue p)))).
    + by rewrite bool_decide_eq_true_2.
    + destruct (bool_decide _); [|unfold contextEffect; destruct (_ <? _)%nat];
        simpl; by apply prefix_app_r.
  - destruct (pending p !! i) as [t|]; [|done]. unfold commit, deliver.
    destruct (bool_decide _); [|unfold contextEffect; destruct (_ <? _)%nat];
        simpl; by apply prefix_app_r.
Qed.

(** X17 (the effect on [messages] that sets the conversation context,
    handleSubmit, the reply callback).  In every state the panel reaches
    from its initial one, the conversation context is the content of the
    last five messages (of all messages while there are fewer), or empty
    while only the welcome message exists; it never has more than five
    entries, and the welcome message stays the first message. *)
Theorem conversationContext_is_last_five now (es : list Event) :
  let p := run es (initial now) in
  contextCurrent p /\
  (length (conversationContext p) <= 5)%nat /\
  conversationContext p `suffix_of` (content <$> messages p) /\
  messages (initial now) `prefix_of` messages p.
Proof.
  assert (H : forall p0, contextCurrent p0 ->
                contextCurrent (run es p0) /\ messages p0 `prefix_of` messages (run es p0)).
  { induction es as [|e es IH]; intros p0 Hp0; [done|]. simpl.
    destruct (IH (step p0 e) (step_contextCurrent _ _ Hp0)) as [Hc Hpre].
    split; [done|]. etrans; [apply step_messages_prefix | done]. }
  intros p. destruct (H (initial now) eq_refl) as [Hc Hpre]. fold p in Hc, Hpre.
  split_and!; try done.
  - rewrite Hc. destruct (_ <? _)%nat; [|simpl; lia].
    rewrite length_fmap. apply lastFive_length.
  - rewrite Hc. destruct (_ <? _)%nat; [|apply suffix_nil].
    destruct (lastFive_suffix (messages p)) as [k Hk].
    exists (content <$> k). rewrite <- fmap_app. by rewrite <- Hk.
Qed.


(** X18 (handleSubmit, the reply callback, the context effect).  A submit
    of a blank input changes nothing.  Otherwise the user's message is
    appended with the input as typed, the input is cleared, the typing
    indicator shown and one reply scheduled after the thinking time; when it
    is delivered, the bot's message is appended, its content being the
    answer of the matcher to the query and the conversation context of
    before the submit, which does not hold the query itself. *)
Theorem exchange_answers_with_context_of_before p q now1 now2 now3 now4 rnd :
  whitespaceOnly q = false -> pending p = [] ->
  let p0 := step p (Typed q) in
  let p1 := step p0 (Submit now1 now2) in
  let p2 := step p1 (Deliver 0 now3 now4 rnd) in
  pending p1 = [mkReply (thinkingTime q) q (conversationContext p)] /\
  isTyping p1 = true /\ inputValue p1 = "" /\
  messages p1 = messages p ++ [mkMessage (numeral now1) q user now2] /\
  messages p2 =
    messages p ++
      [mkMessage (numeral now1) q user now2;
       mkMessage (numeral (now3 + 1))
                 (Chat.generateIntelligentResponse q (conversationContext p) rnd)
                 bot now4] /\
  isTyping p2 = false /\ pending p2 = [] /\
  (forall blank, whitespaceOnly blank = true ->
     step (step p (Typed blank)) (Submit now1 now2) = step p (Typed blank)).
Proof.
  intros Hq Hpending p0 p1 p2.
  assert (Hsub : handleSubmit now1 now2 p0 =
                 mkPanel (messages p ++ [mkMessage (numeral now1) q user now2]) "" true
                         (conversationContext p)
                         [mkReply (thinkingTime q) q (conversationContext p)]).
  { unfold handleSubmit, p0. simpl. rewrite truthy_trim, Hq. simpl.
    by rewrite Hpending. }
  assert (Hp1 : p1 = contextEffect (handleSubmit now1 now2 p0)).
  { unfold p1. simpl. unfold commit. rewrite bool_decide_eq_false_2; [done|].
    rewrite Hsub. simpl. intros H. apply (f_equal length) in H.
    rewrite length_app in H. simpl in H. lia. }
  rewrite Hsub in Hp1.
  assert (Hm1 : messages p1 = messages p ++ [mkMessage (numeral now1) q user now2]).
  { rewrite Hp1. unfold contextEffect. by destruct (_ <? _)%nat. }
  assert (Hpend1 : pending p1 = [mkReply (thinkingTime q) q (conversationContext p)]).
  { rewrite Hp1. unfold contextEffect. by destruct (_ <? _)%nat. }
  assert (Hp2 : p2 = contextEffect
                       (deliver (mkReply (thinkingTime q) q (conversationContext p))
                                now3 now4 rnd (with_pending [] p1))).
  { unfold p2. simpl. rewrite Hpend1. simpl. unfold commit.
    rewrite bool_decide_eq_false_2; [done|].
    simpl. intros H. apply (f_equal length) in H.
    rewrite length_app in H. simpl in H. lia. }
  split_and!.
  - exact Hpend1.
  - rewrite Hp1. unfold contextEffect. by destruct (_ <? _)%nat.
  - rewrite Hp1. unfold contextEffect. by destruct (_ <? _)%nat.
  - exact Hm1.
  - rewrite Hp2. unfold contextEffect, deliver.
    destruct (_ <? _)%nat; simpl; rewrite Hm1, <- app_assoc; reflexivity.
  - rewrite Hp2. unfold contextEffect. by destruct (_ <? _)%nat.
  - rewrite Hp2. unfold contextEffect. by destruct (_ <? _)%nat.
  - intros blank Hb. simpl. unfold commit, handleSubmit. simpl.
    rewrite truthy_trim, Hb. simpl. by rewrite bool_decide_eq_true_2.
Qed.

Lemma exchange_answers_with_context_of_before_witness :
  messages
    (step (step (step (initial 1000) (Typed "Remind me of the plants")) (Submit 5000 5000))
          (Deliver 0 6460 6460 (Chat.mkRandom 1 5 eq_refl)))
  = messages (initial 1000) ++
      [mkMessage (numeral 5000) "Remind me of the plants" user 5000;
       mkMessage (numeral (6460 + 1))
                 (Chat.generateIntelligentResponse "Remind me of the plants"
                    (conversationContext (initial 1000)) (Chat.mkRandom 1 5 eq_refl))
                 bot 6460] /\
  conversationContext (initial 1000) = [].
Proof.
  split; [|reflexivity].
  exact (proj1 (proj2 (proj2 (proj2 (proj2
           (exchange_answers_with_context_of_before (initial 1000)
              "Remind me of the plants" 5000 5000 6460 6460 (Chat.mkRandom 1 5 eq_refl)
              eq_refl eq_refl)))))).
Defined.

End ChatPanelFacts.

Section MatcherFacts.
Import Chat.

Lemma literal_append_truthy c (a b : string) : truthy (String c a +:+ b) = true.
Proof. reflexivity. Qed.

Lemma firstReturn_cases (blocks : list (option string)) (otherwise : string) :
  (exists r, Some r ∈ blocks /\ firstReturn blocks otherwise = r) \/
  firstReturn blocks otherwise = otherwise.
Proof.
  induction blocks as [|[r|] rest IH]; simpl.
  - by right.
  - left. exists r. split; [apply list_elem_of_here | done].
  - destruct IH as [(r & Hr & Heq)|Heq]; rewrite Heq; [left|by right].
    exists r. split; [by apply list_elem_of_further | done].
Qed.

Lemma fallback_truthy query rnd : truthy (fallback query rnd) = true.
Proof.
  unfold fallback.
  assert (H : randomEntry rnd (thoughtfulResponses query) "" ∈ thoughtfulResponses query)
    by (by apply randomEntry_elem_of).
  unfold thoughtfulResponses in H at 2.
  repeat (apply elem_of_cons in H as [->|H]; [reflexivity|]).
  by apply elem_of_nil in H.
Qed.

Ltac split_ifs :=
  repeat match goal with
         | H : context [if ?b then _ else _] |- _ => destruct b
         end.

Lemma rules_truthy queryLower context rnd r :
  Some r ∈ [ topicRule queryLower; greetingRule queryLower; gratitudeRule queryLower;
             questionRule queryLower rnd; templateRule queryLower; helpRule queryLower;
             contextRule context rnd ] ->
  truthy r = true.
Proof.
  intros H.
  repeat (apply elem_of_cons in H as [H|H];
          [unfold topicRule, greetingRule, gratitudeRule, questionRule, templateRule,
             helpRule, contextRule in H;
           split_ifs; try discriminate H; injection H as ->; reflexivity|]).
  by apply elem_of_nil in H.
Qed.

(** X20 (generateIntelligentResponse).  The matcher answers every
    utterance, in every context and for every reading of [Math.random()],
    with a reply that is not empty. *)
Theorem reply_is_never_empty query context rnd :
  generateIntelligentResponse query context rnd <> "".
Proof.
  intros Hempty. apply truthy_false_iff in Hempty. revert Hempty.
  unfold generateIntelligentResponse. cbv zeta.
  match goal with
  | |- truthy (firstReturn ?blocks ?otherwise) = false -> False =>
      destruct (firstReturn_cases blocks otherwise) as [(r & Hr & Heq)|Heq]; rewrite Heq
  end.
  - by rewrite (rules_truthy _ _ _ _ Hr).
  - by rewrite fallback_truthy.
Qed.


Lemma firstReturn_same_blocks (blocks : list (option string)) (a b : string) :
  firstReturn blocks a = firstReturn blocks b \/
  (firstReturn blocks a = a /\ firstReturn blocks b = b).
Proof.
  induction blocks as [|[r|] rest IH]; simpl; [by right | by left | exact IH].
Qed.

(** X19 (generateIntelligentResponse).  The matcher ignores the case of the
    utterance: two utterances with the same lower-case form get the same
    reply in the same context and for the same reading of [Math.random()],
    unless both fall through to the fallback and it picks its second
    entry, which quotes each utterance as typed. *)
Theorem reply_ignores_case_of_utterance query1 query2 context rnd :
  toLowerCase query1 = toLowerCase query2 ->
  generateIntelligentResponse query1 context rnd =
    generateIntelligentResponse query2 context rnd \/
  (thoughtfulResponses query1 !! 1%nat = Some (generateIntelligentResponse query1 context rnd) /\
   thoughtfulResponses query2 !! 1%nat = Some (generateIntelligentResponse query2 context rnd)).
Proof.
  intros Hlow. unfold generateIntelligentResponse. cbv zeta. rewrite Hlow.
  match goal with
  | |- firstReturn ?blocks ?a = firstReturn ?blocks ?b \/ _ =>
      destruct (firstReturn_same_blocks blocks a b) as [Heq|[Ha Hb]]
  end; [by left|].
  rewrite Ha, Hb. unfold fallback, randomEntry, thoughtfulResponses.
  cbn [length]. destruct (randomIndex rnd 5) as [|[|[|[|[|i]]]]]; cbn [nth];
    first [by left | by right].
Qed.

Lemma reply_ignores_case_of_utterance_witness :
  generateIntelligentResponse "HOW DO I ADD A HEADING?" [] (mkRandom 1 5 eq_refl) =
    generateIntelligentResponse "how do i add a heading?" [] (mkRandom 1 5 eq_refl) \/
  (thoughtfulResponses "HOW DO I ADD A HEADING?" !! 1%nat =
     Some (generateIntelligentResponse "HOW DO I ADD A HEADING?" [] (mkRandom 1 5 eq_refl)) /\
   thoughtfulResponses "how do i add a heading?" !! 1%nat =
     Some (generateIntelligentResponse "how do i add a heading?" [] (mkRandom 1 5 eq_refl))).
Proof.
  apply (reply_ignores_case_of_utterance "HOW DO I ADD A HEADING?"
           "how do i add a heading?" [] (mkRandom 1 5 eq_refl)).
  reflexivity.
Defined.

End MatcherFacts.

(** * Further properties of the component [Note] *)

Section NoteShellFacts.
Import Autosave NoteShell.
Implicit Types (v : View) (r : Render) (t : Timer) (n : Note.t) (sh : Shell)
  (e : KeyboardEvent).

Lemma commitEffects_saveStatus r0 v :
  stale r0 v -> render v <> r0 ->
  saveStatus (commitEffects v) = statusAfterRender r0 v.
Proof.
  intros [Hi Ha Ht Hh] Hne.
  unfold commitEffects, statusAfterRender. rewrite Ha, Hi.
  rewrite (bool_decide_eq_true_2 (Some r0 <> Some (render v))) by congruence.
  unfold render in *. remember (result getActiveNote (store v)) as act eqn:Hact.
  destruct v as [st c ti ed ss ref iD aD tm nh ck cm]. simpl in *.
  clear Ht Hh.
  unfold autosaveCleanup, clearSaveTimeout, initEffect, autosaveEffect, clearSaveTimeout.
  simpl.
  destruct act as [n|]; simpl.
  - destruct (decide (Some (Note.id n) = Note.id <$> r_activeNote r0)) as [Hid|Hid].
    + rewrite <- Hid. rewrite bool_decide_eq_false_2 by (intros H; by apply H).
      destruct ed, ref as [h|]; unfold clearTimeout; simpl; done.
    + rewrite bool_decide_eq_true_2 by congruence.
      destruct ed, ref as [h|]; unfold clearTimeout; simpl; done.
  - rewrite andb_false_r.
    destruct (bool_decide (Some (Note.id <$> r_activeNote r0) <> Some None)),
      ref as [h|]; unfold clearTimeout; simpl; done.
Qed.

Lemma update_saveStatus r0 v :
  stale r0 v -> render v <> r0 ->
  saveStatus (update v) = statusAfterRender r0 v.
Proof.
  intros Hst Hne.
  pose proof (commitEffects_stale _ _ Hst Hne) as P1.
  rewrite <- (commitEffects_saveStatus r0 v Hst Hne).
  unfold update. rewrite rerender_S.
  case_bool_decide as Hr1; [done|].
  pose proof (pass_stale _ _ _ P1) as Hst1.
  pose proof (commitEffects_stale _ _ Hst1 Hr1) as P2.
  assert (Hact1 : r_activeNote (render (commitEffects v)) = r_activeNote (render v)).
  { unfold render. cbn [r_activeNote]. by rewrite (pass_store _ _ _ P1). }
  destruct (r_activeNote (render v)) as [n|] eqn:Hact; cycle 1.
  { exfalso. apply Hr1. pose proof (pass_state _ _ _ P1) as Hstate.
    rewrite Hact in Hstate. destruct Hstate as (? & ? & ?).
    apply render_eq; try done. apply (pass_store _ _ _ P1). }
  destruct (decide (Some (Note.id n) = Note.id <$> r_activeNote r0)) as [Hid|Hid].
  { exfalso. apply Hr1. pose proof (pass_state _ _ _ P1) as Hstate.
    rewrite Hact in Hstate. rewrite decide_True in Hstate by done.
    destruct Hstate as (? & ? & ?). apply render_eq; try done.
    apply (pass_store _ _ _ P1). }
  pose proof (pass_state _ _ _ P1) as Hstate1.
  rewrite Hact, decide_False in Hstate1 by done.
  destruct Hstate1 as (Hc1 & Ht1 & He1).
  assert (Hr2 : render (commitEffects (commitEffects v)) = render (commitEffects v)).
  { pose proof (pass_state _ _ _ P2) as Hstate2.
    rewrite Hact1 in Hstate2. cbv beta iota in Hstate2. rewrite Hact in Hstate2.
    rewrite decide_True in Hstate2 by done.
    destruct Hstate2 as (? & ? & ?). apply render_eq; try done.
    apply (pass_store _ _ _ P2). }
  rewrite rerender_S. rewrite bool_decide_eq_true_2 by exact Hr2.
  rewrite (commitEffects_saveStatus _ _ Hst1 Hr1).
  unfold statusAfterRender. rewrite He1, Hact1. cbn [andb].
  rewrite Hact. cbv beta iota. by rewrite decide_True.
Qed.


(** What [handleSave] of the current render does, followed by the renders
    it causes, on a view [v0] that differs from the settled view [v] at most
    by its clock and by the pending timer being gone. *)
Lemma save_generic v v0 n :
  settled v -> r_activeNote (render v) = Some n -> isEdited v = true ->
  store v0 = store v -> content v0 = content v -> title v0 = title v ->
  commits v0 = commits v -> initDeps v0 = initDeps v ->
  autosaveDeps v0 = autosaveDeps v ->
  (timers v0 = timers v \/ timers v0 = []) ->
  saveTimeoutRef v0 = saveTimeoutRef v -> nextHandle v0 = nextHandle v ->
  let v' := update (handleSave (render v) v0) in
  settled v' /\ timers v' = [] /\ clock v' = clock v0 /\
  commits v' = commits v ++ [commitOf (clock v0) n v] /\
  store v' = exec (updateNote (Note.id n)
                     (Note.titleAndContent (title v) (content v)) (clock v0))
                  (store v) /\
  title v' = title v /\ content v' = content v /\ isEdited v' = false /\
  saveStatus v' = Some saved.
Proof.
  intros Hv Hact He Es Eco Eti Ecm Ei Ea Et Er En. simpl.
  assert (Hst : stale (render v) (handleSave (render v) v0)).
  { destruct Hv as [Hi Ha Ht Hh]. unfold handleSave. rewrite Hact.
    split; simpl; try done.
    - by rewrite Ei.
    - by rewrite Ea.
    - rewrite Er. destruct Et as [->| ->]; [|by left].
      destruct Ht as [Ht | (t & Ht & Href & _)]; [by left|]. right. by exists t.
    - rewrite Er, En. exact Hh. }
  assert (Hne : render (handleSave (render v) v0) <> render v).
  { unfold handleSave. rewrite Hact. unfold render. simpl. rewrite He.
    intros [= _]. }
  pose proof (update_saveStatus _ _ Hst Hne) as Hstatus.
  destruct (update_stale _ _ Hst Hne) as [Us Uc Uk Uset Ust].
  assert (Hs1 : store (handleSave (render v) v0) =
                exec (updateNote (Note.id n)
                        (Note.titleAndContent (title v) (content v)) (clock v0))
                     (store v)).
  { unfold handleSave. rewrite Hact. simpl. by rewrite Es. }
  assert (Hid : Note.id <$> r_activeNote (render (handleSave (render v) v0)) =
                Some (Note.id n)).
  { change (r_activeNote (render (handleSave (render v) v0)))
      with (result getActiveNote (store (handleSave (render v) v0))).
    rewrite Hs1, updateNote_activeNote_id.
    change (result getActiveNote (store v)) with (r_activeNote (render v)).
    by rewrite Hact. }
  assert (Hfalse : isEdited (handleSave (render v) v0) = false).
  { unfold handleSave. by rewrite Hact. }
  assert (Hsaved : saveStatus (handleSave (render v) v0) = Some saved).
  { unfold handleSave. by rewrite Hact. }
  unfold statusAfterRender in Hstatus. rewrite Hfalse in Hstatus. cbn [andb] in Hstatus.
  destruct (r_activeNote (render (handleSave (render v) v0))) as [n'|] eqn:Hact';
    [|done].
  injection Hid as Hid. rewrite Hact in Ust, Hstatus. simpl in Ust, Hstatus.
  rewrite decide_True in Ust by (by rewrite Hid).
  rewrite decide_True in Hstatus by (by rewrite Hid).
  destruct Ust as (Hc & Hti & Hed & Htm).
  rewrite Hfalse in Htm, Hed.
  split_and!; try done.
  - rewrite Uk. unfold handleSave. by rewrite Hact.
  - rewrite Uc. unfold handleSave. rewrite Hact. simpl. by rewrite Ecm.
  - by rewrite Us.
  - rewrite Hti. unfold handleSave. rewrite Hact. simpl. exact Eti.
  - rewrite Hc. unfold handleSave. rewrite Hact. simpl. exact Eco.
  - by rewrite Hstatus.
Qed.

Lemma idle_commits v ms : timers v = [] -> commits (step v (Elapse ms)) = commits v.
Proof. intros Ht. by rewrite step_Elapse, (elapse_idle _ _ Ht), with_clock_commits. Qed.

Lemma handleKeyDown_save sh e :
  (ctrlKey e || metaKey e) = true -> toLowerCase (key e) = "s" ->
  handleKeyDown e sh =
    (true,
     if isEdited (view sh) && bool_decide (is_Some (r_activeNote (render (view sh))))
     then with_view (handleSave (render (view sh)) (view sh)) sh
     else sh).
Proof. intros Hc Hk. unfold handleKeyDown. cbv zeta. by rewrite Hc, Hk. Qed.

(** X21 (handleKeyDown, handleSave, the autosave effect).  Ctrl+S (or
    Cmd+S, in either case of the letter) on a note with unsaved edits saves
    at once: one commit with the title and content of the view at the
    current time, no timer left pending, so the save the debounce had
    scheduled never happens; the indicator shows "saved", the default
    action of the key is prevented, and the chat and the view mode stay as
    they are. *)
Theorem ctrl_s_saves_at_once sh e n :
  settled (view sh) -> r_activeNote (render (view sh)) = Some n ->
  isEdited (view sh) = true ->
  (ctrlKey e || metaKey e) = true -> toLowerCase (key e) = "s" ->
  let v := view sh in
  let v' := view (snd (keyDown e sh)) in
  fst (keyDown e sh) = true /\
  settled v' /\ timers v' = [] /\ clock v' = clock v /\
  commits v' = commits v ++ [mkCommit (clock v) (Note.id n) (title v) (content v)] /\
  store v' = exec (updateNote (Note.id n)
                     (Note.titleAndContent (title v) (content v)) (clock v))
                  (store v) /\
  title v' = title v /\ content v' = content v /\ isEdited v' = false /\
  saveStatus v' = Some saved /\
  (forall ms, commits (step v' (Elapse ms)) = commits v') /\
  isChatOpen (snd (keyDown e sh)) = isChatOpen sh /\
  viewMode (snd (keyDown e sh)) = viewMode sh.
Proof.
  intros Hv Hact He Hc Hk v v'.
  assert (Hkd : keyDown e sh =
                (true, with_view (update (handleSave (render v) v)) sh)).
  { unfold keyDown. rewrite (handleKeyDown_save sh e Hc Hk).
    rewrite He, Hact. rewrite bool_decide_eq_true_2 by eauto. reflexivity. }
  unfold v'. rewrite Hkd. cbn [fst snd view with_view isChatOpen viewMode].
  destruct (save_generic v v n Hv Hact He) as (H1&H2&H3&H4&H5&H6&H7&H8&H9);
    try done; [by left|].
  split_and!; try done.
  intros ms. by apply idle_commits.
Qed.


Lemma typed_settled : settled Scenario.typed.
Proof. apply step_settled, mount_settled. Qed.

Lemma opened_settled : settled Scenario.opened.
Proof. apply mount_settled. Qed.

Lemma typed_active : r_activeNote (render Scenario.typed) = Some Sample.groceries.
Proof. vm_compute. reflexivity. Qed.

Lemma typed_edited : isEdited Scenario.typed = true.
Proof. vm_compute. reflexivity. Qed.

Lemma ctrl_s_saves_at_once_witness :
  let sh := mkShell Scenario.typed false richtext in
  let e := mkKeyboardEvent true false "S" in
  timers (view (snd (keyDown e sh))) = [] /\
  saveStatus (view (snd (keyDown e sh))) = Some saved /\
  commits (view (snd (keyDown e sh))) =
    commits (view sh) ++
      [mkCommit (clock (view sh)) (Note.id Sample.groceries)
                (title (view sh)) (content (view sh))].
Proof.
  intros sh e.
  pose proof (ctrl_s_saves_at_once sh e Sample.groceries typed_settled typed_active
                typed_edited eq_refl eq_refl) as H.
  cbv zeta in H.
  destruct H as (_ & _ & Ht & _ & Hc & _ & _ & _ & _ & Hs & _).
  split; [exact Ht|]. split; [exact Hs | exact Hc].
Defined.

Lemma with_view_same sh : with_view (view sh) sh = sh.
Proof. by destruct sh. Qed.

Lemma keyDown_unchanged sh e prevented :
  settled (view sh) -> handleKeyDown e sh = (prevented, sh) ->
  keyDown e sh = (prevented, sh).
Proof.
  intros Hv Hk. unfold keyDown. rewrite Hk.
  by rewrite (update_settled _ Hv), with_view_same.
Qed.

Lemma keyDown_toggle sh e prevented sh' :
  settled (view sh) -> handleKeyDown e sh = (prevented, sh') -> view sh' = view sh ->
  keyDown e sh = (prevented, sh').
Proof.
  intros Hv Hk Hview. unfold keyDown. rewrite Hk, Hview.
  rewrite (update_settled _ Hv), <- Hview. by rewrite with_view_same.
Qed.

Lemma handleKeyDown_quiet sh e :
  (ctrlKey e || metaKey e) = false \/ toLowerCase (key e) <> "s" \/
    isEdited (view sh) = false \/ r_activeNote (render (view sh)) = None ->
  handleKeyDown e sh =
    if ctrlKey e || metaKey e then
      if String.eqb (toLowerCase (key e)) "s" then (true, sh)
      else if String.eqb (toLowerCase (key e)) "m" then (true, toggleViewMode sh)
      else if String.eqb (toLowerCase (key e)) "/" then (true, toggleChat sh)
      else (false, sh)
    else (false, sh).
Proof.
  intros Hcase. unfold handleKeyDown. cbv zeta.
  destruct (ctrlKey e || metaKey e); [|done].
  destruct (String.eqb (toLowerCase (key e)) "s") eqn:Hs; [|done].
  apply String.eqb_eq in Hs.
  destruct Hcase as [?|[?|[He|Hn]]]; try done.
  - change (r_isEdited (render (view sh))) with (isEdited (view sh)). by rewrite He.
  - rewrite Hn. rewrite (bool_decide_eq_false_2 (is_Some None)) by (by intros [? ?]).
    by rewrite andb_false_r.
Qed.

Lemma keyDown_quiet sh e :
  settled (view sh) ->
  (ctrlKey e || metaKey e) = false \/ toLowerCase (key e) <> "s" \/
    isEdited (view sh) = false \/ r_activeNote (render (view sh)) = None ->
  keyDown e sh =
    if ctrlKey e || metaKey e then
      if String.eqb (toLowerCase (key e)) "s" then (true, sh)
      else if String.eqb (toLowerCase (key e)) "m" then (true, toggleViewMode sh)
      else if String.eqb (toLowerCase (key e)) "/" then (true, toggleChat sh)
      else (false, sh)
    else (false, sh).
Proof.
  intros Hv Hcase. pose proof (handleKeyDown_quiet sh e Hcase) as Hk.
  destruct (ctrlKey e || metaKey e); [|by apply keyDown_unchanged].
  destruct (String.eqb (toLowerCase (key e)) "s"); [by apply keyDown_unchanged|].
  destruct (String.eqb (toLowerCase (key e)) "m"); [by apply keyDown_toggle|].
  destruct (String.eqb (toLowerCase (key e)) "/"); [by apply keyDown_toggle|].
  by apply keyDown_unchanged.
Qed.

(** X22 (handleKeyDown, toggleViewMode, toggleChat).  A key press that is
    not a save with something to save never touches the note: the view, its
    timer and the store included, stays as it is.  The default action is
    prevented exactly for Ctrl or Cmd with "s", "m" or "/" in either case;
    Ctrl+M flips the view mode and Ctrl+/ the chat, so the same key pressed
    twice restores the component; every other key changes nothing. *)
Theorem other_keys_leave_the_note_alone sh e :
  settled (view sh) ->
  (ctrlKey e || metaKey e) = false \/ toLowerCase (key e) <> "s" \/
    isEdited (view sh) = false \/ r_activeNote (render (view sh)) = None ->
  let k := toLowerCase (key e) in
  view (snd (keyDown e sh)) = view sh /\
  fst (keyDown e sh) =
    (ctrlKey e || metaKey e) && (String.eqb k "s" || String.eqb k "m" || String.eqb k "/") /\
  snd (keyDown e (snd (keyDown e sh))) = sh /\
  (viewMode (snd (keyDown e sh)) <> viewMode sh <->
     (ctrlKey e || metaKey e) = true /\ k = "m") /\
  (isChatOpen (snd (keyDown e sh)) <> isChatOpen sh <->
     (ctrlKey e || metaKey e) = true /\ k = "/").
Proof.
  intros Hv Hcase k.
  pose proof (keyDown_quiet sh e Hv Hcase) as Hkd. fold k in Hkd.
  assert (Hview : view (snd (keyDown e sh)) = view sh).
  { rewrite Hkd. by repeat case_match. }
  assert (Hkd2 := keyDown_quiet (snd (keyDown e sh)) e).
  rewrite Hview in Hkd2. specialize (Hkd2 Hv Hcase). fold k in Hkd2.
  split; [exact Hview|].
  rewrite Hkd2, Hkd. clear Hkd Hkd2 Hview.
  destruct (ctrlKey e || metaKey e);
    [|split_and!; try done; (split; [done | by intros [? _]])].
  destruct (String.eqb k "s") eqn:Hs.
  { apply String.eqb_eq in Hs. rewrite Hs. cbn.
    split_and!; try done; split; try done; by intros [_ ?]. }
  destruct (String.eqb k "m") eqn:Hm.
  { apply String.eqb_eq in Hm. rewrite Hm. cbn.
    destruct sh as [v0 chat [|]]; cbn; split_and!; try done; split; try done;
      by intros [_ ?]. }
  destruct (String.eqb k "/") eqn:Hsl.
  { apply String.eqb_eq in Hsl. rewrite Hsl. cbn.
    destruct sh as [v0 [|] mode]; cbn; split_and!; try done; split; try done;
      by intros [_ ?]. }
  apply String.eqb_neq in Hm, Hsl. cbn.
  split_and!; try done; split; try done; by intros [_ ?].
Qed.

Lemma other_keys_leave_the_note_alone_witness :
  let sh := mkShell Scenario.typed false richtext in
  let e := mkKeyboardEvent false true "M" in
  view (snd (keyDown e sh)) = view sh /\
  fst (keyDown e sh) = true /\
  snd (keyDown e (snd (keyDown e sh))) = sh.
Proof.
  intros sh e.
  assert (Hcase : (ctrlKey e || metaKey e) = false \/ toLowerCase (key e) <> "s" \/
                  isEdited (view sh) = false \/ r_activeNote (render (view sh)) = None)
    by (right; left; discriminate).
  pose proof (other_keys_leave_the_note_alone sh e typed_settled Hcase) as H.
  cbv zeta in H. destruct H as (H1 & H2 & H3 & _).
  split; [exact H1|]. split; [exact H2 | exact H3].
Defined.



(** X24 (the autosave effect and its dependency array).  A change of the
    store that gives the active note a new value under the same id while
    edits are unsaved restarts the debounce: the pending timer is replaced
    by one due a second after the change; nothing is committed, and the
    edited title and content stay in the view. *)
Theorem active_note_changed_restarts_debounce v (action : Store.M unit) n n' :
  settled v -> isEdited v = true ->
  result getActiveNote (store v) = Some n ->
  result getActiveNote (exec action (store v)) = Some n' ->
  Note.id n' = Note.id n -> n' <> n ->
  let v' := step v (StoreChange action) in
  settled v' /\
  armedBy v' (mkTimer (nextHandle v) (clock v + 1000) (render v')) /\
  commits v' = commits v /\ clock v' = clock v /\
  store v' = exec action (store v) /\
  title v' = title v /\ content v' = content v /\ isEdited v' = true /\
  saveStatus v' = Some saving.
Proof.
  intros Hv He Hact Hact' Hid Hne. simpl.
  set (v1 := with_store (exec action (store v)) v).
  assert (Hst : stale (render v) v1) by (by apply settled_stale).
  assert (Hr : render v1 <> render v).
  { intros Hr. apply Hne.
    pose proof (f_equal r_activeNote Hr) as H. unfold render, v1 in H. simpl in H.
    congruence. }
  pose proof (update_saveStatus _ _ Hst Hr) as Hstatus.
  destruct (update_stale _ _ Hst Hr) as [Us Uc Uk Uset Ust].
  change (r_activeNote (render v1)) with (result getActiveNote (exec action (store v)))
    in Ust.
  change (r_activeNote (render v)) with (result getActiveNote (store v)) in Ust.
  rewrite Hact', Hact in Ust. simpl in Ust.
  rewrite decide_True in Ust by (by rewrite Hid).
  destruct Ust as (Hc & Ht & Hed & Harm).
  assert (Hrender : render (update v1) = render v1) by (by apply render_eq).
  change (isEdited v1) with (isEdited v) in Harm, Hed. rewrite He in Harm, Hed.
  unfold statusAfterRender in Hstatus.
  change (isEdited v1) with (isEdited v) in Hstatus.
  change (r_activeNote (render v1)) with (result getActiveNote (exec action (store v)))
    in Hstatus.
  rewrite He, Hact' in Hstatus.
  rewrite bool_decide_eq_true_2 in Hstatus by eauto. cbn [andb] in Hstatus.
  split_and!; try done. by rewrite Hrender.
Qed.

Lemma typed_message_added :
  result getActiveNote
    (exec (addMessage "n1" Sample.hello "m1" 10500 10500) (store Scenario.typed))
  = Some (Note.mk "n1" "Groceries" "<p>milk</p>"
                  [Message.mk "m1" "hello" Message.user 10500] 10500).
Proof. vm_compute. reflexivity. Qed.

Lemma typed_active_store : result getActiveNote (store Scenario.typed) = Some Sample.groceries.
Proof. vm_compute. reflexivity. Qed.

Lemma active_note_changed_restarts_debounce_witness :
  let v' := step Scenario.typed
                 (StoreChange (addMessage "n1" Sample.hello "m1" 10500 10500)) in
  armedBy v' (mkTimer (nextHandle Scenario.typed) (clock Scenario.typed + 1000) (render v')) /\
  commits v' = commits Scenario.typed.
Proof.
  intros v'.
  pose proof (active_note_changed_restarts_debounce Scenario.typed
                (addMessage "n1" Sample.hello "m1" 10500 10500) Sample.groceries _
                typed_settled typed_edited typed_active_store typed_message_added
                eq_refl ltac:(discriminate)) as H.
  cbv zeta in H. destruct H as (_ & Harm & Hc & _).
  split; [exact Harm | exact Hc].
Defined.

Lemma clearSaveTimeout_settled v :
  settled v ->
  timers (clearSaveTimeout v) = [] /\ commits (clearSaveTimeout v) = commits v /\
  store (clearSaveTimeout v) = store v /\ clock (clearSaveTimeout v) = clock v.
Proof.
  intros [_ _ Ht _]. unfold clearSaveTimeout.
  destruct Ht as [Ht | (t & Ht & Href & _)].
  - destruct (saveTimeoutRef v) as [h|]; [|done]. unfold clearTimeout. simpl.
    by rewrite Ht.
  - rewrite Href. unfold clearTimeout. simpl. rewrite Ht. simpl.
    by rewrite Nat.eqb_refl.
Qed.

(** X25 (the cleanup of the autosave effect).  Unmounting the component
    cancels the pending save and commits nothing: edits made less than a
    second before are never written to the store, however long one waits. *)
Theorem unmount_drops_pending_save v ms :
  settled v ->
  let u := unmount v in
  timers u = [] /\ commits u = commits v /\ store u = store v /\
  commits (step u (Elapse ms)) = commits v /\
  store (step u (Elapse ms)) = store v.
Proof.
  intros Hv u. destruct (clearSaveTimeout_settled v Hv) as (Ht & Hc & Hs & Hk).
  unfold u, unmount, autosaveCleanup. split_and!; try done.
  - by rewrite (idle_commits _ _ Ht).
  - by rewrite step_Elapse, (elapse_idle _ _ Ht), with_clock_store.
Qed.

Lemma unmount_drops_pending_save_witness :
  timers (unmount Scenario.typed) = [] /\
  commits (step (unmount Scenario.typed) (Elapse 60000)) = commits Scenario.typed.
Proof.
  pose proof (unmount_drops_pending_save Scenario.typed 60000 typed_settled) as H.
  cbv zeta in H. destruct H as (Ht & _ & _ & Hc & _).
  split; [exact Ht | exact Hc].
Defined.


Lemma with_clock_saveStatus now v : saveStatus (with_clock now v) = saveStatus v.
Proof. reflexivity. Qed.

Lemma with_clock_title now v : title (with_clock now v) = title v.
Proof. reflexivity. Qed.

Lemma with_clock_isEdited now v : isEdited (with_clock now v) = isEdited v.
Proof. reflexivity. Qed.

Lemma fire_saveStatus v t n :
  settled v -> armedBy v t -> r_activeNote (render v) = Some n ->
  saveStatus (fire t v) = Some saved.
Proof.
  intros Hv Harm Hact.
  destruct Harm as (Ht & Href & Hcb & He & _ & Hclock).
  unfold fire. rewrite Hcb.
  set (v0 := with_clock (Z.max (clock (clearTimeout (handle t) v)) (fireAt t))
                        (clearTimeout (handle t) v)).
  assert (Htm : timers v0 = timers v \/ timers v0 = []).
  { right. unfold v0, clearTimeout. simpl. rewrite Ht. simpl. by rewrite Nat.eqb_refl. }
  pose proof (save_generic v v0 n Hv Hact He eq_refl eq_refl eq_refl eq_refl eq_refl
                eq_refl Htm eq_refl eq_refl) as H.
  cbv zeta in H. exact (proj2 (proj2 (proj2 (proj2 (proj2 (proj2 (proj2 (proj2 H)))))))).
Qed.

Lemma edit_saveStatus v (e : Autosave.Event) n :
  settled v -> r_activeNote (render v) = Some n -> effectiveEdit v e ->
  saveStatus (step v e) = Some saving.
Proof.
  intros Hv Hact Heff.
  assert (Hgen : forall v1,
    stale (render v) v1 -> render v1 <> render v -> store v1 = store v ->
    isEdited v1 = true -> saveStatus (update v1) = Some saving).
  { intros v1 Hst Hne Es Ee. rewrite (update_saveStatus _ _ Hst Hne).
    unfold statusAfterRender. rewrite Ee.
    assert (Hact1 : r_activeNote (render v1) = Some n).
    { unfold render in *. simpl in *. by rewrite Es. }
    rewrite Hact1. by rewrite bool_decide_eq_true_2 by eauto. }
  destruct e as [value | newContent | |]; simpl in Heff; try done.
  - apply (Hgen (handleTitleChange value v)); try done.
    + by apply settled_stale.
    + unfold render. simpl. intros [= H1 H2]. destruct Heff; congruence.
  - apply (Hgen (handleContentChange newContent v)); try done.
    + by apply settled_stale.
    + unfold render. simpl. intros [= H1 H2]. destruct Heff; congruence.
Qed.

(** X26 (the save indicator: setSaveStatus in the autosave effect and in
    handleSave).  From an edit that changes something the indicator shows
    "saving" for as long as the save is pending, and "saved" once the
    debounce has fired. *)
Theorem indicator_saving_until_saved v (e : Autosave.Event) n (ms : N) :
  settled v -> r_activeNote (render v) = Some n -> effectiveEdit v e ->
  let v1 := step v e in
  saveStatus v1 = Some saving /\
  ((ms < 1000)%N -> saveStatus (step v1 (Elapse ms)) = Some saving) /\
  ((1000 <= ms)%N -> saveStatus (step v1 (Elapse ms)) = Some saved).
Proof.
  intros Hv Hact Heff v1.
  pose proof (edit_saveStatus v e n Hv Hact Heff) as Hsaving.
  destruct (edit_arms v e n Hv Hact Heff) as (Hv1 & Hs & _ & Hk & _ & Harm & _).
  fold v1 in Hsaving, Hv1, Hs, Hk, Harm.
  assert (Hact1 : r_activeNote (render v1) = Some n).
  { change (result getActiveNote (store v1) = Some n). rewrite Hs. exact Hact. }
  split; [exact Hsaving|].
  destruct (elapse_settled v1 ms Hv1) as (_ & _ & Hcases). cbv zeta in Hcases.
  split; intros Hms.
  - destruct Hcases as [[Ht _]|[(t & Ht & _ & ->)|(t & n0 & Ht & Hdue & _)]].
    + destruct Harm as (Harm & _). congruence.
    + by rewrite with_clock_saveStatus.
    + rewrite (armedBy_unique _ _ _ Harm Ht) in Hdue. simpl in Hdue. lia.
  - destruct Hcases as [[Ht _]|[(t & Ht & Hearly & _)|(t & n0 & Ht & _ & _ & -> & _)]].
    + destruct Harm as (Harm & _). congruence.
    + rewrite (armedBy_unique _ _ _ Harm Ht) in Hearly. simpl in Hearly. lia.
    + rewrite with_clock_saveStatus. by apply (fire_saveStatus v1 t n).
Qed.

Lemma opened_active : r_activeNote (render Scenario.opened) = Some Sample.groceries.
Proof. vm_compute. reflexivity. Qed.

Lemma opened_clean : isEdited Scenario.opened = false.
Proof. vm_compute. reflexivity. Qed.

Lemma indicator_saving_until_saved_witness :
  let v1 := step Scenario.opened (TitleChange "Shop") in
  saveStatus v1 = Some saving /\
  saveStatus (step v1 (Elapse 1000)) = Some saved.
Proof.
  intros v1.
  assert (Heff : effectiveEdit Scenario.opened (TitleChange "Shop"))
    by (right; exact opened_clean).
  pose proof (indicator_saving_until_saved Scenario.opened (TitleChange "Shop")
                Sample.groceries 1000 opened_settled opened_active Heff) as H.
  cbv zeta in H. destruct H as (H1 & _ & H3).
  split; [exact H1 | apply H3; reflexivity].
Defined.

(** X27 (the init effect and the autosave effect on a change of the active
    note).  Leaving a note with unsaved edits for another note discards the
    edits and cancels the save, yet the indicator is left on "saving": the
    autosave effect of the first render after the switch still sees
    [isEdited], and nothing sets the status afterwards. *)
Theorem switch_with_unsaved_edits_leaves_saving v (action : Store.M unit) n' (ms : N) :
  settled v -> isEdited v = true ->
  result getActiveNote (exec action (store v)) = Some n' ->
  Some (Note.id n') <> Note.id <$> result getActiveNote (store v) ->
  let v' := step v (StoreChange action) in
  saveStatus v' = Some saving /\
  timers v' = [] /\ isEdited v' = false /\
  title v' = Note.title n' /\ content v' = Note.content n' /\
  saveStatus (step v' (Elapse ms)) = Some saving /\
  commits (step v' (Elapse ms)) = commits v.
Proof.
  intros Hv He Hact' Hid v'.
  assert (Hid' : Note.id <$> result getActiveNote (exec action (store v))
                 <> Note.id <$> result getActiveNote (store v))
    by (by rewrite Hact').
  destruct (switch_cancels v action Hv Hid') as (_ & Ht & Hc & _ & _ & Hload).
  fold v' in Ht, Hc, Hload. rewrite Hact' in Hload. destruct Hload as (Hti & Hco & Hed).
  assert (Hstatus : saveStatus v' = Some saving).
  { unfold v'. simpl. set (v1 := with_store (exec action (store v)) v).
    assert (Hst : stale (render v) v1) by (by apply settled_stale).
    assert (Hr : render v1 <> render v).
    { intros Hr. apply Hid'. exact (f_equal (fun r => Note.id <$> r_activeNote r) Hr). }
    rewrite (update_saveStatus _ _ Hst Hr). unfold statusAfterRender.
    change (isEdited v1) with (isEdited v).
    change (r_activeNote (render v1)) with (result getActiveNote (exec action (store v))).
    rewrite He, Hact'. by rewrite bool_decide_eq_true_2 by eauto. }
  split_and!; try done.
  - by rewrite step_Elapse, (elapse_idle _ _ Ht), with_clock_saveStatus.
  - by rewrite (idle_commits _ _ Ht).
Qed.

Lemma typed_switched :
  result getActiveNote (exec (setActiveNote "n2") (store Scenario.typed)) = Some Sample.ideas.
Proof. vm_compute. reflexivity. Qed.

Lemma typed_switched_id :
  Some (Note.id Sample.ideas) <> Note.id <$> result getActiveNote (store Scenario.typed).
Proof. rewrite typed_active_store. discriminate. Qed.

Lemma switch_with_unsaved_edits_leaves_saving_witness :
  let v' := step Scenario.typed (StoreChange (setActiveNote "n2")) in
  saveStatus v' = Some saving /\ timers v' = [] /\ isEdited v' = false.
Proof.
  intros v'.
  pose proof (switch_with_unsaved_edits_leaves_saving Scenario.typed (setActiveNote "n2")
                Sample.ideas 5000 typed_settled typed_edited typed_switched
                typed_switched_id) as H.
  cbv zeta in H. destruct H as (H1 & H2 & H3 & _).
  split; [exact H1|]. split; [exact H2 | exact H3].
Defined.


Lemma getActiveNote_Some_getNoteById (s : NotesState) n :
  result getActiveNote s = Some n -> result (getNoteById (Note.id n)) s = Some n.
Proof.
  intros Hact. rewrite getActiveNote_unfold in Hact.
  destruct (find_Some_findIndex _ _ _ Hact) as (i & _ & _ & Hid).
  rewrite <- (getActiveNote_getNoteById s (Note.id n)) by done.
  by rewrite getActiveNote_unfold.
Qed.

(** X28 (handleTitleChange, the autosave effect, handleSave, the guard of
    updateNote).  Clearing the title of a note whose content is as stored
    is never saved: the debounce fires and calls [updateNote] with the
    empty title, the indicator shows "saved" and the view keeps the empty
    title without unsaved edits, but the store is unchanged and the note
    keeps its old title. *)
Theorem cleared_title_is_reported_saved_but_not_stored v n (ms : N) :
  settled v -> r_activeNote (render v) = Some n ->
  content v = Note.content n ->
  title v <> "" \/ isEdited v = false ->
  (1000 <= ms)%N ->
  let v2 := step (step v (TitleChange "")) (Elapse ms) in
  commits v2 = commits v ++ [mkCommit (clock v + 1000) (Note.id n) "" (Note.content n)] /\
  store v2 = store v /\
  r_activeNote (render v2) = Some n /\
  title v2 = "" /\ isEdited v2 = false /\ timers v2 = [] /\
  saveStatus v2 = Some saved.
Proof.
  intros Hv Hact Hco Hclear Hms v2.
  assert (Heff : effectiveEdit v (TitleChange "")).
  { simpl. destruct Hclear as [?|?]; [left; congruence | by right]. }
  destruct (edit_arms v (TitleChange "") n Hv Hact Heff)
    as (Hv1 & Hs1 & Hc1 & Hk1 & _ & Harm1 & Hti1 & Hco1).
  set (v1 := step v (TitleChange "")) in *.
  assert (Hact1 : r_activeNote (render v1) = Some n).
  { change (result getActiveNote (store v1) = Some n). rewrite Hs1. exact Hact. }
  assert (Hnoop : forall now,
            exec (updateNote (Note.id n) (Note.titleAndContent (title v1) (content v1)) now)
                 (store v1) = store v).
  { intros now. rewrite Hti1, Hco1, Hco, Hs1. unfold exec.
    by rewrite (updateNote_cleared_title_noop (store v) (Note.id n) now n
                  (getActiveNote_Some_getNoteById _ _ Hact)). }
  destruct (elapse_settled v1 ms Hv1) as (_ & _ & Hcases). cbv zeta in Hcases.
  fold v2 in Hcases.
  destruct Hcases as [[Ht _]|[(t & Ht & Hearly & _)|(t & n0 & Ht & _ & Hn0 & Hv2 & Htm & Hcm)]].
  - destruct Harm1 as (Harm1 & _). congruence.
  - rewrite (armedBy_unique _ _ _ Harm1 Ht) in Hearly. simpl in Hearly. lia.
  - assert (n0 = n) as -> by congruence.
    pose proof (armedBy_unique _ _ _ Harm1 Ht) as Ht'.
    destruct (fire_commits v1 t n Hv1 Ht Hact1) as (_ & _ & _ & _ & Hst & Hti & _ & Hed).
    cbv zeta in Hst, Hti, Hed.
    assert (Hfire : fireAt t = (clock v + 1000)%Z) by (by rewrite Ht').
    assert (Hstore : store v2 = store v).
    { rewrite Hv2, with_clock_store, Hst. apply Hnoop. }
    split_and!.
    + rewrite Hcm, Hc1. unfold commitOf. by rewrite Hfire, Hti1, Hco1, Hco.
    + exact Hstore.
    + change (result getActiveNote (store v2) = Some n). rewrite Hstore. exact Hact.
    + by rewrite Hv2, with_clock_title, Hti.
    + by rewrite Hv2, with_clock_isEdited.
    + exact Htm.
    + rewrite Hv2, with_clock_saveStatus. by apply (fire_saveStatus v1 t n).
Qed.

Lemma opened_content : content Scenario.opened = Note.content Sample.groceries.
Proof. vm_compute. reflexivity. Qed.

Lemma cleared_title_is_reported_saved_but_not_stored_witness :
  let v2 := step (step Scenario.opened (TitleChange "")) (Elapse 1000) in
  store v2 = store Scenario.opened /\ title v2 = "" /\ saveStatus v2 = Some saved.
Proof.
  intros v2.
  assert (Hclear : title Scenario.opened <> "" \/ isEdited Scenario.opened = false)
    by (right; exact opened_clean).
  pose proof (cleared_title_is_reported_saved_but_not_stored Scenario.opened
                Sample.groceries 1000 opened_settled opened_active opened_content
                Hclear ltac:(reflexivity)) as H.
  cbv zeta in H. destruct H as (_ & Hs & _ & Ht & _ & _ & Hst).
  split; [exact Hs|]. split; [exact Ht | exact Hst].
Defined.

End NoteShellFacts.

(** * The Markdown view *)

Section MarkdownFacts.
Import Markup Markdown.
Implicit Types (s r a rest o close : string) (f : string -> string)
  (items : list string).

Lemma length_append a b :
  String.length (a +:+ b) = (String.length a + String.length b)%nat.
Proof. induction a as [|c a IH]; [done|]. rewrite append_cons. simpl. by rewrite IH. Qed.

Lemma hasChar_append c a b : hasChar c (a +:+ b) = hasChar c a || hasChar c b.
Proof.
  induction a as [|x a IH]; [done|].
  by rewrite append_cons, !hasChar_cons, IH, orb_assoc.
Qed.

Lemma startsWith_cons c r o :
  startsWith (String c r) (String "<" o) = Ascii.eqb "<" c && startsWith r o.
Proof. cbn [startsWith]. by destruct (Ascii.eqb "<" c). Qed.

Lemma startsWith_hasChar r o c :
  startsWith r o = true -> hasChar c o = true -> hasChar c r = true.
Proof.
  intros [rest ->]%startsWith_spec Hc. by rewrite hasChar_append, Hc.
Qed.

Lemma replaceEach_keep o close f c r :
  startsWith (String c r) o = false ->
  replaceEach o close f 0 (String c r) = String c (replaceEach o close f 0 r).
Proof. intros H. cbn [replaceEach]. by rewrite H. Qed.

Lemma replaceEach_tagFree o close f s :
  hasChar ">" o = true -> tagFree s = true ->
  replaceEach (String "<" o) close f 0 s = s.
Proof.
  intros Ho. induction s as [|c r IH]; [done|].
  cbn [tagFree]. intros [Hc Hr]%andb_true_iff. apply negb_true_iff in Hc.
  rewrite replaceEach_keep, IH; [done|done|].
  rewrite startsWith_cons. destruct (Ascii.eqb "<" c) eqn:Hlt; [|done].
  apply Ascii.eqb_eq in Hlt. subst c. simpl in Hc.
  destruct (startsWith r o) eqn:Hs; [|done].
  by rewrite (startsWith_hasChar r o ">" Hs Ho) in Hc.
Qed.

(** X29 (getMarkdownContent).  Text that holds no complete tag (no "<"
    followed, anywhere later, by a ">") is shown in the Markdown view as it
    is: none of the replacements matches and nothing is stripped. *)
Theorem getMarkdownContent_keeps_text_without_tags htmlContent :
  tagFree htmlContent = true -> getMarkdownContent htmlContent = htmlContent.
Proof.
  intros Hfree. unfold getMarkdownContent. cbv zeta.
  rewrite (replaceEach_tagFree "h1>" _ _ htmlContent eq_refl Hfree),
    (replaceEach_tagFree "h2>" _ _ htmlContent eq_refl Hfree),
    (replaceEach_tagFree "h3>" _ _ htmlContent eq_refl Hfree),
    (replaceEach_tagFree "p>" _ _ htmlContent eq_refl Hfree),
    (replaceEach_tagFree "strong>" _ _ htmlContent eq_refl Hfree),
    (replaceEach_tagFree "em>" _ _ htmlContent eq_refl Hfree),
    (replaceEach_tagFree "ul>" _ _ htmlContent eq_refl Hfree),
    (replaceEach_tagFree "ol>" _ _ htmlContent eq_refl Hfree).
  by apply tagFree_stripTags.
Qed.

Lemma getMarkdownContent_keeps_text_without_tags_witness :
  getMarkdownContent "2 > 1 and 1 < 2" = "2 > 1 and 1 < 2".
Proof. apply getMarkdownContent_keeps_text_without_tags. reflexivity. Defined.


Lemma plain_cons c a :
  plain (String c a) = true ->
  Ascii.eqb "<" c = false /\ isLineTerminator c = false /\ plain a = true.
Proof.
  cbn [plain]. intros [[Hc Hl]%andb_true_iff Ha]%andb_true_iff.
  apply negb_true_iff in Hc, Hl. by rewrite Ascii.eqb_sym.
Qed.

Lemma plain_no_lt a : plain a = true -> hasChar "<" a = false.
Proof.
  induction a as [|c a IH]; [done|]. intros (Hc & _ & Ha)%plain_cons.
  by rewrite hasChar_cons, Hc, IH.
Qed.

Lemma no_lt_tagFree s : hasChar "<" s = false -> tagFree s = true.
Proof.
  induction s as [|c r IH]; [done|]. rewrite hasChar_cons.
  intros [Hc Hr]%orb_false_iff. cbn [tagFree]. rewrite (IH Hr), andb_true_r.
  rewrite Ascii.eqb_sym in Hc. by rewrite Hc.
Qed.

(** A scan passes over text without "<". *)
Lemma replaceEach_text o close f a rest :
  plain a = true ->
  replaceEach (String "<" o) close f 0 (a +:+ rest) =
    a +:+ replaceEach (String "<" o) close f 0 rest.
Proof.
  induction a as [|c a IH]; [done|]. intros (Hc & _ & Ha)%plain_cons.
  rewrite !append_cons, replaceEach_keep, IH; [done|done|].
  by rewrite startsWith_cons, Hc.
Qed.

(** A scan passes over a tag its pattern does not begin with. *)
Lemma replaceEach_tag o close f body rest :
  plain body = true ->
  startsWith (String "<" (body +:+ rest)) (String "<" o) = false ->
  replaceEach (String "<" o) close f 0 (String "<" body +:+ rest) =
    String "<" body +:+ replaceEach (String "<" o) close f 0 rest.
Proof.
  intros Hb Hs. rewrite !append_cons, replaceEach_keep by done.
  by rewrite replaceEach_text.
Qed.

Lemma replaceEach_items o close f items rest :
  (forall y, startsWith (String "<" ("li>" +:+ y)) (String "<" o) = false) ->
  (forall y, startsWith (String "<" ("/li>" +:+ y)) (String "<" o) = false) ->
  Forall (fun a => plain a = true) items ->
  replaceEach (String "<" o) close f 0 (listItems items +:+ rest) =
    listItems items +:+ replaceEach (String "<" o) close f 0 rest.
Proof.
  intros Hopen Hclose. induction 1 as [|a items Ha _ IH]; [done|].
  cbn [listItems]. rewrite !append_assoc.
  rewrite (replaceEach_tag o close f "li>") by (done || apply Hopen).
  rewrite replaceEach_text by done.
  rewrite (replaceEach_tag o close f "/li>") by (done || apply Hclose).
  by rewrite IH.
Qed.

(** A whole list, in a pattern that begins with none of its tags. *)
Lemma replaceEach_list o close f wrapOpen wrapClose items :
  plain wrapOpen = true -> plain wrapClose = true ->
  (forall y, startsWith (String "<" (wrapOpen +:+ y)) (String "<" o) = false) ->
  (forall y, startsWith (String "<" (wrapClose +:+ y)) (String "<" o) = false) ->
  (forall y, startsWith (String "<" ("li>" +:+ y)) (String "<" o) = false) ->
  (forall y, startsWith (String "<" ("/li>" +:+ y)) (String "<" o) = false) ->
  Forall (fun a => plain a = true) items ->
  replaceEach (String "<" o) close f 0
      (String "<" wrapOpen +:+ listItems items +:+ String "<" wrapClose) =
    String "<" wrapOpen +:+ listItems items +:+ String "<" wrapClose.
Proof.
  intros Ho Hc Hwo Hwc Hli Hcli Hitems.
  rewrite replaceEach_tag by (done || apply Hwo).
  rewrite replaceEach_items by done.
  rewrite <- (append_empty_r (String "<" wrapClose)) at 1.
  rewrite replaceEach_tag by (done || apply Hwc).
  by rewrite append_empty_r.
Qed.

Lemma capture_unfold close s :
  capture close s =
    if startsWith s close then Some ""
    else match s with
         | EmptyString => None
         | String c r => if isLineTerminator c then None else String c <$> capture close r
         end.
Proof. by destruct s. Qed.

Lemma capture_text close' a rest :
  plain a = true ->
  capture (String "<" close') (a +:+ rest) =
    (fun inner => a +:+ inner) <$> capture (String "<" close') rest.
Proof.
  induction a as [|c a IH].
  - intros _. rewrite append_nil. by destruct (capture _ rest).
  - intros (Hc & Hl & Ha)%plain_cons. rewrite append_cons, capture_unfold.
    rewrite startsWith_cons, Hc, Hl. cbn [andb]. rewrite (IH Ha).
    by destruct (capture _ rest).
Qed.

Lemma capture_tag close' body rest :
  plain body = true ->
  startsWith (String "<" (body +:+ rest)) (String "<" close') = false ->
  capture (String "<" close') (String "<" body +:+ rest) =
    (fun inner => String "<" body +:+ inner) <$> capture (String "<" close') rest.
Proof.
  intros Hb Hs. rewrite append_cons, capture_unfold, Hs.
  change (isLineTerminator "<") with false. cbv iota.
  rewrite (capture_text close' body rest Hb). by destruct (capture _ rest).
Qed.

Lemma startsWith_append p rest : startsWith (p +:+ rest) p = true.
Proof. apply startsWith_spec. by exists rest. Qed.

Lemma capture_here close rest : capture close (close +:+ rest) = Some "".
Proof. by rewrite capture_unfold, startsWith_append. Qed.

Lemma capture_items close' items rest :
  (forall y, startsWith (String "<" ("li>" +:+ y)) (String "<" close') = false) ->
  (forall y, startsWith (String "<" ("/li>" +:+ y)) (String "<" close') = false) ->
  Forall (fun a => plain a = true) items ->
  capture (String "<" close') (listItems items +:+ rest) =
    (fun inner => listItems items +:+ inner) <$> capture (String "<" close') rest.
Proof.
  intros Hopen Hclose. induction 1 as [|a items Ha _ IH].
  - cbn [listItems]. rewrite append_nil. by destruct (capture _ rest).
  - cbn [listItems]. rewrite !append_assoc.
    rewrite (capture_tag close' "li>") by (done || apply Hopen).
    rewrite capture_text by done.
    rewrite (capture_tag close' "/li>") by (done || apply Hclose).
    rewrite IH. destruct (capture _ rest); [|done]. cbn [fmap option_fmap option_map].
    by rewrite !append_assoc.
Qed.

Lemma replaceEach_skip_all o close f k s :
  (String.length s <= k)%nat -> replaceEach o close f k s = "".
Proof.
  revert k. induction s as [|c r IH]; intros k Hk; [done|].
  simpl in Hk. destruct k as [|k]; [lia|]. cbn [replaceEach]. apply IH. lia.
Qed.

Lemma replaceEachCounting_skip o close g index a rest :
  replaceEachCounting o close g index (String.length a) (a +:+ rest) =
    replaceEachCounting o close g index 0 rest.
Proof.
  induction a as [|c a IH]; [by destruct rest|].
  rewrite append_cons. cbn [String.length replaceEachCounting]. exact IH.
Qed.

Lemma replaceEach_skip o close f a rest :
  replaceEach o close f (String.length a) (a +:+ rest) = replaceEach o close f 0 rest.
Proof.
  induction a as [|c a IH]; [by destruct rest|].
  rewrite append_cons. cbn [String.length replaceEach]. exact IH.
Qed.

Lemma dropChars_append p rest : dropChars (String.length p) (p +:+ rest) = rest.
Proof.
  induction p as [|c p IH]; [by destruct rest|].
  rewrite append_cons. cbn [String.length dropChars]. apply IH.
Qed.

(** One match at the head of the string. *)
Lemma replaceEach_match o close f x inner :
  capture close x = Some inner ->
  replaceEach (String "<" o) close f 0 (String "<" o +:+ x) =
    f inner +:+
    replaceEach (String "<" o) close f
      (String.length (String "<" o) + String.length inner + String.length close - 1)
      (o +:+ x).
Proof.
  intros Hcap. rewrite append_cons. cbn [replaceEach].
  rewrite startsWith_cons, startsWith_append. cbn [andb Ascii.eqb Bool.eqb].
  cbn [String.length dropChars]. by rewrite dropChars_append, Hcap.
Qed.

Lemma replaceEachCounting_match o close g index x inner :
  capture close x = Some inner ->
  replaceEachCounting (String "<" o) close g index 0 (String "<" o +:+ x) =
    g (S index) inner +:+
    replaceEachCounting (String "<" o) close g (S index)
      (String.length (String "<" o) + String.length inner + String.length close - 1)
      (o +:+ x).
Proof.
  intros Hcap. rewrite append_cons. cbn [replaceEachCounting].
  rewrite startsWith_cons, startsWith_append. cbn [andb Ascii.eqb Bool.eqb].
  cbn [String.length dropChars]. by rewrite dropChars_append, Hcap.
Qed.

(** The match of a whole list by the pattern of its own tag. *)
Lemma replaceEach_whole o close' f inner :
  capture (String "<" close') (inner +:+ String "<" close') = Some inner ->
  replaceEach (String "<" o) (String "<" close') f 0
      (String "<" o +:+ inner +:+ String "<" close') = f inner.
Proof.
  intros Hcap. rewrite (replaceEach_match o _ f _ inner Hcap).
  rewrite replaceEach_skip_all; [apply append_empty_r|].
  rewrite !length_append. cbn [String.length]. lia.
Qed.

Lemma item_captured a rest :
  plain a = true -> capture "</li>" (a +:+ "</li>" +:+ rest) = Some a.
Proof.
  intros Ha. rewrite capture_text by done. rewrite capture_here. cbn.
  by rewrite append_empty_r.
Qed.

Lemma item_length a :
  (String.length "<li>" + String.length a + String.length "</li>" - 1)%nat
    = String.length ("li>" +:+ a +:+ "</li>").
Proof. rewrite !length_append. cbn [String.length]. lia. Qed.

Lemma counting_items index items :
  Forall (fun a => plain a = true) items ->
  replaceEachCounting "<li>" "</li>" (fun index _ => numeral index +:+ ". $1" +:+ nl)
      index 0 (listItems items) =
    placeholderLines index (length items).
Proof.
  intros Hitems. revert index. induction Hitems as [|a items Ha _ IH]; intros index; [done|].
  cbn [listItems length placeholderLines].
  rewrite (replaceEachCounting_match "li>" "</li>" _ index _ a (item_captured a _ Ha)).
  rewrite item_length, <- !append_assoc, replaceEachCounting_skip, IH.
  by rewrite !append_assoc.
Qed.

Lemma each_items items :
  Forall (fun a => plain a = true) items ->
  replaceEach "<li>" "</li>" (fun x => "- " +:+ x +:+ nl) 0 (listItems items) =
    bulletLines items.
Proof.
  induction 1 as [|a items Ha _ IH]; [done|].
  cbn [listItems bulletLines].
  rewrite (replaceEach_match "li>" "</li>" _ _ a (item_captured a _ Ha)).
  rewrite item_length, <- !append_assoc, replaceEach_skip, IH.
  by rewrite !append_assoc.
Qed.

Lemma numeral_no_lt n : hasChar "<" (numeral n) = false.
Proof.
  unfold numeral. induction (Nat.to_uint n) as [|d IH|d IH|d IH|d IH|d IH|d IH|d IH|d IH|d IH|d IH];
    [done|..]; cbn [DecimalString.NilEmpty.string_of_uint]; by rewrite hasChar_cons, IH.
Qed.

Lemma placeholderLines_no_lt from count : hasChar "<" (placeholderLines from count) = false.
Proof.
  revert from. induction count as [|k IH]; intros from; [done|].
  cbn [placeholderLines]. by rewrite !hasChar_append, numeral_no_lt, IH.
Qed.

Lemma bulletLines_no_lt items :
  Forall (fun a => plain a = true) items -> hasChar "<" (bulletLines items) = false.
Proof.
  induction 1 as [|a items Ha _ IH]; [done|].
  cbn [bulletLines]. by rewrite !hasChar_append, (plain_no_lt a Ha), IH.
Qed.

(** X30 (getMarkdownContent).  For list items without nested markup, an
    unordered list is shown with one line "- item" for every item, but an
    ordered list loses the text of its items: every item is shown as its
    number followed by the characters "$1", because the replacement
    function returns a template in which "$1" is not a reference. *)
Theorem getMarkdownContent_lists items :
  Forall (fun a => plain a = true) items ->
  getMarkdownContent ("<ul>" +:+ listItems items +:+ "</ul>") = bulletLines items /\
  getMarkdownContent ("<ol>" +:+ listItems items +:+ "</ol>") =
    placeholderLines 0 (length items).
Proof.
  intros Hitems.
  assert (Hul : capture "</ul>" (listItems items +:+ "</ul>") = Some (listItems items)).
  { rewrite capture_items by done.
    change (capture "</ul>" "</ul>") with (Some ""). cbn. by rewrite append_empty_r. }
  assert (Hol : capture "</ol>" (listItems items +:+ "</ol>") = Some (listItems items)).
  { rewrite capture_items by done.
    change (capture "</ol>" "</ol>") with (Some ""). cbn. by rewrite append_empty_r. }
  unfold getMarkdownContent. cbv zeta. split.
  - rewrite (replaceEach_list "h1>" _ _ "ul>" "/ul>" items) by done.
    rewrite (replaceEach_list "h2>" _ _ "ul>" "/ul>" items) by done.
    rewrite (replaceEach_list "h3>" _ _ "ul>" "/ul>" items) by done.
    rewrite (replaceEach_list "p>" _ _ "ul>" "/ul>" items) by done.
    rewrite (replaceEach_list "strong>" _ _ "ul>" "/ul>" items) by done.
    rewrite (replaceEach_list "em>" _ _ "ul>" "/ul>" items) by done.
    rewrite (replaceEach_whole "ul>" "/ul>" _ (listItems items) Hul).
    rewrite (each_items items Hitems).
    pose proof (no_lt_tagFree _ (bulletLines_no_lt items Hitems)) as Hfree.
    rewrite (replaceEach_tagFree "ol>" _ _ _ eq_refl Hfree).
    by apply tagFree_stripTags.
  - rewrite (replaceEach_list "h1>" _ _ "ol>" "/ol>" items) by done.
    rewrite (replaceEach_list "h2>" _ _ "ol>" "/ol>" items) by done.
    rewrite (replaceEach_list "h3>" _ _ "ol>" "/ol>" items) by done.
    rewrite (replaceEach_list "p>" _ _ "ol>" "/ol>" items) by done.
    rewrite (replaceEach_list "strong>" _ _ "ol>" "/ol>" items) by done.
    rewrite (replaceEach_list "em>" _ _ "ol>" "/ol>" items) by done.
    rewrite (replaceEach_list "ul>" _ _ "ol>" "/ol>" items) by done.
    rewrite (replaceEach_whole "ol>" "/ol>" _ (listItems items) Hol).
    rewrite (counting_items 0 items Hitems).
    apply tagFree_stripTags, no_lt_tagFree, placeholderLines_no_lt.
Qed.

Lemma getMarkdownContent_lists_witness :
  getMarkdownContent ("<ul>" +:+ listItems ["Bullet lists"; "With multiple items"] +:+ "</ul>")
    = bulletLines ["Bullet lists"; "With multiple items"] /\
  getMarkdownContent ("<ol>" +:+ listItems ["Numbered lists"; "Work too!"] +:+ "</ol>")
    = placeholderLines 0 (length ["Numbered lists"; "Work too!"]).
Proof.
  split.
  - apply (getMarkdownContent_lists ["Bullet lists"; "With multiple items"]).
    by repeat constructor.
  - apply (getMarkdownContent_lists ["Numbered lists"; "Work too!"]).
    by repeat constructor.
Defined.

End MarkdownFacts.

(** * The debounce of the autosave *)

Section AutosaveDebounce.
Import Autosave.
Implicit Types (v : View) (r : Render) (t : Timer) (e : Event) (n : Note.t)
  (s : NotesState).

Lemma updateNote_other_lookups s id data now id' :
  id' <> id ->
  result (getNoteById id') (exec (updateNote id data now) s) = result (getNoteById id') s.
Proof.
  intros Hne.
  destruct (updateNote_cases s id data now) as [-> | (i & note & _ & Hl & Hf & _ & ->)];
    [done|].
  destruct (find_Some_findIndex _ _ _ Hf) as (_ & _ & _ & Hid).
  rewrite !getNoteById_unfold.
  apply (find_insert_other _ _ i note _ Hl); simpl; congruence.
Qed.

Lemma differs_true (provided current : string) :
  provided <> "" -> provided <> current -> differs (Some provided) current = true.
Proof.
  intros Hne Hdiff. unfold differs. apply String.eqb_neq in Hdiff. rewrite Hdiff.
  by destruct provided.
Qed.

(** What the call of [handleSave] writes: the note with the title and the
    content handed over, when one of them is not empty and differs. *)
Lemma save_writes s n (newTitle newContent : string) now :
  result getActiveNote s = Some n ->
  (newTitle <> "" /\ newTitle <> Note.title n) \/
  (newContent <> "" /\ newContent <> Note.content n) ->
  result getActiveNote
         (exec (updateNote (Note.id n) (Note.titleAndContent newTitle newContent) now) s)
    = Some (Note.mk (Note.id n) newTitle newContent (Note.chatHistory n) now).
Proof.
  intros Hact Hdiff.
  pose proof (getActiveNote_Some_getNoteById s n Hact) as Hfind.
  assert (Hactive : activeNoteId s = Some (Note.id n)).
  { rewrite getActiveNote_unfold in Hact.
    by destruct (find_Some_findIndex _ _ _ Hact) as (_ & _ & _ & <-). }
  assert (Hch : hasChanged (Note.titleAndContent newTitle newContent) n = true).
  { unfold hasChanged, Note.titleAndContent.
    cbn [Note.p_title Note.p_content Note.p_chatHistory].
    destruct Hdiff as [[H1 H2]|[H1 H2]].
    - by rewrite (differs_true _ _ H1 H2).
    - rewrite (differs_true _ _ H1 H2). by rewrite orb_true_r. }
  destruct (updateNote_changed_exec s (Note.id n) _ now n Hfind Hch)
    as (i & Hi & Hl & Hid & He).
  destruct (lookups_after_insert s i n
              (Note.spread n (Note.titleAndContent newTitle newContent) now)
              (Note.id n) Hi Hl Hid Hid) as (Hnew & _ & Ha & _).
  rewrite He.
  rewrite (getActiveNote_getNoteById _ (Note.id n)) by (by rewrite Ha).
  exact Hnew.
Qed.

(** The call of [handleSave] with the title and the content the note has
    changes nothing. *)
Lemma save_same s n now :
  result getActiveNote s = Some n ->
  exec (updateNote (Note.id n) (Note.titleAndContent (Note.title n) (Note.content n)) now) s
    = s.
Proof.
  intros Hact.
  pose proof (getActiveNote_Some_getNoteById s n Hact) as Hfind.
  rewrite getNoteById_unfold in Hfind.
  destruct (updateNote_cases s (Note.id n)
              (Note.titleAndContent (Note.title n) (Note.content n)) now)
    as [Hs | (i & note & _ & _ & Hf & Hch & _)]; [exact Hs|].
  assert (note = n) as -> by congruence.
  rewrite hasChanged_false in Hch; [discriminate | done | ..];
    simpl; by intros ? [= <-].
Qed.

Lemma repeated_edit_unchanged v e : settled v -> repeats v e -> step v e = v.
Proof.
  intros Hv [He Hsame]. destruct e as [value | newContent | |]; try done.
  - change (update (handleTitleChange value v) = v).
    assert (handleTitleChange value v = v) as ->
      by (destruct v; simpl in *; by subst).
    by apply update_settled.
  - change (update (handleContentChange newContent v) = v).
    assert (handleContentChange newContent v = v) as ->
      by (destruct v; simpl in *; by subst).
    by apply update_settled.
Qed.

(** C7 fails as stated.  The content of the open note is edited at time
    10000, which arms the timer for 11000; 600 ms later an edit event brings
    the same content again.  This further edit within 1000 ms neither
    cancels nor re-arms the timer: it stays due at 11000, and the one save
    is made then, 400 ms after the last edit. *)
Lemma repeated_edit_does_not_rearm :
  let v1 := Scenario.typed in
  let v2 := step v1 (Elapse 600) in
  let v3 := step v2 (ContentChange "<p>milk, eggs</p>") in
  let v4 := step v3 (Elapse 400) in
  clock v1 = 10000%Z /\ content v1 = "<p>milk, eggs</p>" /\
  fireAt <$> timers v1 = [11000%Z] /\
  clock v3 = 10600%Z /\ timers v3 = timers v1 /\ commits v3 = [] /\
  clock v4 = 11000%Z /\ commit_time <$> commits v4 = [11000%Z] /\ timers v4 = [].
Proof. vm_compute. repeat split; reflexivity. Qed.

(** C7, amended.  In the model of the component: (1) between events at
    most one autosave timer is pending, and it was armed by the current
    render, for the note that is active, with the title and content on
    screen; (2) an edit of the active note that changes the title or the
    content, or is the first since the last save, arms the timer one
    second ahead; further such edits less than a second apart commit
    nothing and re-arm it; a quiet second after the last of them makes
    exactly one [updateNote], for that note, with the last title and
    content; after it the stored note has the last title and content: it is
    written with them, and stamped, when a title or a content that is not
    empty differs from the stored one, and the store is left as it is when
    both are the stored ones; no other note is written, and nothing more
    happens however long the quiet lasts; (3) a store action that makes
    another note (or none) active leaves no timer pending and loads the new
    note's title and content; the store is then never written by a timer,
    however long the quiet lasts; (4) an edit event that repeats the value
    of its field while edits are unsaved changes nothing: the timer stays
    as it was armed. *)
Theorem autosave_debounce_belongs_to_active_note :
  (forall s now es, settled (run es (mount s now))) /\
  (forall v n e b ms,
     settled v -> r_activeNote (render v) = Some n ->
     effectiveEdit v e -> quickEdits (step v e) b -> (1000 <= ms)%N ->
     let v1 := edits (step v e) b in
     let v2 := step v1 (Elapse ms) in
     armedBy (step v e)
             (mkTimer (nextHandle v) (clock v + 1000) (render (step v e))) /\
     r_activeNote (render (step v e)) = Some n /\
     match e with
     | TitleChange value => title (step v e) = value /\ content (step v e) = content v
     | ContentChange newContent =>
         content (step v e) = newContent /\ title (step v e) = title v
     | _ => True
     end /\
     commits v1 = commits v /\
     (exists t, armedBy v1 t /\ fireAt t = (clock v1 + 1000)%Z) /\
     commits v2 =
       commits v ++ [mkCommit (clock v1 + 1000) (Note.id n) (title v1) (content v1)] /\
     store v2 =
       exec (updateNote (Note.id n)
               (Note.titleAndContent (title v1) (content v1)) (clock v1 + 1000))
            (store v) /\
     ((title v1 <> "" /\ title v1 <> Note.title n) \/
      (content v1 <> "" /\ content v1 <> Note.content n) ->
      result getActiveNote (store v2) =
        Some (Note.mk (Note.id n) (title v1) (content v1) (Note.chatHistory n)
                      (clock v1 + 1000))) /\
     (title v1 = Note.title n -> content v1 = Note.content n -> store v2 = store v) /\
     (forall id, id <> Note.id n ->
        result (getNoteById id) (store v2) = result (getNoteById id) (store v)) /\
     timers v2 = [] /\
     forall ms', commits (step v2 (Elapse ms')) = commits v2 /\
                 store (step v2 (Elapse ms')) = store v2) /\
  (forall v action ms,
     settled v ->
     Note.id <$> result getActiveNote (exec action (store v))
       <> Note.id <$> result getActiveNote (store v) ->
     let v' := step v (StoreChange action) in
     timers v' = [] /\
     commits (step v' (Elapse ms)) = commits v /\
     store (step v' (Elapse ms)) = exec action (store v) /\
     forall n', result getActiveNote (exec action (store v)) = Some n' ->
                title v' = Note.title n' /\ content v' = Note.content n' /\
                isEdited v' = false) /\
  (forall v e, settled v -> repeats v e -> step v e = v).
Proof.
  split; [|split; [|split]].
  - intros s now es. apply run_settled, mount_settled.
  - intros v n e b ms Hv Hact Heff Hq Hms. cbv zeta.
    destruct (edit_arms v e n Hv Hact Heff) as (Hv0 & Hs0 & Hc0 & Hk0 & _ & Harm0 & Hval).
    assert (Hact0 : r_activeNote (render (step v e)) = Some n).
    { change (result getActiveNote (store (step v e)) = Some n).
      rewrite Hs0. exact Hact. }
    destruct (edits_rearm b (step v e) _ n Hv0 Harm0) as (Hv1 & Hc1 & Hs1 & t1 & Harm1 & Hf1);
      [simpl; by rewrite Hk0 | done | done |].
    assert (Hact1 : r_activeNote (render (edits (step v e) b)) = Some n).
    { change (result getActiveNote (store (edits (step v e) b)) = Some n).
      rewrite Hs1, Hs0. exact Hact. }
    destruct (elapse_fires _ t1 n ms Hv1 Harm1 Hf1 Hact1 Hms)
      as (Hv2 & Ht2 & Hc2 & Hs2).
    assert (Hstored : result getActiveNote (store v) = Some n) by exact Hact.
    assert (Hstore : store (step (edits (step v e) b) (Elapse ms)) =
                     exec (updateNote (Note.id n)
                             (Note.titleAndContent (title (edits (step v e) b))
                                                   (content (edits (step v e) b)))
                             (clock (edits (step v e) b) + 1000))
                          (store v)).
    { rewrite Hs2, Hs1, Hs0. reflexivity. }
    split; [exact Harm0|]. split; [exact Hact0|]. split; [exact Hval|].
    split; [rewrite Hc1; exact Hc0|].
    split; [exists t1; split; [exact Harm1 | exact Hf1]|].
    split; [rewrite Hc2, Hc1, Hc0; reflexivity|].
    split; [exact Hstore|].
    split; [intros Hdiff; rewrite Hstore; by apply save_writes|].
    split; [intros Htitle Hcontent; rewrite Hstore, Htitle, Hcontent; by apply save_same|].
    split; [intros id Hid; rewrite Hstore; by apply updateNote_other_lookups|].
    split; [exact Ht2|].
    intros ms'. rewrite step_Elapse, (elapse_idle _ _ Ht2).
    split; [apply with_clock_commits | apply with_clock_store].
  - intros v action ms Hv Hid. cbv zeta.
    destruct (switch_cancels v action Hv Hid) as (Hv' & Ht' & Hc' & _ & Hs' & Hload).
    rewrite step_Elapse, (elapse_idle _ _ Ht'), with_clock_commits, with_clock_store.
    split; [exact Ht'|]. split; [exact Hc'|]. split; [exact Hs'|].
    intros n' Hn'. rewrite Hn' in Hload. exact Hload.
  - intros v e. apply repeated_edit_unchanged.
Qed.

Lemma burst_title_differs :
  let typed := edits (step (mount Sample.twoNotes 10000) (ContentChange "<p>milk, eggs</p>"))
                     [(400%N, TitleChange "Shop")] in
  (title typed <> "" /\ title typed <> Note.title Sample.groceries) \/
  (content typed <> "" /\ content typed <> Note.content Sample.groceries).
Proof. left. vm_compute. split; discriminate. Qed.

Lemma autosave_debounce_belongs_to_active_note_witness :
  let v := mount Sample.twoNotes 10000 in
  let typed := edits (step v (ContentChange "<p>milk, eggs</p>"))
                     [(400%N, TitleChange "Shop")] in
  let typed' := run [ContentChange "<p>milk, eggs</p>"; Elapse 400; TitleChange "Shop"] v in
  commits (step typed (Elapse 1000)) =
    commits v ++ [mkCommit (clock typed + 1000) (Note.id Sample.groceries)
                           (title typed) (content typed)] /\
  result getActiveNote (store (step typed (Elapse 1000))) =
    Some (Note.mk (Note.id Sample.groceries) (title typed) (content typed)
                  (Note.chatHistory Sample.groceries) (clock typed + 1000)) /\
  timers (step typed' (StoreChange (setActiveNote "n2"))) = [] /\
  commits (step (step typed' (StoreChange (setActiveNote "n2"))) (Elapse 5000))
    = commits typed'.
Proof.
  cbv zeta.
  destruct autosave_debounce_belongs_to_active_note as (Hreach & Hburst & Hswitch & _).
  pose proof (Hreach Sample.twoNotes 10000%Z []) as Hv. cbn [run fold_left] in Hv.
  assert (Hact : r_activeNote (render (mount Sample.twoNotes 10000)) = Some Sample.groceries)
    by (vm_compute; reflexivity).
  assert (Heff : effectiveEdit (mount Sample.twoNotes 10000)
                               (ContentChange "<p>milk, eggs</p>"))
    by (left; vm_compute; discriminate).
  assert (Hq : quickEdits (step (mount Sample.twoNotes 10000)
                                (ContentChange "<p>milk, eggs</p>"))
                          [(400%N, TitleChange "Shop")]).
  { split; [reflexivity|]. split; [|exact I]. left. vm_compute. discriminate. }
  pose proof (Hburst (mount Sample.twoNotes 10000) Sample.groceries
                (ContentChange "<p>milk, eggs</p>") [(400%N, TitleChange "Shop")] 1000%N
                Hv Hact Heff Hq ltac:(reflexivity)) as Hb.
  cbv zeta in Hb.
  destruct Hb as (_ & _ & _ & _ & _ & Hcommits & _ & Hwritten & _).
  split; [exact Hcommits|].
  split; [exact (Hwritten burst_title_differs)|].
  pose proof (Hreach Sample.twoNotes 10000%Z
                [ContentChange "<p>milk, eggs</p>"; Elapse 400; TitleChange "Shop"])
    as Hv'.
  refine (let H := Hswitch _ (setActiveNote "n2") 5000%N Hv' _ in
          conj (proj1 H) (proj1 (proj2 H))).
  vm_compute. discriminate.
Defined.









End AutosaveDebounce.
